(** * Another I: the conversation store, the send-message orchestrator,
      the AI routes and the ChatGPT import parser

    A shallow embedding of the TypeScript sources

    - [page.tsx] (the [Home] component: folder / conversation handlers and
      [handleSendMessage]),
    - [app/api/chat/route.ts], [app/api/summarize/route.ts] and
      [app/api/title/route.ts] (the server routes the orchestrator talks
      to),
    - [ImportDialog.tsx] ([parseChatGPTExport], [handleFileSelect]),
    - [Explorer.tsx] ([getSortedDocs]), [TagManager.tsx], [ChatPanel.tsx]
      ([handleSubmit]) and [SettingsDialog.tsx] (the key check and the save
      button),
    - [app/api/models/route.ts] and [useAISettings.ts] (the model lists),

    followed by the properties proved about them. *)

From Stdlib Require Import List ZArith NArith QArith Qround Qpower Lia Bool String Ascii.
From Stdlib Require Import Permutation Sorted.
From Stdlib Require DecimalZ.
Import ListNotations.

Local Open Scope Z_scope.

(* ================================================================== *)
(** * JavaScript strings *)
(* ================================================================== *)

(** A JavaScript string is a sequence of UTF-16 code units; [length],
    [slice], [includes] and [trim] all work on code units. *)
Module Js.

Definition codeunit := N.
Definition jsstring := list codeunit.

(** ** Literals

    Literals of the source are written here as UTF-8 text and turned into
    code units by [lit]: UTF-8 bytes to code points, code points to UTF-16. *)

Definition cont (b : N) : N := N.land b 63.

Fixpoint utf8_decode (bs : list N) : list N :=
  match bs with
  | [] => []
  | b :: rest =>
      if (b <? 128)%N then b :: utf8_decode rest
      else if (b <? 224)%N then
        match rest with
        | b1 :: r => (N.shiftl (N.land b 31) 6 + cont b1)%N :: utf8_decode r
        | _ => []
        end
      else if (b <? 240)%N then
        match rest with
        | b1 :: b2 :: r =>
            (N.shiftl (N.land b 15) 12 + N.shiftl (cont b1) 6 + cont b2)%N
              :: utf8_decode r
        | _ => []
        end
      else
        match rest with
        | b1 :: b2 :: b3 :: r =>
            (N.shiftl (N.land b 7) 18 + N.shiftl (cont b1) 12
             + N.shiftl (cont b2) 6 + cont b3)%N :: utf8_decode r
        | _ => []
        end
  end.

Definition utf16_encode (cp : N) : list codeunit :=
  if (cp <? 65536)%N then [cp]
  else let c := (cp - 65536)%N in
       [(55296 + N.shiftr c 10)%N; (56320 + N.land c 1023)%N].

Definition lit (s : string) : jsstring :=
  flat_map utf16_encode
    (utf8_decode (map N_of_ascii (list_ascii_of_string s))).

(** The line feed of the source's ["\n"]. *)
Definition LF : codeunit := 10%N.

(** ** Comparison *)

Fixpoint eqb (s t : jsstring) : bool :=
  match s, t with
  | [], [] => true
  | a :: s', b :: t' => (a =? b)%N && eqb s' t'
  | _, _ => false
  end.

(** ** [String.prototype.includes] *)

Fixpoint startsWith (s p : jsstring) : bool :=
  match p, s with
  | [], _ => true
  | b :: p', a :: s' => (a =? b)%N && startsWith s' p'
  | _ :: _, [] => false
  end.

Fixpoint includes (s p : jsstring) : bool :=
  startsWith s p ||
  match s with
  | [] => false
  | _ :: s' => includes s' p
  end.

(** ** [String.prototype.endsWith] *)
Definition endsWith (s p : jsstring) : bool := startsWith (rev s) (rev p).

(** ** [String.prototype.slice(0, n)] for [n >= 0] *)
Definition slice0 (n : nat) (s : jsstring) : jsstring := firstn n s.

(** ** [String.prototype.trim]

    ECMAScript's WhiteSpace and LineTerminator code points; all of them
    are single code units. *)
Definition isWhiteSpace (c : codeunit) : bool :=
  ((c =? 9) || (c =? 10) || (c =? 11) || (c =? 12) || (c =? 13)
   || (c =? 32) || (c =? 160) || (c =? 5760)
   || ((8192 <=? c) && (c <=? 8202))
   || (c =? 8232) || (c =? 8233) || (c =? 8239) || (c =? 8287)
   || (c =? 12288) || (c =? 65279))%N.

Fixpoint trimStart (s : jsstring) : jsstring :=
  match s with
  | [] => []
  | c :: s' => if isWhiteSpace c then trimStart s' else s
  end.

Definition trimEnd (s : jsstring) : jsstring := rev (trimStart (rev s)).

Definition trim (s : jsstring) : jsstring := trimEnd (trimStart s).

(** ** [Array.prototype.join] on an array of strings *)
Fixpoint join (sep : jsstring) (parts : list jsstring) : jsstring :=
  match parts with
  | [] => []
  | [p] => p
  | p :: rest => p ++ sep ++ join sep rest
  end.

(** ** Numbers in template literals: the decimal digits of an integer *)
Fixpoint uint_digits (u : Decimal.uint) : jsstring :=
  match u with
  | Decimal.Nil => []
  | Decimal.D0 u => 48%N :: uint_digits u
  | Decimal.D1 u => 49%N :: uint_digits u
  | Decimal.D2 u => 50%N :: uint_digits u
  | Decimal.D3 u => 51%N :: uint_digits u
  | Decimal.D4 u => 52%N :: uint_digits u
  | Decimal.D5 u => 53%N :: uint_digits u
  | Decimal.D6 u => 54%N :: uint_digits u
  | Decimal.D7 u => 55%N :: uint_digits u
  | Decimal.D8 u => 56%N :: uint_digits u
  | Decimal.D9 u => 57%N :: uint_digits u
  end.

Definition decimal (z : Z) : jsstring :=
  match Z.to_int z with
  | Decimal.Pos u => uint_digits u
  | Decimal.Neg u => 45%N :: uint_digits u
  end.

(** JavaScript truthiness of a string: non-empty. *)
Definition truthy (s : jsstring) : bool :=
  match s with [] => false | _ => true end.

End Js.

Abbreviation jsstring := Js.jsstring.

(* ================================================================== *)
(** * JavaScript numbers

    A JavaScript number is an IEEE 754 double. A finite double is given
    here by its exact value, a rational; the rational [infinity], 2^1024,
    which no finite double reaches, stands for the two infinities. NaN does
    not arise in the arithmetic below and is kept apart where the source
    can produce it. *)
(* ================================================================== *)

Module Double.

(** The integer nearest to [q], the even one of the two at a tie. *)
Definition nearestEven (q : Q) : Z :=
  let f := Qfloor q in
  match Qcompare (q - inject_Z f) (1 # 2) with
  | Lt => f
  | Gt => f + 1
  | Eq => if Z.even f then f else f + 1
  end.

(** For [x > 0], the [e] with 2^e <= x < 2^(e+1). *)
Definition binade (x : Q) : Z :=
  let e0 := Z.log2 (Qnum x) - Z.log2 (Zpos (Qden x)) in
  if Qle_bool (2 ^ e0) x then e0 else e0 - 1.

(** What stands for [Infinity], and its opposite for [-Infinity]: the
    least power of two above every finite double. *)
Definition infinity : Q := 2 ^ 1024.

(** Rounding of [x > 0] to the nearest double, ties to even: 53
    significant bits, the exponent not below -1022 (so that the subnormal
    numbers are multiples of 2^-1074), and overflow to infinity. *)
Definition roundPos (x : Q) : Q :=
  let e := Z.max (binade x) (-1022) in
  let r := (inject_Z (nearestEven (x * 2 ^ (52 - e))) * 2 ^ (e - 52))%Q in
  if Qle_bool infinity r then infinity else r.

(** The double nearest to a real number: how a number literal is read,
    and how the exact result of an operation is rounded. *)
Definition round (x : Q) : Q :=
  match Qcompare x 0 with
  | Eq => 0%Q
  | Gt => roundPos x
  | Lt => (- roundPos (- x))%Q
  end.

(** [x * y] on numbers, for a finite [y] that is 1 or more, as in both
    places where the source multiplies (by 1000, by the length of a list
    of five): an infinite [x] then stays infinite, its product being at
    least [infinity]. *)
Definition mul (x y : Q) : Q := round (round x * round y).

End Double.

(* ================================================================== *)
(** * Data model ([page.tsx], interfaces [Message], [ConversationTag],
      [Conversation], [Folder]) *)
(* ================================================================== *)

(** A [Date] built by [new Date()]: its time value, the clock reading in
    milliseconds. *)
Definition Date := Z.

Inductive Role := user | assistant.

Definition Role_eqb (a b : Role) : bool :=
  match a, b with
  | user, user | assistant, assistant => true
  | _, _ => false
  end.

Module Message.
Record t := mk
  { id : jsstring;
    role : Role;
    content : jsstring;
    timestamp : Date }.
End Message.

Module ConversationTag.
Record t := mk
  { id : jsstring;
    name : jsstring;
    color : jsstring }.
End ConversationTag.

Module Conversation.
Record t := mk
  { id : jsstring;
    title : jsstring;
    messages : list Message.t;
    documentContent : jsstring;
    tags : list ConversationTag.t;
    isPinned : bool;
    createdAt : Date;
    updatedAt : Date }.

(** The object spreads [{ ...conv, field: v }] of the source. *)
Definition with_title (v : jsstring) (c : t) : t :=
  mk (id c) v (messages c) (documentContent c) (tags c) (isPinned c)
     (createdAt c) (updatedAt c).
Definition with_messages (v : list Message.t) (c : t) : t :=
  mk (id c) (title c) v (documentContent c) (tags c) (isPinned c)
     (createdAt c) (updatedAt c).
Definition with_documentContent (v : jsstring) (c : t) : t :=
  mk (id c) (title c) (messages c) v (tags c) (isPinned c)
     (createdAt c) (updatedAt c).
Definition with_tags (v : list ConversationTag.t) (c : t) : t :=
  mk (id c) (title c) (messages c) (documentContent c) v (isPinned c)
     (createdAt c) (updatedAt c).
Definition with_isPinned (v : bool) (c : t) : t :=
  mk (id c) (title c) (messages c) (documentContent c) (tags c) v
     (createdAt c) (updatedAt c).
Definition with_updatedAt (v : Date) (c : t) : t :=
  mk (id c) (title c) (messages c) (documentContent c) (tags c)
     (isPinned c) (createdAt c) v.
End Conversation.

Module Folder.
Record t := mk
  { id : jsstring;
    name : jsstring;
    conversations : list Conversation.t;
    isExpanded : bool }.

Definition with_name (v : jsstring) (f : t) : t :=
  mk (id f) v (conversations f) (isExpanded f).
Definition with_conversations (v : list Conversation.t) (f : t) : t :=
  mk (id f) (name f) v (isExpanded f).
End Folder.

(** [folders.flatMap(f => f.conversations)] *)
Definition allConversations (folders : list Folder.t) : list Conversation.t :=
  flat_map Folder.conversations folders.

(* ================================================================== *)
(** * The server routes ([app/api/chat], [app/api/summarize],
      [app/api/title]) *)
(* ================================================================== *)

Module Api.

(** [settings]: provider, key and model, as the client stores them. *)
Record AISettings := mkSettings
  { provider : jsstring;
    apiKey : jsstring;
    model : jsstring }.

(** [{ role: string; content: string }] *)
Record ChatMessage := mkChatMessage
  { role : jsstring;
    content : jsstring }.

(** The vendor endpoints behind [callOpenAI], [callAnthropic] and
    [callGemini]. A call either returns the vendor's text or throws an
    [Error] with a message (non-2xx status, blocked or empty answer,
    network failure). What the vendor answers is the environment's
    choice: an oracle from calls to results. *)
Inductive Vendor := OpenAI | Anthropic | Gemini.

Record VendorCall := mkCall
  { vendor : Vendor;
    call_apiKey : jsstring;
    call_model : jsstring;
    call_messages : list ChatMessage }.

Inductive CallResult :=
| Returned (text : jsstring)
| Threw (message : jsstring).

Definition Oracle := VendorCall -> CallResult.

(** A request body: [await request.json()] either yields the body or
    throws a [SyntaxError] with some message. *)
Inductive Body (A : Type) :=
| Unparseable (syntaxError : jsstring)
| Parsed (a : A).
Arguments Unparseable {A} _.
Arguments Parsed {A} _.

(** [!settings?.apiKey] *)
Definition noApiKey (settings : option AISettings) : bool :=
  match settings with
  | None => true
  | Some st => negb (Js.truthy (apiKey st))
  end.

(** [messages.length > MAX ? messages.slice(-MAX) : messages] *)
Definition truncateTo {A : Type} (max : nat) (messages : list A) : list A :=
  if (max <? List.length messages)%nat
  then skipn (List.length messages - max) messages
  else messages.

(** The [switch (provider)] of the routes: the vendor to call, or the
    [default:] branch. *)
Definition vendorOf (provider : jsstring) : option Vendor :=
  if Js.eqb provider (Js.lit "openai") then Some OpenAI
  else if Js.eqb provider (Js.lit "anthropic") then Some Anthropic
  else if Js.eqb provider (Js.lit "gemini") then Some Gemini
  else None.

Definition isUser (m : ChatMessage) : bool := Js.eqb (role m) (Js.lit "user").

(** ** [app/api/chat/route.ts] *)
Module Chat.

Record Request := mkRequest
  { messages : list ChatMessage;
    settings : option AISettings }.

Record Response := mkResponse
  { status : Z;
    message : jsstring;
    isDemo : bool;
    provider : jsstring;
    error : option jsstring }.

Definition responses : list jsstring := Eval vm_compute in
  [ Js.lit "なるほど、それは大切なポイントですね。もう少し具体的に、どんな状況でそう感じますか？";
    Js.lit "その考え、よく分かります。整理してみましょう。一番気になっているのはどの部分ですか？";
    Js.lit "それぞれの選択肢について、メリットとデメリットを書き出してみましょうか？";
    Js.lit "その気持ち、抱えているのは大変ですよね。優先順位をつけるとしたら、何が一番重要ですか？";
    Js.lit "なるほど。その中で、今すぐ決めなければいけないことと、後で考えても良いことを分けてみましょう。" ].

Definition worryReply : jsstring := Eval vm_compute in
  Js.lit "その悩み、じっくり一緒に考えましょう。具体的にどんなことで困っていますか？".
Definition workReply : jsstring := Eval vm_compute in
  Js.lit "仕事の優先順位で迷っているんですね。今抱えているタスクを書き出してみましょうか？".
Definition organizeReply : jsstring := Eval vm_compute in
  Js.lit "これまでの話を整理してみますね。いくつかの重要なポイントが見えてきました。".

(** [messages.filter(m => m.role === 'user').pop()?.content || ''] *)
Definition lastUserMessage (messages : list ChatMessage) : jsstring :=
  match rev (filter isUser messages) with
  | m :: _ => content m
  | [] => []
  end.

(** [Math.floor(Math.random() * responses.length)], with [random] the
    value of [Math.random()], a double in the interval [0, 1); the
    product is the rounded product of the two doubles. *)
Definition randomIndex (random : Q) : nat :=
  Z.to_nat
    (Qfloor (Double.mul random (inject_Z (Z.of_nat (List.length responses))))).

(** [getMockResponse]. Reading [responses] past its end cannot happen
    for a [random] in [0, 1); the default of [nth] stands there. *)
Definition getMockResponse (random : Q) (messages : list ChatMessage) : jsstring :=
  let last := lastUserMessage messages in
  if Js.includes last (Js.lit "悩") || Js.includes last (Js.lit "困")
  then worryReply
  else if Js.includes last (Js.lit "仕事") || Js.includes last (Js.lit "優先")
  then workReply
  else if Js.includes last (Js.lit "整理") || Js.includes last (Js.lit "まとめ")
  then organizeReply
  else nth (randomIndex random) responses [].

Definition MAX_MESSAGES : nat := 20.

(** The [catch] branch: the error text goes out as the message, with
    status 200. *)
Definition errorResponse (errorMessage : jsstring) : Response :=
  mkResponse 200
    (Js.lit "⚠️ API エラーが発生しました: " ++ errorMessage
       ++ [Js.LF; Js.LF]
       ++ Js.lit "設定を確認してください。長すぎるメッセージの場合は、内容を短くしてお試しください。")
    true (Js.lit "error") (Some errorMessage).

(** [POST]: the response and the vendor calls issued on the way. *)
Definition POST (oracle : Oracle) (random : Q) (body : Body Request)
    : Response * list VendorCall :=
  match body with
  | Unparseable e => (errorResponse e, [])
  | Parsed req =>
      match settings req with
      | Some st =>
          if noApiKey (settings req)
          then (mkResponse 200 (getMockResponse random (messages req))
                  true (Js.lit "demo") None, [])
          else
            let truncatedMessages := truncateTo MAX_MESSAGES (messages req) in
            match vendorOf (Api.provider st) with
            | Some v =>
                let call := mkCall v (apiKey st) (model st) truncatedMessages in
                match oracle call with
                | Returned responseMessage =>
                    (mkResponse 200 responseMessage false (Api.provider st) None,
                     [call])
                | Threw e => (errorResponse e, [call])
                end
            | None => (errorResponse (Js.lit "Unknown provider"), [])
            end
      | None =>
          (mkResponse 200 (getMockResponse random (messages req))
             true (Js.lit "demo") None, [])
      end
  end.

End Chat.

(** ** [app/api/summarize/route.ts] *)
Module Summarize.

Record Request := mkRequest
  { messages : list ChatMessage;
    settings : option AISettings }.

Record Response := mkResponse
  { status : Z;
    summary : jsstring;
    isDemo : bool;
    error : option jsstring }.

Definition emptySummary : jsstring := Eval vm_compute in
  Js.lit "# 対話サマリー" ++ [Js.LF; Js.LF] ++ Js.lit "対話がまだありません。".

Definition generateFallbackSummary (messages : list ChatMessage) : jsstring :=
  match messages with
  | [] => emptySummary
  | _ =>
      let userMessages := filter isUser messages in
      let firstTopic :=
        match userMessages with
        | m :: _ =>
            let t := Js.slice0 100 (content m) in
            if Js.truthy t then t else Js.lit "不明"
        | [] => Js.lit "不明"
        end in
      Js.lit "# 対話サマリー" ++ [Js.LF; Js.LF]
      ++ Js.lit "## 背景・課題" ++ [Js.LF]
      ++ firstTopic
      ++ (if (100 <=? List.length firstTopic)%nat then Js.lit "..." else [])
      ++ [Js.LF; Js.LF]
      ++ Js.lit "## 議論の内容" ++ [Js.LF]
      ++ Js.lit "- " ++ Js.decimal (Z.of_nat (List.length userMessages))
      ++ Js.lit "件のトピックについて対話" ++ [Js.LF]
      ++ Js.lit "- 詳細なサマリーにはAPI設定が必要です" ++ [Js.LF; Js.LF]
      ++ Js.lit "## 備考" ++ [Js.LF]
      ++ Js.lit "設定からAPIキーを登録すると、AIによる詳細なサマリーが生成されます。"
  end.

Definition MAX_MESSAGES : nat := 30.

(** The [catch] branch: status 500, with the fallback summary of the
    empty transcript in the [summary] field. *)
Definition errorResponse (errorMessage : jsstring) : Response :=
  mkResponse 500 (generateFallbackSummary []) true (Some errorMessage).

Definition POST (oracle : Oracle) (body : Body Request)
    : Response * list VendorCall :=
  match body with
  | Unparseable e => (errorResponse e, [])
  | Parsed req =>
      match settings req with
      | Some st =>
          if noApiKey (settings req)
          then (mkResponse 200 (generateFallbackSummary (messages req)) true None, [])
          else
            let truncatedMessages := truncateTo MAX_MESSAGES (messages req) in
            match vendorOf (Api.provider st) with
            | Some v =>
                let call := mkCall v (apiKey st) (model st) truncatedMessages in
                match oracle call with
                | Returned summary => (mkResponse 200 summary false None, [call])
                | Threw e => (errorResponse e, [call])
                end
            | None => (errorResponse (Js.lit "Unknown provider"), [])
            end
      | None =>
          (mkResponse 200 (generateFallbackSummary (messages req)) true None, [])
      end
  end.

End Summarize.

(** ** [app/api/title/route.ts] *)
Module Title.

(** The body's four properties, strings as [handleSendMessage] sends
    them. *)
Record Request := mkRequest
  { message : jsstring;
    model : jsstring;
    apiKey : jsstring;
    provider : jsstring }.

(** [{ title }] with status 200, or [{ error }] with status 400 / 500. *)
Record Response := mkResponse
  { status : Z;
    title : option jsstring }.

(** [response.ok]: a status in 200..299. *)
Definition ok (r : Response) : bool := (200 <=? status r) && (status r <=? 299).

(** [title.replace(...)] deletes the quote characters U+0027 and U+0022,
    the corner brackets U+300C and U+300D and the line feed; then
    [trim()], then the cap at 20 code units. *)
Definition stripped (c : Js.codeunit) : bool :=
  ((c =? 39) || (c =? 34) || (c =? 12300) || (c =? 12301) || (c =? 10))%N.

Definition cleanTitle (title : jsstring) : jsstring :=
  let t := Js.trim (filter (fun c => negb (stripped c)) title) in
  if (20 <? List.length t)%nat then firstn 20 t else t.

(** The model named in the request to the vendor: this route's
    [callOpenAI] sends [model.includes('gpt') ? model : 'gpt-3.5-turbo'],
    its [callAnthropic] and [callGemini] send [model]. *)
Definition sentModel (v : Vendor) (model : jsstring) : jsstring :=
  match v with
  | OpenAI =>
      if Js.includes model (Js.lit "gpt") then model else Js.lit "gpt-3.5-turbo"
  | _ => model
  end.

(** The call is given as it reaches the vendor: the model sent, and the
    message as the one user turn. *)
Definition POST (oracle : Oracle) (body : Body Request)
    : Response * list VendorCall :=
  match body with
  | Unparseable _ => (mkResponse 400 None, [])
  | Parsed req =>
      if negb (Js.truthy (message req)) then (mkResponse 400 None, [])
      else
        match vendorOf (provider req) with
        | Some v =>
            let call :=
              mkCall v (apiKey req) (sentModel v (model req))
                     [mkChatMessage (Js.lit "user") (message req)] in
            match oracle call with
            | Returned title => (mkResponse 200 (Some (cleanTitle title)), [call])
            | Threw _ => (mkResponse 500 None, [call])
            end
        | None => (mkResponse 500 None, [])
        end
  end.

End Title.

(** ** The client's view of a request

    [await fetch(...)] followed by [await response.json()]: either both
    succeed and the client holds the decoded body, or one of them rejects
    (no connection, a body that is not JSON). *)
Inductive Fetched (A : Type) :=
| Rejected
| Responded (a : A).
Arguments Rejected {A}.
Arguments Responded {A} _.

End Api.

(* ================================================================== *)
(** * The store handlers of [Home] ([page.tsx]) *)
(* ================================================================== *)

Module Home.

(** The component state the handlers read and write. *)
Record State := mkState
  { folders : list Folder.t;
    activeConversationId : option jsstring;
    isLoading : bool }.

Definition setFolders (v : list Folder.t) (s : State) : State :=
  mkState v (activeConversationId s) (isLoading s).
Definition setActiveConversationId (v : option jsstring) (s : State) : State :=
  mkState (folders s) v (isLoading s).
Definition setIsLoading (v : bool) (s : State) : State :=
  mkState (folders s) (activeConversationId s) v.

(** [useState] initial values. *)
Definition initialFolders : list Folder.t :=
  [ Folder.mk (Js.lit "folder-1") (Js.lit "会話") [] true ].

Definition initialState : State := mkState initialFolders None false.

(** [c.id === activeConversationId], where the right side may be [null]. *)
Definition isActive (active : option jsstring) (c : Conversation.t) : bool :=
  match active with
  | Some a => Js.eqb (Conversation.id c) a
  | None => false
  end.

(** The recurring updater shape
    [prev.map(folder => ({ ...folder,
       conversations: folder.conversations.map(conv => ...) }))]. *)
Definition mapConversations (f : Conversation.t -> Conversation.t)
    (prev : list Folder.t) : list Folder.t :=
  map (fun folder =>
         Folder.with_conversations (map f (Folder.conversations folder)) folder)
      prev.

(** ** [handleConversationSelect] *)
Definition handleConversationSelect (convId : jsstring) (s : State) : State :=
  setActiveConversationId (Some convId) s.

(** ** [handleNewConversation]

    [now] is the clock reading of the handler ([Date.now()], [new Date()]).
    The updater reads [updated[0]]: on an empty collection that is a
    [TypeError], rendered here as [None]. *)
Definition placeholderTitle : jsstring := Eval vm_compute in Js.lit "新しい会話".

Definition convId_at (now : Z) : jsstring := Js.lit "conv-" ++ Js.decimal now.

Definition insertIntoFirstFolder (newConv : Conversation.t)
    (prev : list Folder.t) : option (list Folder.t) :=
  match prev with
  | [] => None
  | first :: rest =>
      let exists_ :=
        existsb (fun c => Js.eqb (Conversation.id c) (Conversation.id newConv))
                (Folder.conversations first) in
      if exists_ then Some prev
      else Some (Folder.with_conversations
                   (newConv :: Folder.conversations first) first :: rest)
  end.

Definition handleNewConversation (now : Z) (s : State) : option State :=
  let newId := convId_at now in
  let newConv :=
    Conversation.mk newId placeholderTitle [] [] [] false now now in
  match insertIntoFirstFolder newConv (folders s) with
  | None => None
  | Some updated =>
      Some (setActiveConversationId (Some newId) (setFolders updated s))
  end.

(** ** Folder management *)
Definition folderId_at (now : Z) : jsstring := Js.lit "folder-" ++ Js.decimal now.

Definition handleFolderCreate (now : Z) (s : State) : State :=
  let newFolder :=
    Folder.mk (folderId_at now) (Js.lit "新しいフォルダ") [] true in
  setFolders (folders s ++ [newFolder]) s.

Definition handleFolderRename (folderId newName : jsstring) (s : State) : State :=
  setFolders
    (map (fun f => if Js.eqb (Folder.id f) folderId
                   then Folder.with_name newName f else f)
         (folders s)) s.

(** The updater of [handleFolderDelete]; the boolean tells whether it
    called [setActiveConversationId(null)]. *)
Definition deleteFolder (active : option jsstring) (folderId : jsstring)
    (prev : list Folder.t) : list Folder.t * bool :=
  if (List.length prev <=? 1)%nat then (prev, false)
  else
    let folderToDelete :=
      find (fun f => Js.eqb (Folder.id f) folderId) prev in
    let clear :=
      match folderToDelete with
      | Some f => existsb (isActive active) (Folder.conversations f)
      | None => false
      end in
    (filter (fun f => negb (Js.eqb (Folder.id f) folderId)) prev, clear).

Definition handleFolderDelete (folderId : jsstring) (s : State) : State :=
  let '(next, clear) := deleteFolder (activeConversationId s) folderId (folders s) in
  let s' := if clear then setActiveConversationId None s else s in
  setFolders next s'.

(** ** [handleConversationDelete] *)
Definition handleConversationDelete (convId : jsstring) (s : State) : State :=
  let s' :=
    match activeConversationId s with
    | Some a => if Js.eqb convId a then setActiveConversationId None s else s
    | None => s
    end in
  setFolders
    (map (fun folder =>
            Folder.with_conversations
              (filter (fun c => negb (Js.eqb (Conversation.id c) convId))
                      (Folder.conversations folder)) folder)
         (folders s')) s'.

(** ** [handleConversationMove]

    The first [prev.map] assigns the captured variable [conversation]
    as a side effect while it builds [updated]; the pass below threads
    that variable through the folders in order. *)
Definition moveRemove (convId : jsstring)
    (acc : list Folder.t * option Conversation.t) (folder : Folder.t)
    : list Folder.t * option Conversation.t :=
  let '(updated, conversation) := acc in
  match find (fun c => Js.eqb (Conversation.id c) convId)
             (Folder.conversations folder) with
  | Some conv =>
      (updated ++
         [Folder.with_conversations
            (filter (fun c => negb (Js.eqb (Conversation.id c) convId))
                    (Folder.conversations folder)) folder],
       Some conv)
  | None => (updated ++ [folder], conversation)
  end.

Definition moveConversation (convId targetFolderId : jsstring)
    (prev : list Folder.t) : list Folder.t :=
  let '(updated, conversation) := fold_left (moveRemove convId) prev ([], None) in
  match conversation with
  | Some conv =>
      map (fun folder =>
             if Js.eqb (Folder.id folder) targetFolderId
             then Folder.with_conversations
                    (conv :: Folder.conversations folder) folder
             else folder)
          updated
  | None => updated
  end.

Definition handleConversationMove (convId targetFolderId : jsstring)
    (s : State) : State :=
  setFolders (moveConversation convId targetFolderId (folders s)) s.

(** ** [handleImport] *)
Definition handleImport (conversations : list Conversation.t)
    (targetFolderId : jsstring) (s : State) : State :=
  let s' :=
    setFolders
      (map (fun folder =>
              if negb (Js.eqb (Folder.id folder) targetFolderId) then folder
              else Folder.with_conversations
                     (conversations ++ Folder.conversations folder) folder)
           (folders s)) s in
  match conversations with
  | first :: _ => setActiveConversationId (Some (Conversation.id first)) s'
  | [] => s'
  end.

(** ** Pins and tags *)
Definition togglePin (convId : jsstring) (conv : Conversation.t) : Conversation.t :=
  if Js.eqb (Conversation.id conv) convId
  then Conversation.with_isPinned (negb (Conversation.isPinned conv)) conv
  else conv.

Definition handleTogglePin (convId : jsstring) (s : State) : State :=
  setFolders (mapConversations (togglePin convId) (folders s)) s.

Definition handleCreateTag (now : Z) (name color : jsstring) : ConversationTag.t :=
  ConversationTag.mk (Js.lit "tag-" ++ Js.decimal now) name color.

Definition addTag (convId : jsstring) (tag : ConversationTag.t)
    (conv : Conversation.t) : Conversation.t :=
  if negb (Js.eqb (Conversation.id conv) convId) then conv
  else if existsb (fun t => Js.eqb (ConversationTag.id t) (ConversationTag.id tag))
                  (Conversation.tags conv) then conv
  else Conversation.with_tags (Conversation.tags conv ++ [tag]) conv.

Definition handleAddTag (convId : jsstring) (tag : ConversationTag.t)
    (s : State) : State :=
  setFolders (mapConversations (addTag convId tag) (folders s)) s.

Definition removeTag (convId tagId : jsstring) (conv : Conversation.t)
    : Conversation.t :=
  if Js.eqb (Conversation.id conv) convId
  then Conversation.with_tags
         (filter (fun t => negb (Js.eqb (ConversationTag.id t) tagId))
                 (Conversation.tags conv)) conv
  else conv.

Definition handleRemoveTag (convId tagId : jsstring) (s : State) : State :=
  setFolders (mapConversations (removeTag convId tagId) (folders s)) s.

(** ** [handleContentChange] *)
Definition setContent (convId content : jsstring) (now : Date)
    (conv : Conversation.t) : Conversation.t :=
  if Js.eqb (Conversation.id conv) convId
  then Conversation.with_updatedAt now
         (Conversation.with_documentContent content conv)
  else conv.

Definition handleContentChange (now : Date) (content : jsstring) (s : State)
    : State :=
  match activeConversationId s with
  | None => s
  | Some a =>
      if negb (Js.truthy a) then s
      else setFolders (mapConversations (setContent a content now) (folders s)) s
  end.

(** ** [handleSendMessage]

    An [async] function: it runs in segments separated by its [await]s.
    Each segment below is one synchronous stretch; it takes the state as
    it is when the stretch runs and returns the new state together with
    the requests and console messages it issues. What the closure carries
    from one segment to the next is a [Task]. The clock reads of one
    segment ([Date.now()], [new Date()]) are taken to fall into the same
    millisecond, [now]. *)

Definition apology : jsstring := Eval vm_compute in
  Js.lit "すみません、接続に問題が発生しました。もう一度お試しください。".

(** [content.length > 30 ? content.slice(0, 30) + '...' : content] *)
Definition titleFrom (content : jsstring) : jsstring :=
  if (30 <? List.length content)%nat
  then Js.slice0 30 content ++ Js.lit "..."
  else content.

Definition roleName (r : Role) : jsstring :=
  match r with
  | user => Js.lit "user"
  | assistant => Js.lit "assistant"
  end.

(** [m => ({ role: m.role, content: m.content })] *)
Definition toChatMessage (m : Message.t) : Api.ChatMessage :=
  Api.mkChatMessage (roleName (Message.role m)) (Message.content m).

Record Task := mkTask
  { convIdToUpdate : jsstring;
    (** [currentConv?.messages || []] *)
    capturedMessages : list Message.t;
    userMessage : Message.t;
    sentContent : jsstring;
    aiSettings : option Api.AISettings }.

Inductive Effect :=
| FetchChat (body : Api.Chat.Request)
| FetchSummarize (body : Api.Summarize.Request)
| FetchTitle (body : Api.Title.Request)
| ConsoleError (label : jsstring).

(** The optimistic append of the user's message. *)
Definition appendUser (convIdToUpdate : jsstring) (userMessage : Message.t)
    (content : jsstring) (now : Date) (conv : Conversation.t) : Conversation.t :=
  if negb (Js.eqb (Conversation.id conv) convIdToUpdate) then conv
  else
    let updatedMessages := Conversation.messages conv ++ [userMessage] in
    let newTitle :=
      if Js.eqb (Conversation.title conv) placeholderTitle && Js.truthy content
      then titleFrom content
      else Conversation.title conv in
    Conversation.with_updatedAt now
      (Conversation.with_title newTitle
         (Conversation.with_messages updatedMessages conv)).

(** First segment, up to [await fetch('/api/chat', ...)].

    [folders s] is the collection of the render whose closure runs.
    The insertion updater assigns [updated[0].conversations] on the folder
    object that this collection shares; whether the later read of the
    closure's [folders] sees that assignment depends on whether React
    has already run the updater ([eager]). *)
Definition createOnFirstSend (eager : bool) (now : Z) (content : jsstring)
    (s : State) : option (jsstring * State * list Folder.t) :=
  let newId := convId_at now in
  let newConv :=
    Conversation.mk newId (titleFrom content) [] [] [] false now now in
  match insertIntoFirstFolder newConv (folders s) with
  | None => None
  | Some updated =>
      Some (newId,
            setActiveConversationId (Some newId) (setFolders updated s),
            if eager then updated else folders s)
  end.

(** From [const userMessage = ...] to the [fetch]: [convIdToUpdate] is the
    captured id, [s1] the state so far, [closureFolders] what the closure's
    [folders] reads as. *)
Definition appendAndFetch (now : Z) (settings : option Api.AISettings)
    (content : jsstring) (convIdToUpdate : jsstring) (s1 : State)
    (closureFolders : list Folder.t) : State * Task * list Effect :=
  let userMessage :=
    Message.mk (Js.lit "msg-" ++ Js.decimal now) user content now in
  let s2 :=
    setIsLoading true
      (setFolders
         (mapConversations
            (appendUser convIdToUpdate userMessage content now)
            (folders s1)) s1) in
  let currentConv :=
    find (fun c => Js.eqb (Conversation.id c) convIdToUpdate)
         (allConversations closureFolders) in
  let captured :=
    match currentConv with
    | Some c => Conversation.messages c
    | None => []
    end in
  let allMessages := captured ++ [userMessage] in
  (s2,
   mkTask convIdToUpdate captured userMessage content settings,
   [FetchChat (Api.Chat.mkRequest (map toChatMessage allMessages) settings)]).

Definition handleSendMessage (eager : bool) (now : Z)
    (settings : option Api.AISettings) (content : jsstring) (s : State)
    : option (State * Task * list Effect) :=
  let target :=
    match activeConversationId s with
    | Some a =>
        if Js.truthy a then Some (a, s, folders s)
        else createOnFirstSend eager now content s
    | None => createOnFirstSend eager now content s
    end in
  match target with
  | None => None
  | Some (convIdToUpdate, s1, closureFolders) =>
      Some (appendAndFetch now settings content convIdToUpdate s1 closureFolders)
  end.

Definition aiMessageOf (now : Z) (data : Api.Chat.Response) : Message.t :=
  Message.mk (Js.lit "msg-" ++ Js.decimal now ++ Js.lit "-ai") assistant
             (Api.Chat.message data) now.

Definition errorMessageAt (now : Z) : Message.t :=
  Message.mk (Js.lit "msg-" ++ Js.decimal now ++ Js.lit "-error") assistant
             apology now.

Definition mergeCompletion (convIdToUpdate : jsstring)
    (finalMessages : list Message.t) (now : Date) (conv : Conversation.t)
    : Conversation.t :=
  if negb (Js.eqb (Conversation.id conv) convIdToUpdate) then conv
  else Conversation.with_updatedAt now
         (Conversation.with_messages finalMessages conv).

Definition appendError (convIdToUpdate : jsstring) (errorMessage : Message.t)
    (conv : Conversation.t) : Conversation.t :=
  if Js.eqb (Conversation.id conv) convIdToUpdate
  then Conversation.with_messages
         (Conversation.messages conv ++ [errorMessage]) conv
  else conv.

(** Second segment: the chat request has settled. On a response the
    segment ends at [await fetch('/api/summarize', ...)]; on a rejection
    it is the outer [catch] and the function returns. *)
Definition onChatSettled (now : Z) (task : Task)
    (result : Api.Fetched Api.Chat.Response) (s : State)
    : State * list Effect :=
  match result with
  | Api.Responded data =>
      let aiMessage := aiMessageOf now data in
      let finalMessages :=
        capturedMessages task ++ [userMessage task; aiMessage] in
      (setFolders
         (mapConversations
            (mergeCompletion (convIdToUpdate task) finalMessages now)
            (folders s)) s,
       [FetchSummarize
          (Api.Summarize.mkRequest (map toChatMessage finalMessages)
                                   (aiSettings task))])
  | Api.Rejected =>
      (setIsLoading false
         (setFolders
            (mapConversations
               (appendError (convIdToUpdate task) (errorMessageAt now))
               (folders s)) s),
       [ConsoleError (Js.lit "Failed to send message:")])
  end.

Definition mergeSummary (convIdToUpdate : jsstring) (summary : jsstring)
    (now : Date) (conv : Conversation.t) : Conversation.t :=
  if negb (Js.eqb (Conversation.id conv) convIdToUpdate) then conv
  else Conversation.with_updatedAt now
         (Conversation.with_documentContent summary conv).

(** Third segment: the summarize request has settled; then the title
    request is started for a conversation that had no message, and the
    function returns. *)
Definition onSummarySettled (now : Z) (task : Task)
    (result : Api.Fetched Api.Summarize.Response) (s : State)
    : State * list Effect :=
  let '(s1, logged) :=
    match result with
    | Api.Responded summaryData =>
        (setFolders
           (mapConversations
              (mergeSummary (convIdToUpdate task)
                            (Api.Summarize.summary summaryData) now)
              (folders s)) s, [])
    | Api.Rejected =>
        (s, [ConsoleError (Js.lit "Failed to generate summary:")])
    end in
  let titleRequest :=
    match capturedMessages task, aiSettings task with
    | [], Some st =>
        [FetchTitle
           (Api.Title.mkRequest (sentContent task) (Api.model st)
                                (Api.apiKey st) (Api.provider st))]
    | _, _ => []
    end in
  (setIsLoading false s1, logged ++ titleRequest).

Definition mergeTitle (convIdToUpdate : jsstring) (title : jsstring)
    (conv : Conversation.t) : Conversation.t :=
  if negb (Js.eqb (Conversation.id conv) convIdToUpdate) then conv
  else Conversation.with_title title conv.

(** The background title task, once its request has settled. *)
Definition onTitleSettled (task : Task)
    (result : Api.Fetched Api.Title.Response) (s : State)
    : State * list Effect :=
  match result with
  | Api.Responded titleResponse =>
      if Api.Title.ok titleResponse then
        match Api.Title.title titleResponse with
        | Some title =>
            if Js.truthy title
            then (setFolders
                    (mapConversations (mergeTitle (convIdToUpdate task) title)
                                      (folders s)) s, [])
            else (s, [])
        | None => (s, [])
        end
      else (s, [])
  | Api.Rejected => (s, [ConsoleError (Js.lit "Failed to generate title:")])
  end.

(** ** The client and the routes together

    The browser's [fetch] reaches the route when the connection works
    ([net = true]); the body the client sends is always well-formed
    JSON. *)
Definition fetchChat (net : bool) (oracle : Api.Oracle) (random : Q)
    (body : Api.Chat.Request) : Api.Fetched Api.Chat.Response :=
  if net then Api.Responded (fst (Api.Chat.POST oracle random (Api.Parsed body)))
  else Api.Rejected.

Definition fetchSummarize (net : bool) (oracle : Api.Oracle)
    (body : Api.Summarize.Request) : Api.Fetched Api.Summarize.Response :=
  if net then Api.Responded (fst (Api.Summarize.POST oracle (Api.Parsed body)))
  else Api.Rejected.

Definition fetchTitle (net : bool) (oracle : Api.Oracle)
    (body : Api.Title.Request) : Api.Fetched Api.Title.Response :=
  if net then Api.Responded (fst (Api.Title.POST oracle (Api.Parsed body)))
  else Api.Rejected.

End Home.

(* ================================================================== *)
(** * The ChatGPT import ([ImportDialog.tsx]) *)
(* ================================================================== *)

Module ImportDialog.

(** The export file is whatever [JSON.parse] returns. The records are
    modelled at the types the source declares for them
    ([ChatGPTConversation], [ChatGPTMessage]), with one addition: any
    property may be absent ([Missing], reads as [undefined]) or [null].
    That is how a structurally malformed record arises. *)
Inductive field (A : Type) :=
| Missing
| Null
| Has (a : A).
Arguments Missing {A}.
Arguments Null {A}.
Arguments Has {A} _.

(** What the source does when it reads a property of [undefined] or
    [null], or calls a method on one: it throws a [TypeError]. *)
Inductive result (A : Type) :=
| Ok (a : A)
| TypeError.
Arguments Ok {A} _.
Arguments TypeError {A}.

Module Author.
Record t := mk { role : field jsstring }.
End Author.

Module Content.
Record t := mk { parts : field (list jsstring) }.
End Content.

Module ChatGPTMessage.
Record t := mk
  { id : field jsstring;
    author : field Author.t;
    content : field Content.t;
    create_time : field Q }.
End ChatGPTMessage.

Module Node.
Record t := mk
  { id : field jsstring;
    message : field ChatGPTMessage.t;
    parent : field jsstring;
    children : field (list jsstring) }.
End Node.

(** [mapping] is an object used as a map; the list gives its own
    properties in the order [Object.values] enumerates them. *)
Module ChatGPTConversation.
Record t := mk
  { id : field jsstring;
    title : field jsstring;
    create_time : field Q;
    update_time : field Q;
    mapping : field (list (jsstring * Node.t)) }.
End ChatGPTConversation.

(** A [Date] built from a number: its time value, or [None] for an
    invalid date ([NaN], an infinity, or beyond the range [TimeClip]
    allows). *)
Definition JsDate := option Z.

(** [x * 1000] for a property [x]: [undefined] gives [NaN] ([None]),
    [null] counts as 0, and a number, given as it is written in the
    file, is read as a double and multiplied as doubles are. *)
Definition times1000 (x : field Q) : option Q :=
  match x with
  | Missing => None
  | Null => Some 0%Q
  | Has q => Some (Double.mul q 1000)
  end.

(** [new Date(v)]: [TimeClip] refuses what lies beyond 8.64e15, the
    infinities with it, and cuts the fraction off. *)
Definition newDate (v : option Q) : JsDate :=
  match v with
  | None => None
  | Some q =>
      if Qle_bool (- (8640000000000000)) q && Qle_bool q 8640000000000000
      then Some (Z.quot (Qnum q) (Zpos (Qden q)))
      else None
  end.

(** The dialog's own [Message] and [Conversation]: the source copies
    [msg.id] as it finds it and builds its dates from the file's
    numbers. *)
Module Message.
Record t := mk
  { id : field jsstring;
    role : Role;
    content : jsstring;
    timestamp : JsDate }.
End Message.

Module Conversation.
Record t := mk
  { id : jsstring;
    title : jsstring;
    messages : list Message.t;
    documentContent : jsstring;
    tags : list ConversationTag.t;
    isPinned : bool;
    createdAt : JsDate;
    updatedAt : JsDate }.
End Conversation.

(** A property in a template literal. *)
Definition display (x : field jsstring) : jsstring :=
  match x with
  | Missing => Js.lit "undefined"
  | Null => Js.lit "null"
  | Has s => s
  end.

(** [x || fallback] on a string property. *)
Definition orElse (x : field jsstring) (fallback : jsstring) : jsstring :=
  match x with
  | Has s => if Js.truthy s then s else fallback
  | _ => fallback
  end.

(** ** [generateDocumentContent]

    [stamp] is the text of [new Date().toLocaleString('ja-JP')]. *)
Definition block (msg : Message.t) : jsstring :=
  match Message.role msg with
  | user =>
      Js.lit "### 💭 ユーザー" ++ [Js.LF; Js.LF]
      ++ Message.content msg ++ [Js.LF; Js.LF]
  | assistant =>
      Js.lit "> 🤖 **ChatGPT**: " ++ Js.slice0 500 (Message.content msg)
      ++ (if (500 <? List.length (Message.content msg))%nat
          then Js.lit "..." else [])
      ++ [Js.LF; Js.LF]
  end.

Definition generateDocumentContent (stamp : jsstring)
    (messages : list Message.t) (title : field jsstring) : jsstring :=
  let userMessages := filter (fun m => Role_eqb (Message.role m) user) messages in
  let aiMessages := filter (fun m => Role_eqb (Message.role m) assistant) messages in
  Js.lit "# " ++ display title ++ [Js.LF; Js.LF]
  ++ Js.lit "📅 インポート日時: " ++ stamp ++ [Js.LF; Js.LF]
  ++ Js.lit "---" ++ [Js.LF; Js.LF]
  ++ Js.lit "## 対話の記録" ++ [Js.LF; Js.LF]
  ++ flat_map block messages
  ++ Js.lit "---" ++ [Js.LF; Js.LF]
  ++ Js.lit "## サマリー" ++ [Js.LF; Js.LF]
  ++ Js.lit "- 📝 " ++ Js.decimal (Z.of_nat (List.length userMessages))
  ++ Js.lit "件のメッセージ" ++ [Js.LF]
  ++ Js.lit "- 💡 " ++ Js.decimal (Z.of_nat (List.length aiMessages))
  ++ Js.lit "件の応答" ++ [Js.LF].

(** ** [parseChatGPTExport] *)

(** [node.message?.content?.parts?.length], as a condition. *)
Definition hasParts (node : Node.t) : bool :=
  match Node.message node with
  | Has msg =>
      match ChatGPTMessage.content msg with
      | Has c =>
          match Content.parts c with
          | Has ps => negb (List.length ps =? 0)%nat
          | _ => false
          end
      | _ => false
      end
  | _ => false
  end.

(** [node.message?.create_time || 0]: the number of the file read as a
    double. *)
Definition sortKey (node : Node.t) : Q :=
  match Node.message node with
  | Has msg =>
      match ChatGPTMessage.create_time msg with
      | Has q => Double.round q
      | _ => 0%Q
      end
  | _ => 0%Q
  end.

(** The comparator handed to [sort]; only its sign is used, and the
    difference of two doubles has the sign of their exact difference. Two
    infinities of one sign give [NaN], which [sort] takes as 0, as the
    difference is here. *)
Definition compareFn (a b : Node.t) : Q := (sortKey a - sortKey b)%Q.

(** [Array.prototype.sort] is a stable sort; for a comparator that is a
    consistent ordering, as this one is, its result does not depend on the
    engine's algorithm. It is written here as an insertion sort that
    moves an element past another only when the comparator is positive. *)
Fixpoint insertNode (x : Node.t) (l : list Node.t) : list Node.t :=
  match l with
  | [] => [x]
  | y :: l' =>
      if Qle_bool (compareFn x y) 0 then x :: l else y :: insertNode x l'
  end.

Definition sortNodes (l : list Node.t) : list Node.t :=
  fold_right insertNode [] l.

(** [role !== 'user' && role !== 'assistant'] fails for exactly two
    values. *)
Definition keptRole (role : field jsstring) : option Role :=
  match role with
  | Has r =>
      if Js.eqb r (Js.lit "user") then Some user
      else if Js.eqb r (Js.lit "assistant") then Some assistant
      else None
  | _ => None
  end.

(** One turn of [for (const node of messageNodes)], on the array
    [messages] built so far. *)
Definition visit (node : Node.t) (messages : list Message.t)
    : result (list Message.t) :=
  match Node.message node with
  | Has msg =>
      match ChatGPTMessage.author msg with
      | Has a =>
          match keptRole (Author.role a) with
          | None => Ok messages
          | Some role =>
              match ChatGPTMessage.content msg with
              | Has c =>
                  match Content.parts c with
                  | Has ps =>
                      let content := Js.trim (Js.join [Js.LF] ps) in
                      if negb (Js.truthy content) then Ok messages
                      else
                        Ok (messages ++
                              [Message.mk (ChatGPTMessage.id msg) role content
                                 (newDate (times1000 (ChatGPTMessage.create_time msg)))])
                  | _ => TypeError
                  end
              | _ => TypeError
              end
          end
      | _ => TypeError
      end
  | _ => Ok messages
  end.

Fixpoint forNodes (nodes : list Node.t) (messages : list Message.t)
    : result (list Message.t) :=
  match nodes with
  | [] => Ok messages
  | node :: rest =>
      match visit node messages with
      | Ok messages' => forNodes rest messages'
      | TypeError => TypeError
      end
  end.

Definition untitled : jsstring := Eval vm_compute in Js.lit "無題の会話".

(** The body of the [try] for one record: the conversation it pushes,
    if any. *)
Definition convert (stamp : jsstring) (conv : ChatGPTConversation.t)
    : result (option Conversation.t) :=
  match ChatGPTConversation.mapping conv with
  | Has mapping =>
      let messageNodes := sortNodes (filter hasParts (map snd mapping)) in
      match forNodes messageNodes [] with
      | Ok messages =>
          if (0 <? List.length messages)%nat then
            Ok (Some
                  (Conversation.mk
                     (Js.lit "imported-" ++ display (ChatGPTConversation.id conv))
                     (orElse (ChatGPTConversation.title conv) untitled)
                     messages
                     (generateDocumentContent stamp messages
                        (ChatGPTConversation.title conv))
                     [] false
                     (newDate (times1000 (ChatGPTConversation.create_time conv)))
                     (newDate (times1000 (ChatGPTConversation.update_time conv)))))
          else Ok None
      | TypeError => TypeError
      end
  | _ => TypeError
  end.

(** An element of the array handed to [parseChatGPTExport]: a record,
    or [null]. A number, a string or a boolean has none of the properties
    read and is a record with every property missing. *)
Inductive Element :=
| NullElement
| Record (conv : ChatGPTConversation.t).

(** The outer loop with its [try] / [catch]: the conversations pushed
    and the ids reported through [console.error]. [stamps k] is the
    clock text while element number [k] is processed. On [null] the
    [try] throws at [conv.mapping] and the handler throws in its turn at
    [conv.id]: that [TypeError] leaves the loop and the function. *)
Fixpoint parseLoop (stamps : nat -> jsstring) (k : nat)
    (data : list Element)
    (conversations : list Conversation.t) (console : list (field jsstring))
    : result (list Conversation.t * list (field jsstring)) :=
  match data with
  | [] => Ok (conversations, console)
  | NullElement :: _ => TypeError
  | Record conv :: rest =>
      match convert (stamps k) conv with
      | Ok (Some c) => parseLoop stamps (S k) rest (conversations ++ [c]) console
      | Ok None => parseLoop stamps (S k) rest conversations console
      | TypeError =>
          parseLoop stamps (S k) rest conversations
                    (console ++ [ChatGPTConversation.id conv])
      end
  end.

Definition parseChatGPTExport (stamps : nat -> jsstring)
    (data : list Element)
    : result (list Conversation.t * list (field jsstring)) :=
  parseLoop stamps 0 data [] [].

(** ** [handleFileSelect] *)

Record ImportResult := mkResult
  { success : bool;
    imported : Z;
    skipped : Z;
    errors : list jsstring }.

(** What reading and parsing the file gives: an error with its message
    ([file.text()] or [JSON.parse] threw), a value that is not an array,
    or an array. *)
Inductive FileData :=
| Unreadable (message : jsstring)
| NotAnArray
| IsArray (data : list Element).

(** The result shown, and the new value of [parsedConversations] when
    the handler sets it. [typeError] is the message the engine gives the
    [TypeError] of a property read on [null]; a [TypeError] that leaves
    [parseChatGPTExport] is caught here like any other error. *)
Definition handleFileSelect (stamps : nat -> jsstring) (typeError : jsstring)
    (fileName : jsstring) (file : FileData)
    : ImportResult * option (list Conversation.t) :=
  if negb (Js.endsWith fileName (Js.lit ".json"))
  then (mkResult false 0 0 [Js.lit "JSONファイルを選択してください"], None)
  else
    match file with
    | Unreadable message => (mkResult false 0 0 [message], None)
    | NotAnArray =>
        (mkResult false 0 0 [Js.lit "ChatGPTのエクスポート形式ではありません"], None)
    | IsArray data =>
        match parseChatGPTExport stamps data with
        | Ok (conversations, _) =>
            (mkResult true
               (Z.of_nat (List.length conversations))
               (Z.of_nat (List.length data)
                - Z.of_nat (List.length conversations))
               [],
             Some conversations)
        | TypeError => (mkResult false 0 0 [typeError], None)
        end
    end.

End ImportDialog.

(* ================================================================== *)
(** * More of the JavaScript library: arrays *)
(* ================================================================== *)

Module JsArray.

(** [Array.prototype.sort(compareFn)] is a stable sort. For a comparator
    that is a consistent ordering its result does not depend on the
    engine's algorithm; it is written as an insertion sort that moves an
    element past another only when the comparator is positive. *)
Fixpoint insertBy {A : Type} (compareFn : A -> A -> Z) (x : A) (l : list A)
    : list A :=
  match l with
  | [] => [x]
  | y :: l' => if compareFn x y <=? 0 then x :: l else y :: insertBy compareFn x l'
  end.

Definition sort {A : Type} (compareFn : A -> A -> Z) (l : list A) : list A :=
  fold_right (insertBy compareFn) [] l.

(** [Array.prototype.findIndex]: the index of the first element that
    satisfies [p], or -1. *)
Fixpoint findIndexFrom {A : Type} (p : A -> bool) (i : Z) (l : list A) : Z :=
  match l with
  | [] => -1
  | x :: r => if p x then i else findIndexFrom p (i + 1) r
  end.

Definition findIndex {A : Type} (p : A -> bool) (l : list A) : Z :=
  findIndexFrom p 0 l.

(** [Array.prototype.filter] with a callback that also reads the index. *)
Fixpoint filterFrom {A : Type} (p : A -> Z -> bool) (i : Z) (l : list A)
    : list A :=
  match l with
  | [] => []
  | x :: r =>
      if p x i then x :: filterFrom p (i + 1) r else filterFrom p (i + 1) r
  end.

Definition filterIndexed {A : Type} (p : A -> Z -> bool) (l : list A) : list A :=
  filterFrom p 0 l.

(** The idiom
    [const seen = new Set(); xs.filter(x => { if (seen.has(key x)) return
    false; seen.add(key x); return true; })]: [seen] is the set so far. *)
Fixpoint filterUnseen {A : Type} (key : A -> jsstring) (seen : list jsstring)
    (l : list A) : list A :=
  match l with
  | [] => []
  | x :: r =>
      if existsb (Js.eqb (key x)) seen then filterUnseen key seen r
      else x :: filterUnseen key (key x :: seen) r
  end.

End JsArray.

(* ================================================================== *)
(** * The explorer's document list ([Explorer.tsx]) *)
(* ================================================================== *)

Module Explorer.

(** [interface Document]; [isPinned] and [tags] are optional. *)
Module Document.
Record t := mk
  { id : jsstring;
    title : jsstring;
    isPinned : option bool;
    tags : option (list ConversationTag.t) }.
End Document.

(** [interface Folder] of the explorer. *)
Module Folder.
Record t := mk
  { id : jsstring;
    name : jsstring;
    documents : list Document.t;
    isExpanded : bool }.
End Folder.

(** [doc.isPinned] as a condition. *)
Definition pinned (doc : Document.t) : bool :=
  match Document.isPinned doc with
  | Some true => true
  | _ => false
  end.

(** The comparator of [getSortedDocs]. *)
Definition pinCompare (a b : Document.t) : Z :=
  if pinned a && negb (pinned b) then -1
  else if negb (pinned a) && pinned b then 1
  else 0.

Definition getSortedDocs (docs : list Document.t) : list Document.t :=
  let uniqueDocs := JsArray.filterUnseen Document.id [] docs in
  JsArray.sort pinCompare uniqueDocs.

End Explorer.

(* ================================================================== *)
(** * Values [Home] derives while rendering ([page.tsx]) *)
(* ================================================================== *)

Module HomeView.

(** [folders.flatMap(f => f.conversations).find(c => c.id ===
    activeConversationId)] *)
Definition activeConversation (s : Home.State) : option Conversation.t :=
  find (Home.isActive (Home.activeConversationId s))
       (allConversations (Home.folders s)).

(** [allTags]: every tag of every conversation, kept where it is the
    first of its id. *)
Definition allTags (folders : list Folder.t) : list ConversationTag.t :=
  let self := flat_map Conversation.tags (allConversations folders) in
  JsArray.filterIndexed
    (fun tag index =>
       JsArray.findIndex
         (fun t => Js.eqb (ConversationTag.id t) (ConversationTag.id tag)) self
       =? index)
    self.

(** [explorerFolders] *)
Definition explorerFolders (folders : list Folder.t) : list Explorer.Folder.t :=
  map (fun folder =>
         Explorer.Folder.mk (Folder.id folder) (Folder.name folder)
           (map (fun conv =>
                   Explorer.Document.mk (Conversation.id conv)
                     (if Js.truthy (Conversation.title conv)
                      then Conversation.title conv else Home.placeholderTitle)
                     (Some (Conversation.isPinned conv))
                     (Some (Conversation.tags conv)))
                (Folder.conversations folder))
           (Folder.isExpanded folder))
      folders.

End HomeView.

(* ================================================================== *)
(** * The tag picker ([TagManager.tsx]) *)
(* ================================================================== *)

Module TagManager.

Record ColorClasses := mkColor
  { name : jsstring;
    bg : jsstring;
    text : jsstring;
    border : jsstring }.

Definition TAG_COLORS : list ColorClasses :=
  [ mkColor (Js.lit "gray") (Js.lit "bg-gray-500/20")
      (Js.lit "text-gray-600 dark:text-gray-400") (Js.lit "border-gray-500/30");
    mkColor (Js.lit "red") (Js.lit "bg-red-500/20")
      (Js.lit "text-red-600 dark:text-red-400") (Js.lit "border-red-500/30");
    mkColor (Js.lit "orange") (Js.lit "bg-orange-500/20")
      (Js.lit "text-orange-600 dark:text-orange-400") (Js.lit "border-orange-500/30");
    mkColor (Js.lit "yellow") (Js.lit "bg-yellow-500/20")
      (Js.lit "text-yellow-600 dark:text-yellow-400") (Js.lit "border-yellow-500/30");
    mkColor (Js.lit "green") (Js.lit "bg-green-500/20")
      (Js.lit "text-green-600 dark:text-green-400") (Js.lit "border-green-500/30");
    mkColor (Js.lit "blue") (Js.lit "bg-blue-500/20")
      (Js.lit "text-blue-600 dark:text-blue-400") (Js.lit "border-blue-500/30");
    mkColor (Js.lit "purple") (Js.lit "bg-purple-500/20")
      (Js.lit "text-purple-600 dark:text-purple-400") (Js.lit "border-purple-500/30");
    mkColor (Js.lit "pink") (Js.lit "bg-pink-500/20")
      (Js.lit "text-pink-600 dark:text-pink-400") (Js.lit "border-pink-500/30") ].

(** [availableTags.filter(t => !tags.some(assigned => assigned.id === t.id))] *)
Definition unassignedTags (tags availableTags : list ConversationTag.t)
    : list ConversationTag.t :=
  filter (fun t =>
            negb (existsb (fun assigned =>
                             Js.eqb (ConversationTag.id assigned)
                                    (ConversationTag.id t)) tags))
         availableTags.

(** [TAG_COLORS.find(c => c.name === colorName) || TAG_COLORS[5]] *)
Definition getColorClasses (colorName : jsstring) : option ColorClasses :=
  match find (fun c => Js.eqb (name c) colorName) TAG_COLORS with
  | Some c => Some c
  | None => nth_error TAG_COLORS 5
  end.

(** [handleCreateTag]: the tag handed to [onAddTag], made by
    [onCreateTag] (the page's [handleCreateTag]) at clock reading [now];
    nothing for a blank name. *)
Definition handleCreateTag (now : Z) (newTagName selectedColor : jsstring)
    : option ConversationTag.t :=
  if negb (Js.truthy (Js.trim newTagName)) then None
  else Some (Home.handleCreateTag now (Js.trim newTagName) selectedColor).

End TagManager.

(* ================================================================== *)
(** * The chat panel's form ([ChatPanel.tsx]) *)
(* ================================================================== *)

Module ChatPanel.

(** [handleSubmit]: what it hands to [onSendMessage], if anything, and
    the input field afterwards. *)
Definition handleSubmit (input : jsstring) (isLoading : bool)
    : option jsstring * jsstring :=
  if Js.truthy (Js.trim input) && negb isLoading
  then (Some (Js.trim input), [])
  else (None, input).

End ChatPanel.

(* ================================================================== *)
(** * The model lists ([app/api/models/route.ts], [useAISettings.ts]) *)
(* ================================================================== *)

Module Models.

Record ModelInfo := mkModel
  { id : jsstring;
    name : jsstring }.

(** [String.prototype.replace(pattern, replacement)] with a string
    pattern: the first occurrence only. *)
Fixpoint replaceFirst (pattern replacement s : jsstring) : jsstring :=
  if Js.startsWith s pattern
  then replacement ++ skipn (List.length pattern) s
  else match s with
       | [] => []
       | c :: s' => c :: replaceFirst pattern replacement s'
       end.

(** The class [\w] of a non-unicode regular expression. *)
Definition isWordChar (c : Js.codeunit) : bool :=
  (((48 <=? c) && (c <=? 57)) || ((65 <=? c) && (c <=? 90))
   || ((97 <=? c) && (c <=? 122)) || (c =? 95))%N.

(** [toUpperCase] on one such character. *)
Definition upperWordChar (c : Js.codeunit) : Js.codeunit :=
  if ((97 <=? c) && (c <=? 122))%N then (c - 32)%N else c.

(** [replace(/\b\w/g, c => c.toUpperCase())]: a word character that
    follows the start or a non-word character is upper-cased. *)
Fixpoint capitalizeWords (afterWordChar : bool) (s : jsstring) : jsstring :=
  match s with
  | [] => []
  | c :: s' =>
      (if isWordChar c && negb afterWordChar then upperWordChar c else c)
        :: capitalizeWords (isWordChar c) s'
  end.

Definition formatModelName (id : jsstring) : jsstring :=
  let s1 := replaceFirst (Js.lit "models/") [] id in
  let s2 := map (fun c => if (c =? 45)%N then 32%N else c) s1 in
  let s3 := capitalizeWords false s2 in
  let s4 := replaceFirst (Js.lit "Gpt") (Js.lit "GPT") s3 in
  let s5 := replaceFirst (Js.lit "O1") (Js.lit "o1") s4 in
  replaceFirst (Js.lit "O3") (Js.lit "o3") s5.

(** [fetchOpenAIModels] *)
Definition isChatModel (id : jsstring) : bool :=
  Js.includes id (Js.lit "gpt-4") || Js.includes id (Js.lit "gpt-3.5")
  || Js.includes id (Js.lit "o1") || Js.includes id (Js.lit "o3").

Definition order : list jsstring :=
  [Js.lit "o3"; Js.lit "o1"; Js.lit "gpt-4o"; Js.lit "gpt-4"; Js.lit "gpt-3.5"].

Definition familyIndex (m : ModelInfo) : Z :=
  JsArray.findIndex (fun prefix => Js.includes (id m) prefix) order.

Definition byFamily (a b : ModelInfo) : Z := familyIndex a - familyIndex b.

(** The vendor's answer to the listing request: a status that is not ok,
    or the ids of [data.data]. *)
Inductive Listing :=
| NotOk
| Listed (ids : list jsstring).

(** The listing, or [None] for the [Error] thrown on a status that is not
    ok. *)
Definition fetchOpenAIModels (response : Listing) : option (list ModelInfo) :=
  match response with
  | NotOk => None
  | Listed ids =>
      let chatModels :=
        JsArray.sort byFamily
          (map (fun modelId => mkModel modelId (formatModelName modelId))
               (filter isChatModel ids)) in
      let unique := firstn 15 (JsArray.filterUnseen id [] chatModels) in
      Some unique
  end.

Definition getAnthropicModels : list ModelInfo :=
  [ mkModel (Js.lit "claude-3-5-sonnet-20241022") (Js.lit "Claude 3.5 Sonnet");
    mkModel (Js.lit "claude-3-5-haiku-20241022") (Js.lit "Claude 3.5 Haiku");
    mkModel (Js.lit "claude-3-opus-20240229") (Js.lit "Claude 3 Opus");
    mkModel (Js.lit "claude-3-sonnet-20240229") (Js.lit "Claude 3 Sonnet");
    mkModel (Js.lit "claude-3-haiku-20240307") (Js.lit "Claude 3 Haiku") ].

End Models.

Module UseAISettings.

(** [DEFAULT_MODELS[provider] || []] *)
Definition DEFAULT_MODELS (provider : jsstring) : list Models.ModelInfo :=
  if Js.eqb provider (Js.lit "openai") then
    [ Models.mkModel (Js.lit "gpt-4o") (Js.lit "GPT-4o");
      Models.mkModel (Js.lit "gpt-4o-mini") (Js.lit "GPT-4o Mini");
      Models.mkModel (Js.lit "gpt-4-turbo") (Js.lit "GPT-4 Turbo");
      Models.mkModel (Js.lit "gpt-3.5-turbo") (Js.lit "GPT-3.5 Turbo") ]
  else if Js.eqb provider (Js.lit "anthropic") then
    [ Models.mkModel (Js.lit "claude-3-5-sonnet-20241022") (Js.lit "Claude 3.5 Sonnet");
      Models.mkModel (Js.lit "claude-3-5-haiku-20241022") (Js.lit "Claude 3.5 Haiku");
      Models.mkModel (Js.lit "claude-3-opus-20240229") (Js.lit "Claude 3 Opus") ]
  else if Js.eqb provider (Js.lit "gemini") then
    [ Models.mkModel (Js.lit "gemini-2.0-flash") (Js.lit "Gemini 2.0 Flash");
      Models.mkModel (Js.lit "gemini-1.5-pro") (Js.lit "Gemini 1.5 Pro");
      Models.mkModel (Js.lit "gemini-1.5-flash") (Js.lit "Gemini 1.5 Flash") ]
  else [].

(** How the request to [/api/models] ends for the client: [fetch]
    rejects; a status that is not ok; an ok status whose body does not
    decode; an ok status with a body, whose [models] may be absent. *)
Inductive ModelsOutcome :=
| NetworkError
| StatusNotOk
| BodyRejected
| Body (models : option (list Models.ModelInfo)).

(** [fetchModels]: the list it returns and stores as [availableModels]. *)
Definition fetchModels (provider : jsstring) (outcome : ModelsOutcome)
    : list Models.ModelInfo :=
  match outcome with
  | Body (Some (m :: ms)) => m :: ms
  | _ => DEFAULT_MODELS provider
  end.

(** [setProvider]: the list returned and the settings saved. *)
Definition setProvider (provider apiKey : jsstring) (outcome : ModelsOutcome)
    : list Models.ModelInfo * Api.AISettings :=
  let models := fetchModels provider outcome in
  let defaultModel :=
    match models with
    | m :: _ => if Js.truthy (Models.id m) then Models.id m else []
    | [] => []
    end in
  (models, Api.mkSettings provider apiKey defaultModel).

End UseAISettings.

(** ** The route [app/api/models/route.ts]

    The two listings that go to a vendor are the environment's choice:
    [openai] is the answer to the listing request of [fetchOpenAIModels],
    [gemini] what [fetchGeminiModels] returns, or [None] when it throws. *)
Module ModelsRoute.

Record Request := mkRequest
  { provider : jsstring;
    apiKey : jsstring }.

(** [{ models }] with status 200, or [{ error }] with status 400 / 500. *)
Record Response := mkResponse
  { status : Z;
    models : option (list Models.ModelInfo) }.

Definition POST (openai : Models.Listing)
    (gemini : option (list Models.ModelInfo)) (body : Api.Body Request)
    : Response :=
  match body with
  | Api.Unparseable _ => mkResponse 500 None
  | Api.Parsed req =>
      if negb (Js.truthy (apiKey req)) then mkResponse 400 None
      else if Js.eqb (provider req) (Js.lit "openai") then
        match Models.fetchOpenAIModels openai with
        | Some models => mkResponse 200 (Some models)
        | None => mkResponse 500 None
        end
      else if Js.eqb (provider req) (Js.lit "anthropic") then
        mkResponse 200 (Some Models.getAnthropicModels)
      else if Js.eqb (provider req) (Js.lit "gemini") then
        match gemini with
        | Some models => mkResponse 200 (Some models)
        | None => mkResponse 500 None
        end
      else mkResponse 400 None
  end.

(** The request of [fetchModels] as the client sees it end: the browser
    reaches the route when the connection works ([net = true]). *)
Definition fetch (net : bool) (openai : Models.Listing)
    (gemini : option (list Models.ModelInfo)) (provider apiKey : jsstring)
    : UseAISettings.ModelsOutcome :=
  if net then
    let response := POST openai gemini (Api.Parsed (mkRequest provider apiKey)) in
    if (200 <=? status response) && (status response <=? 299)
    then UseAISettings.Body (models response)
    else UseAISettings.StatusNotOk
  else UseAISettings.NetworkError.

End ModelsRoute.

(* ================================================================== *)
(** * The settings dialog ([SettingsDialog.tsx]) *)
(* ================================================================== *)

Module SettingsDialog.

Inductive ValidationStatus := idle | valid | invalid.

(** The dialog's own state, as far as these handlers use it. *)
Record Form := mkForm
  { provider : jsstring;
    apiKey : jsstring;
    model : jsstring;
    localModels : list Models.ModelInfo;
    validationStatus : ValidationStatus }.

(** [handleProviderChange]; [defaultModels] is the hook's
    [DEFAULT_MODELS]. *)
Definition handleProviderChange (newProvider : jsstring) (f : Form) : Form :=
  let defaults := UseAISettings.DEFAULT_MODELS newProvider in
  mkForm newProvider (apiKey f)
    (match defaults with
     | m :: _ => Models.id m
     | [] => []
     end)
    defaults idle.


(** [handleSave]: the settings handed to [onSave], the hook's
    [saveSettings], if any. *)
Definition handleSave (f : Form) : option Api.AISettings :=
  if Js.truthy (Js.trim (apiKey f)) && Js.truthy (model f)
  then Some (Api.mkSettings (provider f) (Js.trim (apiKey f)) (model f))
  else None.

End SettingsDialog.

(* ================================================================== *)
(** * Vocabulary of the statements *)
(* ================================================================== *)

(** Two collections have the same folders, each with as many
    conversations as before. *)
Definition sameShape (a b : list Folder.t) : Prop :=
  Forall2 (fun f g =>
             Folder.id g = Folder.id f /\ Folder.name g = Folder.name f
             /\ Folder.isExpanded g = Folder.isExpanded f
             /\ List.length (Folder.conversations g)
                = List.length (Folder.conversations f)) a b.

(** [after] is [before] with [change] applied to the conversations whose
    id is [convId], every other conversation and every folder being as
    before. *)
Definition updatesAt (convId : jsstring)
    (change : Conversation.t -> Conversation.t)
    (before after : list Folder.t) : Prop :=
  sameShape before after
  /\ Forall2 (fun c c' =>
                c' = if Js.eqb (Conversation.id c) convId then change c else c)
             (allConversations before) (allConversations after).

(** [l] without the conversations whose id is [convId]. *)
Definition without (convId : jsstring) (l : list Conversation.t)
    : list Conversation.t :=
  filter (fun c => negb (Js.eqb (Conversation.id c) convId)) l.

(** A folder after [conv] has been taken out of the collection and put
    at the front of the folders named [targetFolderId]. *)
Definition relocate (convId targetFolderId : jsstring) (conv : Conversation.t)
    (folder : Folder.t) : Folder.t :=
  Folder.with_conversations
    ((if Js.eqb (Folder.id folder) targetFolderId then [conv] else [])
       ++ without convId (Folder.conversations folder)) folder.

(** Concrete data for the examples. *)
Definition sample_conversation (convId : jsstring) (pinned : bool) (at_ : Date)
    : Conversation.t :=
  Conversation.mk convId (Js.lit "t") [] (Js.lit "doc") [] pinned at_ at_.

(** A collection with one folder holding the conversations ["a"] and
    ["b"], ["a"] selected; and a reply of the chat route. *)
Definition race_s0 : Home.State :=
  Home.mkState
    [ Folder.mk (Js.lit "f") (Js.lit "F")
        [ sample_conversation (Js.lit "a") false 1;
          sample_conversation (Js.lit "b") false 2 ] true ]
    (Some (Js.lit "a")) false.

(** A collection in which two conversations have the id ["a"], as
    after importing the same export twice: the first without messages, the
    second with one; ["a"] is selected. *)
Definition old_message : Message.t :=
  Message.mk (Js.lit "m0") user (Js.lit "old") 0.

Definition twin_s0 : Home.State :=
  Home.mkState
    [ Folder.mk (Js.lit "f") (Js.lit "F")
        [ sample_conversation (Js.lit "a") false 1 ] true;
      Folder.mk (Js.lit "g") (Js.lit "G")
        [ Conversation.mk (Js.lit "a") (Js.lit "t") [old_message] (Js.lit "doc")
                          [] false 2 2 ] true ]
    (Some (Js.lit "a")) false.

Definition race_reply : Api.Chat.Response :=
  Api.Chat.mkResponse 200 (Js.lit "yo") true (Js.lit "demo") None.

(** Settings with a key, a vendor that answers and one that throws. *)
Definition openai_settings : Api.AISettings :=
  Api.mkSettings (Js.lit "openai") (Js.lit "k") (Js.lit "m").

Definition answering : Api.Oracle := fun _ => Api.Returned (Js.lit "yo").

Definition failing : Api.Oracle := fun _ => Api.Threw (Js.lit "boom").

(** The messages of the conversations, by id, and their documents. *)
Definition contentsById (folders : list Folder.t)
    : list (jsstring * list jsstring) :=
  map (fun c => (Conversation.id c,
                 map Message.content (Conversation.messages c)))
      (allConversations folders).

Definition documentsById (folders : list Folder.t) : list (jsstring * jsstring) :=
  map (fun c => (Conversation.id c, Conversation.documentContent c))
      (allConversations folders).

(** ** The import, in the words of its description

    The nodes are ordered by origin timestamp, ascending, ties in the
    order of encounter: [sorted] is a rearrangement of [l], ascending in the
    sort key, in which the nodes of any one key follow each other as they
    do in [l]. *)
Definition keyLe (a b : ImportDialog.Node.t) : Prop :=
  (ImportDialog.sortKey a <= ImportDialog.sortKey b)%Q.



(** The message a node contributes: its role is user or assistant, its
    parts joined by line feeds and trimmed are not empty. *)
Definition emitted (node : ImportDialog.Node.t) : list ImportDialog.Message.t :=
  match ImportDialog.Node.message node with
  | ImportDialog.Has msg =>
      match ImportDialog.ChatGPTMessage.author msg,
            ImportDialog.ChatGPTMessage.content msg with
      | ImportDialog.Has a, ImportDialog.Has c =>
          match ImportDialog.keptRole (ImportDialog.Author.role a),
                ImportDialog.Content.parts c with
          | Some role, ImportDialog.Has ps =>
              let content := Js.trim (Js.join [Js.LF] ps) in
              if Js.truthy content
              then [ImportDialog.Message.mk
                      (ImportDialog.ChatGPTMessage.id msg) role content
                      (ImportDialog.newDate
                         (ImportDialog.times1000
                            (ImportDialog.ChatGPTMessage.create_time msg)))]
              else []
          | _, _ => []
          end
      | _, _ => []
      end
  | _ => []
  end.

(** A node whose message names its author. *)
Definition namesAuthor (node : ImportDialog.Node.t) : bool :=
  match ImportDialog.Node.message node with
  | ImportDialog.Has msg =>
      match ImportDialog.ChatGPTMessage.author msg with
      | ImportDialog.Has _ => true
      | _ => false
      end
  | _ => false
  end.

(** A node that ends up as a message. *)
Definition contributes (node : ImportDialog.Node.t) : bool :=
  match emitted node with
  | [] => false
  | _ => true
  end.

(** The conversation the parser builds from a record and its messages. *)
Definition conversationOf (stamp : jsstring)
    (conv : ImportDialog.ChatGPTConversation.t)
    (messages : list ImportDialog.Message.t) : ImportDialog.Conversation.t :=
  ImportDialog.Conversation.mk
    (Js.lit "imported-"
       ++ ImportDialog.display (ImportDialog.ChatGPTConversation.id conv))
    (ImportDialog.orElse (ImportDialog.ChatGPTConversation.title conv)
                         ImportDialog.untitled)
    messages
    (ImportDialog.generateDocumentContent stamp messages
       (ImportDialog.ChatGPTConversation.title conv))
    [] false
    (ImportDialog.newDate
       (ImportDialog.times1000 (ImportDialog.ChatGPTConversation.create_time conv)))
    (ImportDialog.newDate
       (ImportDialog.times1000 (ImportDialog.ChatGPTConversation.update_time conv))).

(** A record is malformed when converting it throws, and without
    messages when it converts to nothing. Neither depends on the clock
    text, which only goes into the document. *)
Definition malformed (conv : ImportDialog.ChatGPTConversation.t) : bool :=
  match ImportDialog.convert [] conv with
  | ImportDialog.TypeError => true
  | ImportDialog.Ok _ => false
  end.

Definition withoutMessages (conv : ImportDialog.ChatGPTConversation.t) : bool :=
  match ImportDialog.convert [] conv with
  | ImportDialog.Ok None => true
  | _ => false
  end.

(** The conversations of the records that convert, record number [k]
    onwards, in order. *)
Fixpoint importedFrom (stamps : nat -> jsstring) (k : nat)
    (data : list ImportDialog.ChatGPTConversation.t)
    : list ImportDialog.Conversation.t :=
  match data with
  | [] => []
  | conv :: rest =>
      match ImportDialog.convert (stamps k) conv with
      | ImportDialog.Ok (Some c) => c :: importedFrom stamps (S k) rest
      | _ => importedFrom stamps (S k) rest
      end
  end.

(** A one-message request of the chat route without settings. *)
Definition asks (text : string) : Api.Chat.Request :=
  Api.Chat.mkRequest [Api.mkChatMessage (Js.lit "user") (Js.lit text)] None.

(** Whether a summary request is among the effects. *)
Definition hasSummarize (effects : list Home.Effect) : bool :=
  existsb (fun e => match e with Home.FetchSummarize _ => true | _ => false end)
          effects.

(** The value of the variable [conversation] of [handleConversationMove]
    after the first pass. *)
Definition lastFound (convId : jsstring) (prev : list Folder.t)
    (init : option Conversation.t) : option Conversation.t :=
  fold_left
    (fun acc folder =>
       match find (fun c => Js.eqb (Conversation.id c) convId)
                  (Folder.conversations folder) with
       | Some c => Some c
       | None => acc
       end) prev init.

(** Records of an export file. *)
Definition sample_node (key : string) (role : string) (parts : list string)
    (time : Q) : jsstring * ImportDialog.Node.t :=
  (Js.lit key,
   ImportDialog.Node.mk (ImportDialog.Has (Js.lit key))
     (ImportDialog.Has
        (ImportDialog.ChatGPTMessage.mk (ImportDialog.Has (Js.lit key))
           (ImportDialog.Has (ImportDialog.Author.mk (ImportDialog.Has (Js.lit role))))
           (ImportDialog.Has
              (ImportDialog.Content.mk (ImportDialog.Has (map Js.lit parts))))
           (ImportDialog.Has time)))
     ImportDialog.Missing (ImportDialog.Has [])).

Definition good_record : ImportDialog.ChatGPTConversation.t :=
  ImportDialog.ChatGPTConversation.mk
    (ImportDialog.Has (Js.lit "c1")) (ImportDialog.Has (Js.lit "T"))
    (ImportDialog.Has 1%Q) (ImportDialog.Has 2%Q)
    (ImportDialog.Has
       [ sample_node "n1" "user" ["c"%string] 3;
         sample_node "n2" "assistant" ["a"%string] 1;
         sample_node "n3" "system" ["s"%string] 2;
         sample_node "n4" "user" ["x"%string; " y "%string] 2 ]).


(** A record without its [mapping]. *)
Definition bad_record : ImportDialog.ChatGPTConversation.t :=
  ImportDialog.ChatGPTConversation.mk
    (ImportDialog.Has (Js.lit "c0")) (ImportDialog.Has (Js.lit "B"))
    (ImportDialog.Has 1%Q) (ImportDialog.Has 2%Q)
    ImportDialog.Missing.

Definition clock_text : nat -> jsstring := fun _ => Js.lit "2024/1/1 0:00:00".

(** The selection names nothing, or a conversation of the collection. *)
Definition validSelection (s : Home.State) : Prop :=
  match Home.activeConversationId s with
  | None => True
  | Some a => In a (map Conversation.id (allConversations (Home.folders s)))
  end.

(** The time values of the messages whose timestamp is a valid date,
    in the order of the messages. *)
Definition validTimes (messages : list ImportDialog.Message.t) : list Z :=
  flat_map (fun m => match ImportDialog.Message.timestamp m with
                     | Some t => [t]
                     | None => []
                     end) messages.

(** Whether a title request is among the effects. *)
Definition hasTitleRequest (effects : list Home.Effect) : bool :=
  existsb (fun e => match e with Home.FetchTitle _ => true | _ => false end)
          effects.

(* ================================================================== *)
(** * Properties *)
(* ================================================================== *)

(** ** Strings *)

Lemma eqb_eq (s t : jsstring) : Js.eqb s t = true <-> s = t.
Proof.
  revert t; induction s as [|a s IH]; intros [|b t]; simpl; split;
    try congruence; try reflexivity.
  - intros H. apply andb_true_iff in H. destruct H as [H1 H2].
    apply N.eqb_eq in H1. apply IH in H2. congruence.
  - intros H. injection H as -> ->. rewrite N.eqb_refl. simpl. now apply IH.
Qed.

Lemma eqb_refl (s : jsstring) : Js.eqb s s = true.
Proof. now apply eqb_eq. Qed.

Lemma eqb_neq (s t : jsstring) : Js.eqb s t = false <-> s <> t.
Proof.
  split.
  - intros H E. apply eqb_eq in E. congruence.
  - intros H. destruct (Js.eqb s t) eqn:E; [apply eqb_eq in E; contradiction | reflexivity].
Qed.

Lemma eqb_sym (s t : jsstring) : Js.eqb s t = Js.eqb t s.
Proof.
  destruct (Js.eqb s t) eqn:E.
  - apply eqb_eq in E. subst. symmetry. apply eqb_refl.
  - symmetry. apply eqb_neq. apply eqb_neq in E. congruence.
Qed.

(** ** Numbers *)

Section DoubleFacts.
Local Open Scope Q_scope.

Lemma nearestEven_bounds q :
  (Qfloor q <= Double.nearestEven q <= Qfloor q + 1)%Z.
Proof.
  unfold Double.nearestEven.
  destruct (Qcompare _ _); [destruct (Z.even _)| |]; lia.
Qed.

Lemma nearestEven_mono x y : x <= y -> (Double.nearestEven x <= Double.nearestEven y)%Z.
Proof.
  intros H. pose proof (Qfloor_resp_le _ _ H) as F.
  pose proof (nearestEven_bounds x) as Bx. pose proof (nearestEven_bounds y) as By.
  destruct (Z.eq_dec (Qfloor x) (Qfloor y)) as [E|N]; [|lia].
  unfold Double.nearestEven in *. rewrite <- E in *.
  assert (D : x - inject_Z (Qfloor x) <= y - inject_Z (Qfloor x)).
  { apply Qplus_le_l. now ring_simplify. }
  destruct (Qcompare_spec (x - inject_Z (Qfloor x)) (1 # 2)) as [Ex|Lx|Gx];
    destruct (Qcompare_spec (y - inject_Z (Qfloor x)) (1 # 2)) as [Ey|Ly|Gy];
    try (match goal with |- context [Z.even ?a] => destruct (Z.even a) end);
    try lia; exfalso.
  - rewrite Ex in D. apply (Qlt_irrefl (1#2)). eapply Qle_lt_trans; eassumption.
  - rewrite Ey in D. apply (Qlt_irrefl (1#2)). eapply Qlt_le_trans; eassumption.
  - apply (Qlt_irrefl (1#2)).
    eapply Qlt_trans; [exact Gx|]. eapply Qle_lt_trans; eassumption.
Qed.

Lemma nearestEven_Z n : Double.nearestEven (inject_Z n) = n.
Proof.
  unfold Double.nearestEven. rewrite Qfloor_Z.
  assert (E : inject_Z n - inject_Z n == 0) by ring.
  rewrite E. reflexivity.
Qed.

Lemma pow2_pos k : 0 < 2 ^ k.
Proof. apply Qpower_0_lt. reflexivity. Qed.

Lemma pow2_plus a b : 2 ^ (a + b) == 2 ^ a * 2 ^ b.
Proof. apply Qpower_plus. discriminate. Qed.

Lemma pow2_le a b : (a <= b)%Z -> 2 ^ a <= 2 ^ b.
Proof. intros H. apply Qpower_le_compat_l; [assumption | discriminate]. Qed.

Lemma pow2_Z k : (0 <= k)%Z -> inject_Z (2 ^ k) == 2 ^ k.
Proof. intros H. now rewrite Zpower_Qpower. Qed.


Lemma binade_rough x : 0 < x ->
  let e0 := (Z.log2 (Qnum x) - Z.log2 (Zpos (Qden x)))%Z in
  2 ^ (e0 - 1) < x /\ x < 2 ^ (e0 + 1).
Proof.
  destruct x as [n d]. unfold Qlt at 1. simpl. intros Hn. rewrite Z.mul_1_r in Hn.
  pose proof (Z.log2_spec n Hn) as [N1 N2].
  pose proof (Z.log2_spec (Zpos d) eq_refl) as [D1 D2].
  pose proof (Z.log2_nonneg n) as Ln. pose proof (Z.log2_nonneg (Zpos d)) as Ld.
  set (ln := Z.log2 n) in *. set (ld := Z.log2 (Zpos d)) in *.
  assert (Qn1 : 2 ^ ln <= inject_Z n).
  { rewrite <- pow2_Z by assumption. now rewrite <- Zle_Qle. }
  assert (Qn2 : inject_Z n < 2 ^ (ln + 1)).
  { rewrite <- pow2_Z by lia. rewrite <- Zlt_Qlt. now rewrite <- Z.add_1_r in N2. }
  assert (Qd1 : 2 ^ ld <= inject_Z (Zpos d)).
  { rewrite <- pow2_Z by assumption. now rewrite <- Zle_Qle. }
  assert (Qd2 : inject_Z (Zpos d) < 2 ^ (ld + 1)).
  { rewrite <- pow2_Z by lia. rewrite <- Zlt_Qlt. now rewrite <- Z.add_1_r in D2. }
  assert (Dpos : 0 < inject_Z (Zpos d)) by reflexivity.
  rewrite (Qmake_Qdiv n d). split.
  - apply Qlt_shift_div_l; [assumption|].
    eapply Qlt_le_trans; [|exact Qn1].
    assert (E : 2 ^ ln == 2 ^ (ln - ld - 1) * 2 ^ (ld + 1)).
    { rewrite <- pow2_plus. apply Qpower_comp; [reflexivity | lia]. }
    rewrite E. apply Qmult_lt_l; [apply pow2_pos | assumption].
  - apply Qlt_shift_div_r; [assumption|].
    eapply Qlt_le_trans; [exact Qn2|].
    assert (E : 2 ^ (ln + 1) == 2 ^ (ln - ld + 1) * 2 ^ ld).
    { rewrite <- pow2_plus. apply Qpower_comp; [reflexivity | lia]. }
    rewrite E. apply Qmult_le_l; [apply pow2_pos | assumption].
Qed.

Lemma binade_spec x : 0 < x ->
  2 ^ Double.binade x <= x /\ x < 2 ^ (Double.binade x + 1).
Proof.
  intros H. destruct (binade_rough x H) as [L U]. unfold Double.binade.
  destruct (Qle_bool _ x) eqn:B.
  - apply Qle_bool_iff in B. split; assumption.
  - split.
    + apply Qlt_le_weak.
      exact L.
    + replace (Z.log2 (Qnum x) - Z.log2 (Z.pos (Qden x)) - 1 + 1)%Z
        with (Z.log2 (Qnum x) - Z.log2 (Z.pos (Qden x)))%Z by lia.
      apply Qnot_le_lt. intros C. apply Qle_bool_iff in C. congruence.
Qed.

Lemma binade_unique x e : 2 ^ e <= x -> x < 2 ^ (e + 1) -> Double.binade x = e.
Proof.
  intros L U.
  assert (P : 0 < x) by (eapply Qlt_le_trans; [apply (pow2_pos e) | exact L]).
  destruct (binade_spec x P) as [L' U'].
  assert (A : (Double.binade x < e + 1)%Z).
  { apply (Qpower_lt_compat_l_inv 2); [|reflexivity].
    eapply Qle_lt_trans; eassumption. }
  assert (B : (e < Double.binade x + 1)%Z).
  { apply (Qpower_lt_compat_l_inv 2); [|reflexivity].
    eapply Qle_lt_trans; eassumption. }
  lia.
Qed.

Lemma binade_mono x y : 0 < x -> x <= y -> (Double.binade x <= Double.binade y)%Z.
Proof.
  intros P H.
  assert (Py : 0 < y) by (eapply Qlt_le_trans; eassumption).
  destruct (binade_spec x P) as [L _]. destruct (binade_spec y Py) as [_ U].
  assert (A : (Double.binade x < Double.binade y + 1)%Z).
  { apply (Qpower_lt_compat_l_inv 2); [|reflexivity].
    eapply Qle_lt_trans; [exact L|]. eapply Qle_lt_trans; eassumption. }
  lia.
Qed.


Lemma scaled_le x y k : x <= y -> x * 2 ^ k <= y * 2 ^ k.
Proof. intros H. apply Qmult_le_compat_r; [assumption|]. apply Qlt_le_weak, pow2_pos. Qed.

Lemma grid_le a b k : (a <= b)%Z -> inject_Z a * 2 ^ k <= inject_Z b * 2 ^ k.
Proof. intros H. apply scaled_le. now rewrite <- Zle_Qle. Qed.

Lemma roundPos_nonneg x : 0 <= x -> 0 <= Double.roundPos x.
Proof.
  intros H. unfold Double.roundPos.
  destruct (Qle_bool _ _); [apply Qlt_le_weak, pow2_pos|].
  apply Qmult_le_0_compat; [|apply Qlt_le_weak, pow2_pos].
  change 0 with (inject_Z 0). rewrite <- Zle_Qle.
  pose proof (nearestEven_bounds (x * 2 ^ (52 - Z.max (Double.binade x) (-1022)))) as B.
  assert (0 <= Qfloor (x * 2 ^ (52 - Z.max (Double.binade x) (-1022))))%Z; [|lia].
  rewrite <- (Qfloor_Z 0). apply Qfloor_resp_le.
  apply Qmult_le_0_compat; [assumption|]. apply Qlt_le_weak, pow2_pos.
Qed.

(** The value before the test for overflow lies in the closed binade. *)
Lemma grid_upper x e : 0 < x -> (Double.binade x <= e)%Z ->
  inject_Z (Double.nearestEven (x * 2 ^ (52 - e))) * 2 ^ (e - 52) <= 2 ^ (e + 1).
Proof.
  intros P H. destruct (binade_spec x P) as [_ U].
  assert (S : x * 2 ^ (52 - e) <= inject_Z (2 ^ 53)).
  { rewrite pow2_Z by lia.
    assert (E : 2 ^ 53 == 2 ^ (e + 1) * 2 ^ (52 - e)).
    { rewrite <- pow2_plus. apply Qpower_comp; [reflexivity | lia]. }
    rewrite E. apply scaled_le. apply Qlt_le_weak.
    eapply Qlt_le_trans; [exact U|]. apply pow2_le. lia. }
  apply nearestEven_mono in S. rewrite nearestEven_Z in S.
  eapply Qle_trans; [apply grid_le, S|].
  rewrite pow2_Z by lia. rewrite <- pow2_plus.
  apply pow2_le. lia.
Qed.

Lemma grid_lower x : 0 < x ->
  2 ^ Double.binade x
  <= inject_Z (Double.nearestEven (x * 2 ^ (52 - Double.binade x)))
     * 2 ^ (Double.binade x - 52).
Proof.
  intros P. destruct (binade_spec x P) as [L _]. set (e := Double.binade x) in *.
  assert (S : inject_Z (2 ^ 52) <= x * 2 ^ (52 - e)).
  { rewrite pow2_Z by lia.
    assert (E : 2 ^ 52 == 2 ^ e * 2 ^ (52 - e)).
    { rewrite <- pow2_plus. apply Qpower_comp; [reflexivity | lia]. }
    rewrite E. now apply scaled_le. }
  apply nearestEven_mono in S. rewrite nearestEven_Z in S.
  eapply Qle_trans; [|apply grid_le, S].
  rewrite pow2_Z by lia. rewrite <- pow2_plus.
  apply pow2_le. lia.
Qed.

Lemma clamp_mono r r' : r <= r' ->
  (if Qle_bool Double.infinity r then Double.infinity else r)
  <= (if Qle_bool Double.infinity r' then Double.infinity else r').
Proof.
  intros H.
  destruct (Qle_bool Double.infinity r) eqn:A;
    destruct (Qle_bool Double.infinity r') eqn:B.
  - apply Qle_refl.
  - apply Qle_bool_iff in A. exfalso.
    assert (C : Qle_bool Double.infinity r' = true)
      by (apply Qle_bool_iff; eapply Qle_trans; eassumption).
    congruence.
  - apply Qlt_le_weak, Qnot_le_lt. intros C. apply Qle_bool_iff in C. congruence.
  - assumption.
Qed.

Lemma roundPos_mono x y : 0 < x -> x <= y -> Double.roundPos x <= Double.roundPos y.
Proof.
  intros P H.
  assert (Py : 0 < y) by (eapply Qlt_le_trans; eassumption).
  pose proof (binade_mono x y P H) as B.
  unfold Double.roundPos. apply clamp_mono.
  set (ex := Z.max (Double.binade x) (-1022)).
  set (ey := Z.max (Double.binade y) (-1022)).
  destruct (Z.eq_dec ex ey) as [E|N].
  - rewrite E. apply grid_le, nearestEven_mono, scaled_le, H.
  - assert (Hlt : (ex < ey)%Z) by (unfold ex, ey in *; lia).
    assert (Hy : ey = Double.binade y) by (unfold ex, ey in *; lia).
    eapply Qle_trans; [apply (grid_upper x ex P); unfold ex; lia|].
    eapply Qle_trans; [apply (pow2_le (ex + 1) ey); lia|].
    rewrite Hy. now apply grid_lower.
Qed.

Lemma round_mono x y : x <= y -> Double.round x <= Double.round y.
Proof.
  intros H. unfold Double.round.
  destruct (Qcompare_spec x 0) as [Ex|Lx|Gx];
    destruct (Qcompare_spec y 0) as [Ey|Ly|Gy].
  - apply Qle_refl.
  - exfalso. rewrite Ex in H. apply (Qlt_irrefl 0). eapply Qle_lt_trans; eassumption.
  - apply roundPos_nonneg. now apply Qlt_le_weak.
  - rewrite <- (Qopp_involutive 0). apply Qopp_le_compat.
    apply roundPos_nonneg. change 0 with (- 0). apply Qopp_le_compat.
    now apply Qlt_le_weak.
  - apply Qopp_le_compat. apply roundPos_mono.
    + change 0 with (- 0). now apply Qopp_lt_compat.
    + now apply Qopp_le_compat.
  - apply Qle_trans with 0.
    + rewrite <- (Qopp_involutive 0). apply Qopp_le_compat.
      apply roundPos_nonneg. change 0 with (- 0). apply Qopp_le_compat.
      now apply Qlt_le_weak.
    + apply roundPos_nonneg. now apply Qlt_le_weak.
  - exfalso. rewrite Ey in H. apply (Qlt_irrefl 0). eapply Qlt_le_trans; eassumption.
  - exfalso. apply (Qlt_irrefl 0).
    eapply Qlt_le_trans; [exact Gx|]. eapply Qle_trans; [exact H|].
    now apply Qlt_le_weak.
  - now apply roundPos_mono.
Qed.

Lemma round_comp x y : x == y -> Double.round x == Double.round y.
Proof.
  intros E. apply Qle_antisym; apply round_mono; rewrite E; apply Qle_refl.
Qed.


(** A double below 1 is at most the largest double below 1. *)
Lemma double_below_one r :
  r < 1 -> Double.round r == r -> r <= 1 - 2 ^ (-53).
Proof.
  intros H1 D.
  destruct (Qlt_le_dec r (1 # 2)) as [S|L].
  { apply Qlt_le_weak. eapply Qlt_le_trans; [exact S|]. vm_compute. discriminate. }
  assert (P : 0 < r) by (eapply Qlt_le_trans; [|exact L]; reflexivity).
  assert (B : Double.binade r = (-1)%Z) by (apply binade_unique; assumption).
  unfold Double.round in D.
  destruct (Qcompare_spec r 0) as [E|Lt0|_].
  - rewrite E in P. discriminate.
  - exfalso. apply (Qlt_irrefl 0). eapply Qlt_trans; eassumption.
  - unfold Double.roundPos in D. rewrite B in D.
    change (Z.max (-1) (-1022)) with (-1)%Z in D.
    change (52 - -1)%Z with 53%Z in D. change (-1 - 52)%Z with (-53)%Z in D.
    set (N := Double.nearestEven (r * 2 ^ 53)) in *.
    destruct (Qle_bool Double.infinity _) eqn:C.
    + exfalso. rewrite <- D in H1. vm_compute in H1. discriminate.
    + assert (HN : (N < 2 ^ 53)%Z).
      { rewrite Zlt_Qlt. rewrite <- D in H1.
        assert (E : inject_Z N == inject_Z N * 2 ^ (-53) * 2 ^ 53).
        { rewrite <- Qmult_assoc, <- pow2_plus. change (2 ^ (-53 + 53)) with 1. ring. }
        rewrite E. rewrite <- (Qmult_1_l (inject_Z (2 ^ 53))).
        apply Qmult_lt_compat_r; [reflexivity | exact H1]. }
      rewrite <- D.
      assert (E : 1 - 2 ^ (-53) == inject_Z (2 ^ 53 - 1) * 2 ^ (-53)).
      { vm_compute. reflexivity. }
      rewrite E. apply grid_le. lia.
Qed.

Lemma mul_nonneg x y : 0 <= x -> 0 <= y -> 0 <= Double.mul x y.
Proof.
  intros Hx Hy. unfold Double.mul.
  change 0 with (Double.round 0) at 1. apply round_mono.
  apply Qmult_le_0_compat.
  - change 0 with (Double.round 0). now apply round_mono.
  - change 0 with (Double.round 0). now apply round_mono.
Qed.

Lemma mul_mono_l x x' y : 0 <= y -> x <= x' -> Double.mul x y <= Double.mul x' y.
Proof.
  intros Hy H. unfold Double.mul. apply round_mono.
  apply Qmult_le_compat_r; [now apply round_mono|].
  change 0 with (Double.round 0). now apply round_mono.
Qed.

Lemma random_times_five r :
  0 <= r -> r < 1 -> Double.round r == r ->
  (0 <= Qfloor (Double.mul r 5) <= 4)%Z.
Proof.
  intros H0 H1 D. split.
  - rewrite <- (Qfloor_Z 0). apply Qfloor_resp_le.
    apply mul_nonneg; [assumption | discriminate].
  - pose proof (double_below_one r H1 D) as U.
    apply (mul_mono_l _ _ 5) in U; [|discriminate].
    apply Qfloor_resp_le in U.
    eapply Z.le_trans; [exact U|]. vm_compute. discriminate.
Qed.

End DoubleFacts.

Ltac eqb_cases :=
  repeat match goal with
  | |- context [Js.eqb ?a ?b] =>
      let E := fresh "E" in
      destruct (Js.eqb a b) eqn:E;
      [apply eqb_eq in E | apply eqb_neq in E]
  end.

(** ** Folders and the conversations inside them *)

Lemma with_conversations_same (f : Folder.t) :
  Folder.with_conversations (Folder.conversations f) f = f.
Proof. now destruct f. Qed.

Lemma allConversations_cons folder rest :
  allConversations (folder :: rest)
  = Folder.conversations folder ++ allConversations rest.
Proof. reflexivity. Qed.

Lemma allConversations_mapConversations f prev :
  allConversations (Home.mapConversations f prev) = map f (allConversations prev).
Proof.
  unfold allConversations, Home.mapConversations.
  induction prev as [|folder prev IH]; simpl; [reflexivity|].
  now rewrite map_app, IH.
Qed.

Lemma mapConversations_sameShape f prev :
  sameShape prev (Home.mapConversations f prev).
Proof.
  unfold sameShape, Home.mapConversations.
  induction prev as [|folder prev IH]; simpl; constructor; auto.
  simpl. now rewrite length_map.
Qed.

Lemma Forall2_map_r (A B : Type) (f : A -> B) (l : list A) :
  Forall2 (fun a b => b = f a) l (map f l).
Proof. induction l; simpl; constructor; auto. Qed.

(** Every updater of the shape [mapConversations f] relates the
    conversations before and after position by position. *)
Lemma mapConversations_pointwise f prev :
  Forall2 (fun c c' => c' = f c)
          (allConversations prev)
          (allConversations (Home.mapConversations f prev)).
Proof. rewrite allConversations_mapConversations. apply Forall2_map_r. Qed.

(** ** Deleting folders *)


Lemma deleteFolder_keeps_other folderId active prev f :
  In f prev -> Folder.id f <> folderId ->
  In f (fst (Home.deleteFolder active folderId prev)).
Proof.
  intros Hin Hne. unfold Home.deleteFolder.
  destruct (List.length prev <=? 1)%nat; simpl; [assumption|].
  apply filter_In. split; [assumption|].
  apply negb_true_iff. now apply eqb_neq.
Qed.

(** With pairwise distinct folder ids a deletion removes at most one
    folder, and never the last one. *)
Lemma deleteFolder_nonempty_if_distinct folderId active prev :
  NoDup (map Folder.id prev) -> prev <> [] ->
  fst (Home.deleteFolder active folderId prev) <> [].
Proof.
  intros Hnd Hne. unfold Home.deleteFolder.
  destruct (List.length prev <=? 1)%nat eqn:L; simpl; [assumption|].
  apply Nat.leb_gt in L.
  destruct prev as [|f [|g rest]]; simpl in L; try lia.
  inversion Hnd as [|x l Hnotin _]; subst.
  assert (Hfg : Folder.id f <> Folder.id g) by (intros E; apply Hnotin; left; auto).
  destruct (Js.eqb (Folder.id f) folderId) eqn:Ef.
  - apply eqb_eq in Ef.
    assert (Hg : In g (filter (fun f0 => negb (Js.eqb (Folder.id f0) folderId)) (f :: g :: rest))).
    { apply filter_In. split; [right; left; reflexivity|].
      apply negb_true_iff, eqb_neq. congruence. }
    intros E. rewrite E in Hg. contradiction.
  - simpl. rewrite Ef. simpl. discriminate.
Qed.

(** C6. The guard of [handleFolderDelete] counts folders, while the
    removal goes by id: two folders created at the same clock reading share
    their id, and deleting that id from a collection that holds only those
    two leaves no folder at all. The run: from the initial state, create
    two folders at clock reading 5, delete the initial folder, delete
    ["folder-5"]. *)
Theorem folder_delete_can_empty_the_collection :
  let s1 := Home.handleFolderCreate 5 Home.initialState in
  let s2 := Home.handleFolderCreate 5 s1 in
  let s3 := Home.handleFolderDelete (Js.lit "folder-1") s2 in
  let s4 := Home.handleFolderDelete (Js.lit "folder-5") s3 in
  map Folder.id (Home.folders s2)
    = [Js.lit "folder-1"; Js.lit "folder-5"; Js.lit "folder-5"]
  /\ map Folder.id (Home.folders s3) = [Js.lit "folder-5"; Js.lit "folder-5"]
  /\ Home.folders s4 = [].
Proof. repeat split; reflexivity. Qed.

(** ** Creating conversations *)

Lemma existsb_id_true (convId : jsstring) (l : list Conversation.t) :
  existsb (fun c => Js.eqb (Conversation.id c) convId) l = true
  <-> exists c, In c l /\ Conversation.id c = convId.
Proof.
  rewrite existsb_exists. split; intros [c [Hin H]]; exists c; split; auto;
    now apply eqb_eq.
Qed.

Lemma insertIntoFirstFolder_rejects newConv first rest c :
  In c (Folder.conversations first) ->
  Conversation.id c = Conversation.id newConv ->
  Home.insertIntoFirstFolder newConv (first :: rest) = Some (first :: rest).
Proof.
  intros Hin Hid. unfold Home.insertIntoFirstFolder.
  replace (existsb _ _) with true; [reflexivity|].
  symmetry. apply existsb_id_true. eauto.
Qed.

Lemma insertIntoFirstFolder_inserts newConv first rest :
  (forall c, In c (Folder.conversations first) ->
             Conversation.id c <> Conversation.id newConv) ->
  Home.insertIntoFirstFolder newConv (first :: rest)
  = Some (Folder.with_conversations (newConv :: Folder.conversations first) first
            :: rest).
Proof.
  intros H. unfold Home.insertIntoFirstFolder.
  destruct (existsb _ _) eqn:E; [|reflexivity].
  apply existsb_id_true in E. destruct E as [c [Hin Hid]]. now apply H in Hin.
Qed.

(** The insertion updater run a second time on its own result changes
    nothing: a repeated dispatch of the same creation inserts once. *)
Lemma insertIntoFirstFolder_idempotent newConv prev updated :
  Home.insertIntoFirstFolder newConv prev = Some updated ->
  Home.insertIntoFirstFolder newConv updated = Some updated.
Proof.
  unfold Home.insertIntoFirstFolder at 1.
  destruct prev as [|first rest]; [discriminate|].
  destruct (existsb _ _) eqn:E; intros H; injection H as <-.
  - unfold Home.insertIntoFirstFolder. now rewrite E.
  - apply insertIntoFirstFolder_rejects with (c := newConv); [now left | reflexivity].
Qed.

(** C7 (as amended). The creation guard looks at the first folder only.
    When the first folder already holds a conversation with the new id,
    [handleNewConversation] leaves the folder collection as it is (the
    selection alone moves to that id), and the implicit creation of
    [handleSendMessage] inserts nothing either, so that the user message
    goes to the conversation already there; in both, the ids inside the
    first folder stay pairwise distinct if they were. *)
Theorem creation_rejected_when_first_folder_holds_the_id
    (now : Z) (s : Home.State) (first : Folder.t) (rest : list Folder.t)
    (c : Conversation.t)
    (Hfolders : Home.folders s = first :: rest)
    (Hin : In c (Folder.conversations first))
    (Hid : Conversation.id c = Home.convId_at now) :
  Home.handleNewConversation now s
  = Some (Home.setActiveConversationId (Some (Home.convId_at now)) s)
  /\ (forall eager settings content,
        Home.activeConversationId s = None ->
        exists s' task effects,
          Home.handleSendMessage eager now settings content s = Some (s', task, effects)
          /\ Home.convIdToUpdate task = Home.convId_at now
          /\ Home.folders s'
             = Home.mapConversations
                 (Home.appendUser (Home.convId_at now) (Home.userMessage task)
                                  content now)
                 (Home.folders s))
  /\ (forall newConv updated,
        NoDup (map Conversation.id (Folder.conversations first)) ->
        Home.insertIntoFirstFolder newConv (first :: rest) = Some updated ->
        exists first',
          updated = first' :: rest
          /\ NoDup (map Conversation.id (Folder.conversations first'))).
Proof.
  split; [|split].
  - unfold Home.handleNewConversation. rewrite Hfolders.
    erewrite insertIntoFirstFolder_rejects by (simpl; eauto).
    rewrite <- Hfolders. now destruct s.
  - intros eager settings content Hact.
    unfold Home.handleSendMessage, Home.createOnFirstSend. rewrite Hact, Hfolders.
    erewrite insertIntoFirstFolder_rejects by (simpl; eauto).
    unfold Home.appendAndFetch.
    do 3 eexists. split; [reflexivity|]. simpl. split; reflexivity.
  - intros newConv updated Hnd H. unfold Home.insertIntoFirstFolder in H.
    destruct (existsb _ _) eqn:E; injection H as <-.
    + exists first. split; auto.
    + eexists. split; [reflexivity|]. simpl. constructor; [|assumption].
      intros Hmem. apply in_map_iff in Hmem. destruct Hmem as [x [Hx Hxin]].
      assert (existsb (fun c0 => Js.eqb (Conversation.id c0) (Conversation.id newConv))
                      (Folder.conversations first) = true).
      { apply existsb_id_true. eauto. }
      congruence.
Qed.

Lemma creation_rejected_witness :
  let c := sample_conversation (Home.convId_at 7) false 7 in
  let first := Folder.mk (Js.lit "folder-1") (Js.lit "f") [c] true in
  let s := Home.mkState [first] None false in
  Home.handleNewConversation 7 s
  = Some (Home.setActiveConversationId (Some (Home.convId_at 7)) s).
Proof.
  intros c first s.
  apply (creation_rejected_when_first_folder_holds_the_id 7 s first [] c).
  - reflexivity.
  - simpl. left. reflexivity.
  - reflexivity.
Defined.

(** C7, the claim as stated fails: the collection holds a conversation
    with id ["conv-7"] in its second folder, and creating a conversation at
    clock reading 7 inserts a second ["conv-7"] into the first folder. *)
Lemma creation_not_rejected_for_id_in_another_folder :
  let c := sample_conversation (Home.convId_at 7) false 1 in
  let s := Home.mkState
             [ Folder.mk (Js.lit "folder-1") (Js.lit "f") [] true;
               Folder.mk (Js.lit "folder-2") (Js.lit "g") [c] true ] None false in
  In (Home.convId_at 7) (map Conversation.id (allConversations (Home.folders s)))
  /\ exists s',
       Home.handleNewConversation 7 s = Some s'
       /\ Home.folders s' <> Home.folders s
       /\ map Conversation.id (allConversations (Home.folders s'))
          = [Home.convId_at 7; Home.convId_at 7].
Proof.
  split.
  - simpl. left. reflexivity.
  - eexists. split; [reflexivity|]. split; [|reflexivity].
    simpl. intros H. discriminate H.
Qed.

(** ** Moving a conversation *)

Lemma find_none_without convId l :
  find (fun c => Js.eqb (Conversation.id c) convId) l = None ->
  without convId l = l.
Proof.
  induction l as [|c l IH]; simpl; [reflexivity|].
  destruct (Js.eqb (Conversation.id c) convId); [discriminate|].
  simpl. intros H. now rewrite IH.
Qed.

Lemma moveRemove_fold convId prev acc init :
  fold_left (Home.moveRemove convId) prev (acc, init)
  = (acc ++ map (fun folder =>
                   Folder.with_conversations
                     (without convId (Folder.conversations folder)) folder) prev,
     lastFound convId prev init).
Proof.
  revert acc init. induction prev as [|folder prev IH]; intros acc init; simpl.
  - now rewrite app_nil_r.
  - unfold lastFound. simpl.
    destruct (find _ (Folder.conversations folder)) eqn:F; simpl;
      rewrite IH, <- app_assoc; simpl; [reflexivity|].
    rewrite (find_none_without _ _ F), with_conversations_same. reflexivity.
Qed.

Lemma lastFound_origin convId prev init c :
  lastFound convId prev init = Some c ->
  init = Some c
  \/ (In c (allConversations prev) /\ Conversation.id c = convId).
Proof.
  revert init. unfold lastFound, allConversations.
  induction prev as [|folder prev IH]; intros init H; simpl in *; [now left|].
  apply IH in H. destruct H as [H|[H1 H2]].
  - destruct (find _ (Folder.conversations folder)) eqn:F; [|now left].
    injection H as ->. apply find_some in F. destruct F as [F1 F2].
    right. split; [apply in_or_app; now left | now apply eqb_eq].
  - right. split; [apply in_or_app; now right | assumption].
Qed.

Lemma lastFound_some convId prev init c :
  In c (allConversations prev) -> Conversation.id c = convId ->
  lastFound convId prev init <> None.
Proof.
  revert init. unfold lastFound, allConversations.
  induction prev as [|folder prev IH]; intros init Hin Hid; simpl in *; [contradiction|].
  apply in_app_or in Hin. destruct Hin as [Hin|Hin]; [|now apply IH].
  destruct (find _ (Folder.conversations folder)) eqn:F.
  - clear. generalize t. induction prev as [|g prev IH]; intros t0; simpl; [discriminate|].
    destruct (find _ (Folder.conversations g)); apply IH.
  - exfalso. apply find_none with (x := c) in F; [|assumption].
    apply eqb_neq in F. contradiction.
Qed.

Lemma lastFound_none convId prev :
  (forall c, In c (allConversations prev) -> Conversation.id c <> convId) ->
  lastFound convId prev None = None.
Proof.
  intros H. destruct (lastFound convId prev None) eqn:L; [|reflexivity].
  apply lastFound_origin in L. destruct L as [L|[L1 L2]]; [discriminate|].
  now apply H in L1.
Qed.

Lemma without_all_other convId l :
  (forall c, In c l -> Conversation.id c <> convId) -> without convId l = l.
Proof.
  induction l as [|c l IH]; simpl; intros H; [reflexivity|].
  replace (Js.eqb (Conversation.id c) convId) with false.
  - simpl. rewrite IH; auto.
  - symmetry. apply eqb_neq. apply H. now left.
Qed.

Lemma without_split convId p c q :
  Conversation.id c = convId ->
  (forall x, In x (p ++ q) -> Conversation.id x <> convId) ->
  without convId (p ++ c :: q) = p ++ q.
Proof.
  intros Hid H. unfold without. rewrite filter_app. simpl.
  rewrite Hid, eqb_refl. simpl.
  fold (without convId p). fold (without convId q).
  rewrite !without_all_other; auto; intros x Hx; apply H, in_or_app; auto.
Qed.

(** C8 (as amended). For a conversation [c] that is the only one with
    its id: [moveConversation] takes it out of the folder holding it and puts
    it at the front of the target folder. A target that is the folder
    already holding [c] is no exception: there [c] moves to the front, and
    the collection is as before only if [c] was first already. A folder
    that neither holds [c] nor is the target stays as it is, and so does the
    whole collection when no conversation has the id asked for. When a
    folder has the target id, [c] is afterwards the first conversation of
    every folder with that id; when none has, [c] is taken out and put
    nowhere: it is no longer in the collection. *)
Theorem moveConversation_relocates
    (convId targetFolderId : jsstring) (prev : list Folder.t) (c : Conversation.t)
    (Hin : In c (allConversations prev))
    (Hid : Conversation.id c = convId)
    (Hunique : forall c', In c' (allConversations prev) ->
                          Conversation.id c' = convId -> c' = c) :
  Home.moveConversation convId targetFolderId prev
  = map (relocate convId targetFolderId c) prev
  /\ (forall folder p q,
        Folder.id folder = targetFolderId ->
        Folder.conversations folder = p ++ c :: q ->
        (forall x, In x (p ++ q) -> Conversation.id x <> convId) ->
        relocate convId targetFolderId c folder
        = Folder.with_conversations (c :: p ++ q) folder)
  /\ (forall folder p q,
        Folder.id folder <> targetFolderId ->
        Folder.conversations folder = p ++ c :: q ->
        (forall x, In x (p ++ q) -> Conversation.id x <> convId) ->
        relocate convId targetFolderId c folder
        = Folder.with_conversations (p ++ q) folder)
  /\ (forall folder,
        Folder.id folder = targetFolderId ->
        (forall x, In x (Folder.conversations folder) -> Conversation.id x <> convId) ->
        relocate convId targetFolderId c folder
        = Folder.with_conversations (c :: Folder.conversations folder) folder)
  /\ (forall folder,
        Folder.id folder <> targetFolderId ->
        (forall x, In x (Folder.conversations folder) -> Conversation.id x <> convId) ->
        relocate convId targetFolderId c folder = folder)
  /\ (forall otherId,
        (forall x, In x (allConversations prev) -> Conversation.id x <> otherId) ->
        Home.moveConversation otherId targetFolderId prev = prev)
  /\ (In targetFolderId (map Folder.id prev) ->
      (exists folder',
         In folder' (Home.moveConversation convId targetFolderId prev)
         /\ Folder.id folder' = targetFolderId)
      /\ forall folder',
           In folder' (Home.moveConversation convId targetFolderId prev) ->
           Folder.id folder' = targetFolderId ->
           hd_error (Folder.conversations folder') = Some c)
  /\ (~ In targetFolderId (map Folder.id prev) ->
      Home.moveConversation convId targetFolderId prev
      = map (fun folder =>
               Folder.with_conversations
                 (without convId (Folder.conversations folder)) folder) prev
      /\ ~ In c (allConversations
                   (Home.moveConversation convId targetFolderId prev))).
Proof.
  assert (R : Home.moveConversation convId targetFolderId prev
              = map (relocate convId targetFolderId c) prev).
  { unfold Home.moveConversation. rewrite moveRemove_fold. simpl.
    destruct (lastFound convId prev None) as [conv|] eqn:L.
    + apply lastFound_origin in L. destruct L as [L|[L1 L2]]; [discriminate|].
      rewrite (Hunique conv L1 L2). rewrite map_map. apply map_ext.
      intros folder. unfold relocate. simpl.
      destruct (Js.eqb (Folder.id folder) targetFolderId); simpl; [reflexivity|].
      now destruct folder.
    + exfalso. now apply (lastFound_some convId prev None c Hin Hid). }
  assert (Rid : forall folder,
            Folder.id (relocate convId targetFolderId c folder) = Folder.id folder)
    by (intros folder; now destruct folder).
  split; [|split; [|split; [|split; [|split; [|split; [|split]]]]]];
    [exact R| | | | | | |]; cycle 5.
  - intros Htarget. rewrite R. split.
    + apply in_map_iff in Htarget. destruct Htarget as (folder & Hf & Hfin).
      exists (relocate convId targetFolderId c folder).
      split; [now apply in_map | now rewrite Rid].
    + intros folder' Hf' Hidf. apply in_map_iff in Hf'.
      destruct Hf' as (folder & <- & Hfin). rewrite Rid in Hidf.
      unfold relocate. rewrite Hidf, eqb_refl. now destruct folder.
  - intros Hmissing.
    assert (M : map (relocate convId targetFolderId c) prev
                = map (fun folder =>
                         Folder.with_conversations
                           (without convId (Folder.conversations folder)) folder)
                      prev).
    { apply map_ext_in. intros folder Hf. unfold relocate.
      destruct (Js.eqb (Folder.id folder) targetFolderId) eqn:E; [|reflexivity].
      apply eqb_eq in E. exfalso. apply Hmissing. rewrite <- E. now apply in_map. }
    rewrite R, M. split; [reflexivity|].
    intros Hc. unfold allConversations in Hc. apply in_flat_map in Hc.
    destruct Hc as (folder' & Hf' & Hc). apply in_map_iff in Hf'.
    destruct Hf' as (folder & <- & _).
    assert (Hc' : In c (without convId (Folder.conversations folder)))
      by (now destruct folder).
    apply filter_In in Hc'. destruct Hc' as [_ Hb].
    rewrite Hid, eqb_refl in Hb. discriminate.
  - intros folder p q Ht Hc Hx. unfold relocate.
    rewrite Ht, eqb_refl, Hc, without_split; auto.
  - intros folder p q Ht Hc Hx. unfold relocate.
    apply eqb_neq in Ht. rewrite Ht, Hc, without_split; auto.
  - intros folder Ht Hx. unfold relocate.
    rewrite Ht, eqb_refl, without_all_other; auto.
  - intros folder Ht Hx. unfold relocate.
    apply eqb_neq in Ht. rewrite Ht, without_all_other; auto.
    apply with_conversations_same.
  - intros otherId Hx. unfold Home.moveConversation. rewrite moveRemove_fold.
    rewrite lastFound_none by assumption. simpl.
    rewrite <- (map_id prev) at 2. apply map_ext_in.
    intros folder Hf. rewrite without_all_other; [apply with_conversations_same|].
    intros x Hxin. apply Hx. unfold allConversations. apply in_flat_map. eauto.
Qed.

Lemma moveConversation_witness :
  let a := sample_conversation (Js.lit "a") false 1 in
  let b := sample_conversation (Js.lit "b") false 2 in
  let prev := [ Folder.mk (Js.lit "f") (Js.lit "F") [a; b] true;
                Folder.mk (Js.lit "g") (Js.lit "G") [] true ] in
  Home.moveConversation (Js.lit "b") (Js.lit "g") prev
  = [ Folder.mk (Js.lit "f") (Js.lit "F") [a] true;
      Folder.mk (Js.lit "g") (Js.lit "G") [b] true ].
Proof.
  intros a b prev.
  refine (eq_trans (proj1 (moveConversation_relocates
                             (Js.lit "b") (Js.lit "g") prev b _ _ _)) _).
  - simpl. right. left. reflexivity.
  - reflexivity.
  - simpl. intros c' [H|[H|[]]] Hc'; subst c'; [discriminate Hc' | reflexivity].
  - reflexivity.
Defined.

(** C8, the claim as stated fails: [b] is already in the target folder
    [f], behind [a]; moving it to [f] changes the collection, [b] now
    comes first. *)
Lemma move_within_target_folder_reorders :
  let a := sample_conversation (Js.lit "a") false 1 in
  let b := sample_conversation (Js.lit "b") false 2 in
  let prev := [ Folder.mk (Js.lit "f") (Js.lit "F") [a; b] true ] in
  Home.moveConversation (Js.lit "b") (Js.lit "f") prev
  = [ Folder.mk (Js.lit "f") (Js.lit "F") [b; a] true ]
  /\ Home.moveConversation (Js.lit "b") (Js.lit "f") prev <> prev.
Proof.
  split; [reflexivity|].
  intros H. discriminate H.
Qed.

(** ** What each conversation update changes *)

Lemma mapConversations_updatesAt_in convId f change prev :
  (forall c, In c (allConversations prev) ->
             f c = if Js.eqb (Conversation.id c) convId then change c else c) ->
  updatesAt convId change prev (Home.mapConversations f prev).
Proof.
  intros H. split; [apply mapConversations_sameShape|].
  rewrite allConversations_mapConversations.
  rewrite (map_ext_in _ _ _ H). apply Forall2_map_r.
Qed.

Lemma mapConversations_updatesAt convId f change prev :
  (forall c, f c = if Js.eqb (Conversation.id c) convId then change c else c) ->
  updatesAt convId change prev (Home.mapConversations f prev).
Proof. intros H. apply mapConversations_updatesAt_in. intros c _. apply H. Qed.

Ltac by_cases_on_id :=
  let c := fresh "c" in
  intros c; cbv beta delta [Home.togglePin Home.addTag Home.removeTag
    Home.appendUser Home.mergeCompletion Home.mergeSummary Home.mergeTitle
    Home.setContent Home.appendError];
  destruct (Js.eqb (Conversation.id c) _); simpl; try reflexivity.

(** C2 (as amended). Which fields each conversation update writes, every
    other field and every other conversation being left as they are:
    the message updates (the optimistic user turn, the completion merge)
    and the document updates (the summary merge, the editor's change) set
    [updatedAt] to the clock reading; the pin toggle, [addTag], [removeTag]
    and the title merge write their own field only and leave [updatedAt]
    as it was. The user turn also replaces a placeholder title. *)
Theorem conversation_updates_and_updatedAt (convId : jsstring) (s : Home.State) :
  updatesAt convId
    (fun c => Conversation.mk (Conversation.id c) (Conversation.title c)
                (Conversation.messages c) (Conversation.documentContent c)
                (Conversation.tags c) (negb (Conversation.isPinned c))
                (Conversation.createdAt c) (Conversation.updatedAt c))
    (Home.folders s) (Home.folders (Home.handleTogglePin convId s))
  /\ (forall tag,
        updatesAt convId
          (fun c => Conversation.mk (Conversation.id c) (Conversation.title c)
                      (Conversation.messages c) (Conversation.documentContent c)
                      (if existsb (fun t => Js.eqb (ConversationTag.id t)
                                                   (ConversationTag.id tag))
                                  (Conversation.tags c)
                       then Conversation.tags c
                       else Conversation.tags c ++ [tag])
                      (Conversation.isPinned c)
                      (Conversation.createdAt c) (Conversation.updatedAt c))
          (Home.folders s) (Home.folders (Home.handleAddTag convId tag s)))
  /\ (forall tagId,
        updatesAt convId
          (fun c => Conversation.mk (Conversation.id c) (Conversation.title c)
                      (Conversation.messages c) (Conversation.documentContent c)
                      (filter (fun t => negb (Js.eqb (ConversationTag.id t) tagId))
                              (Conversation.tags c))
                      (Conversation.isPinned c)
                      (Conversation.createdAt c) (Conversation.updatedAt c))
          (Home.folders s) (Home.folders (Home.handleRemoveTag convId tagId s)))
  /\ (forall title,
        updatesAt convId
          (fun c => Conversation.mk (Conversation.id c) title
                      (Conversation.messages c) (Conversation.documentContent c)
                      (Conversation.tags c) (Conversation.isPinned c)
                      (Conversation.createdAt c) (Conversation.updatedAt c))
          (Home.folders s)
          (Home.mapConversations (Home.mergeTitle convId title) (Home.folders s)))
  /\ (forall userMessage content now,
        updatesAt convId
          (fun c => Conversation.mk (Conversation.id c)
                      (if Js.eqb (Conversation.title c) Home.placeholderTitle
                          && Js.truthy content
                       then Home.titleFrom content else Conversation.title c)
                      (Conversation.messages c ++ [userMessage])
                      (Conversation.documentContent c)
                      (Conversation.tags c) (Conversation.isPinned c)
                      (Conversation.createdAt c) now)
          (Home.folders s)
          (Home.mapConversations (Home.appendUser convId userMessage content now)
                                 (Home.folders s)))
  /\ (forall finalMessages now,
        updatesAt convId
          (fun c => Conversation.mk (Conversation.id c) (Conversation.title c)
                      finalMessages (Conversation.documentContent c)
                      (Conversation.tags c) (Conversation.isPinned c)
                      (Conversation.createdAt c) now)
          (Home.folders s)
          (Home.mapConversations (Home.mergeCompletion convId finalMessages now)
                                 (Home.folders s)))
  /\ (forall summary now,
        updatesAt convId
          (fun c => Conversation.mk (Conversation.id c) (Conversation.title c)
                      (Conversation.messages c) summary
                      (Conversation.tags c) (Conversation.isPinned c)
                      (Conversation.createdAt c) now)
          (Home.folders s)
          (Home.mapConversations (Home.mergeSummary convId summary now)
                                 (Home.folders s)))
  /\ (forall content now,
        updatesAt convId
          (fun c => Conversation.mk (Conversation.id c) (Conversation.title c)
                      (Conversation.messages c) content
                      (Conversation.tags c) (Conversation.isPinned c)
                      (Conversation.createdAt c) now)
          (Home.folders s)
          (Home.mapConversations (Home.setContent convId content now)
                                 (Home.folders s))).
Proof.
  repeat match goal with |- _ /\ _ => split end;
    try (intros; apply mapConversations_updatesAt; by_cases_on_id; fail).
  - intros tag. apply mapConversations_updatesAt. intros c. unfold Home.addTag.
    destruct (Js.eqb (Conversation.id c) convId); simpl; [|reflexivity].
    destruct (existsb _ _); [now destruct c | reflexivity].
Qed.

(** C2, the claim as stated fails. A conversation last updated at clock
    reading 1 is pinned, tagged or retitled: the targeted field changes and
    [updatedAt] still reads 1. And the user turn appended at clock reading 9
    to a conversation that carries the placeholder title changes the title
    as well as the messages. *)
Lemma pin_tag_and_title_leave_updatedAt :
  let a := sample_conversation (Js.lit "a") false 1 in
  let s := Home.mkState [ Folder.mk (Js.lit "f") (Js.lit "F") [a] true ] None false in
  let tag := ConversationTag.mk (Js.lit "tag-3") (Js.lit "n") (Js.lit "blue") in
  let fresh := Conversation.mk (Js.lit "a") Home.placeholderTitle [] [] [] false 1 1 in
  let hello := Message.mk (Js.lit "msg-9") user (Js.lit "hello") 9 in
  map (fun c => (Conversation.isPinned c, Conversation.updatedAt c))
      (allConversations (Home.folders (Home.handleTogglePin (Js.lit "a") s)))
  = [(true, 1)]
  /\ map (fun c => (Conversation.tags c, Conversation.updatedAt c))
         (allConversations (Home.folders (Home.handleAddTag (Js.lit "a") tag s)))
     = [([tag], 1)]
  /\ map (fun c => (Conversation.title c, Conversation.updatedAt c))
         (allConversations
            (Home.mapConversations (Home.mergeTitle (Js.lit "a") (Js.lit "new"))
                                   (Home.folders s)))
     = [(Js.lit "new", 1)]
  /\ Conversation.title (Home.appendUser (Js.lit "a") hello (Js.lit "hello") 9 fresh)
     = Js.lit "hello"
  /\ Conversation.title fresh <> Js.lit "hello".
Proof.
  repeat split; try reflexivity.
  intros H. discriminate H.
Qed.

(** ** The send-message lifecycle: merging by the captured id *)

Lemma find_by_id_unique (l : list Conversation.t) (c : Conversation.t) :
  NoDup (map Conversation.id l) -> In c l ->
  find (fun x => Js.eqb (Conversation.id x) (Conversation.id c)) l = Some c.
Proof.
  induction l as [|x l IH]; simpl; intros Hnd Hin; [contradiction|].
  inversion Hnd as [|i il Hnotin Hnd']; subst.
  destruct Hin as [->|Hin]; [now rewrite eqb_refl|].
  destruct (Js.eqb (Conversation.id x) (Conversation.id c)) eqn:E; [|now apply IH].
  apply eqb_eq in E. exfalso. apply Hnotin. rewrite E. now apply in_map.
Qed.

Lemma find_by_id_absent (l : list Conversation.t) (convId : jsstring) :
  ~ In convId (map Conversation.id l) ->
  find (fun x => Js.eqb (Conversation.id x) convId) l = None.
Proof.
  induction l as [|x l IH]; simpl; intros H; [reflexivity|].
  destruct (Js.eqb (Conversation.id x) convId) eqn:E.
  - apply eqb_eq in E. exfalso. apply H. now left.
  - apply IH. intros Hin. apply H. now right.
Qed.

Lemma appendUser_id convId um content now c :
  Conversation.id (Home.appendUser convId um content now c) = Conversation.id c.
Proof. unfold Home.appendUser. now destruct (negb _). Qed.

Lemma appendUser_ids convId um content now pre :
  map Conversation.id
      (allConversations
         (Home.mapConversations (Home.appendUser convId um content now) pre))
  = map Conversation.id (allConversations pre).
Proof.
  rewrite allConversations_mapConversations, map_map.
  apply map_ext. intros c. apply appendUser_id.
Qed.

Lemma appendUser_messages convId um content now pre captured :
  (forall c0, In c0 (allConversations pre) -> Conversation.id c0 = convId ->
              Conversation.messages c0 = captured) ->
  forall c,
    In c (allConversations
            (Home.mapConversations (Home.appendUser convId um content now) pre)) ->
    Conversation.id c = convId ->
    Conversation.messages c = captured ++ [um].
Proof.
  intros H c Hin Hid. rewrite allConversations_mapConversations in Hin.
  apply in_map_iff in Hin. destruct Hin as [c0 [<- Hin0]].
  rewrite appendUser_id in Hid. unfold Home.appendUser.
  rewrite Hid, eqb_refl. simpl. now rewrite (H c0 Hin0 Hid).
Qed.

Lemma captured_from_same_collection convId pre :
  NoDup (map Conversation.id (allConversations pre)) ->
  forall c0, In c0 (allConversations pre) -> Conversation.id c0 = convId ->
    Conversation.messages c0
    = match find (fun c => Js.eqb (Conversation.id c) convId)
                 (allConversations pre) with
      | Some c => Conversation.messages c
      | None => []
      end.
Proof.
  intros Hnd c0 Hin <-. now rewrite find_by_id_unique.
Qed.

(** After the first segment, under pairwise distinct conversation ids,
    the conversation the invocation targets holds the captured messages
    followed by the user's message. *)
Lemma appendAndFetch_same_collection now settings content a s0 s1 task effects :
  Home.appendAndFetch now settings content a s0 (Home.folders s0)
  = (s1, task, effects) ->
  NoDup (map Conversation.id (allConversations (Home.folders s1))) ->
  forall c, In c (allConversations (Home.folders s1)) ->
    Conversation.id c = Home.convIdToUpdate task ->
    Conversation.messages c = Home.capturedMessages task ++ [Home.userMessage task].
Proof.
  unfold Home.appendAndFetch. intros E Hnd. injection E as <- <- <-. simpl in *.
  apply appendUser_messages. apply captured_from_same_collection.
  now rewrite appendUser_ids in Hnd.
Qed.

Lemma sendMessage_leaves_captured_plus_user
    eager now settings content s0 s1 task effects :
  Home.handleSendMessage eager now settings content s0 = Some (s1, task, effects) ->
  NoDup (map Conversation.id (allConversations (Home.folders s1))) ->
  forall c, In c (allConversations (Home.folders s1)) ->
    Conversation.id c = Home.convIdToUpdate task ->
    Conversation.messages c = Home.capturedMessages task ++ [Home.userMessage task].
Proof.
  unfold Home.handleSendMessage. intros H Hnd.
  assert (Hcreate :
    match Home.createOnFirstSend eager now content s0 with
    | Some (convIdToUpdate, s2, closureFolders) =>
        Some (Home.appendAndFetch now settings content convIdToUpdate s2 closureFolders)
    | None => None
    end = Some (s1, task, effects) ->
    forall c, In c (allConversations (Home.folders s1)) ->
      Conversation.id c = Home.convIdToUpdate task ->
      Conversation.messages c = Home.capturedMessages task ++ [Home.userMessage task]).
  { clear H. unfold Home.createOnFirstSend, Home.insertIntoFirstFolder.
    destruct s0 as [fs act ld]. cbn [Home.folders].
    destruct fs as [|first rest]; [discriminate|].
    destruct (existsb _ _) eqn:X.
    - (* the id is already in the first folder: nothing is inserted *)
      intros E.
      assert (E' : Home.appendAndFetch now settings content (Home.convId_at now)
                     (Home.mkState (first :: rest) (Some (Home.convId_at now)) ld)
                     (Home.folders
                        (Home.mkState (first :: rest) (Some (Home.convId_at now)) ld))
                   = (s1, task, effects)).
      { apply (f_equal (fun o => match o with
                                 | Some x => x
                                 | None => (s1, task, effects)
                                 end)) in E.
        destruct eager; exact E. }
      exact (appendAndFetch_same_collection _ _ _ _ _ _ _ _ E' Hnd).
    - remember (Folder.with_conversations _ first :: rest) as pre eqn:Hpre.
      intros E. unfold Home.appendAndFetch in E. injection E as <- <- <-.
      cbn [Home.folders Home.setIsLoading Home.setFolders
           Home.setActiveConversationId Home.convIdToUpdate
           Home.capturedMessages Home.userMessage] in *.
      rewrite appendUser_ids in Hnd.
      apply appendUser_messages. subst pre.
      rewrite allConversations_cons in Hnd |- *.
      cbn [Folder.conversations Folder.with_conversations app map
           Conversation.id] in Hnd |- *.
      inversion Hnd as [|i il Hnotin Hnd']; subst.
      intros c0 [<-|Hin0] Hid0.
      + cbn [Conversation.messages].
        destruct eager.
        * rewrite allConversations_cons.
          cbn [Folder.conversations Folder.with_conversations app find
               Conversation.id].
          now rewrite eqb_refl.
        * rewrite allConversations_cons, find_by_id_absent; [reflexivity|].
          exact Hnotin.
      + exfalso. apply Hnotin. rewrite <- Hid0. now apply in_map. }
  destruct (Home.activeConversationId s0) as [a|].
  - destruct (Js.truthy a).
    + apply (f_equal (fun o => match o with
                               | Some x => x
                               | None => (s1, task, effects)
                               end)) in H.
      exact (appendAndFetch_same_collection _ _ _ _ _ _ _ _ H Hnd).
    + apply Hcreate. exact H.
  - apply Hcreate. exact H.
Qed.

(** The first segment runs to its [fetch] on every collection that has
    a folder; and on any collection when a conversation is selected. *)
Lemma handleSendMessage_runs eager now settings content s :
  Home.folders s <> [] ->
  exists s1 task body,
    Home.handleSendMessage eager now settings content s
    = Some (s1, task, [Home.FetchChat body]).
Proof.
  intros Hne. unfold Home.handleSendMessage.
  assert (Hcreate : exists t, Home.createOnFirstSend eager now content s = Some t).
  { unfold Home.createOnFirstSend, Home.insertIntoFirstFolder.
    destruct (Home.folders s) as [|first rest]; [contradiction|].
    destruct (existsb _ _); eexists; reflexivity. }
  destruct Hcreate as [[[a' s'] closure] Hcreate].
  destruct (Home.activeConversationId s) as [a|];
    [destruct (Js.truthy a)|]; rewrite ?Hcreate;
    unfold Home.appendAndFetch; do 3 eexists; reflexivity.
Qed.

Lemma appendAndFetch_target now settings content convId s' closure s1 task effects :
  Home.appendAndFetch now settings content convId s' closure = (s1, task, effects) ->
  In convId (map Conversation.id (allConversations (Home.folders s'))) ->
  In (Home.convIdToUpdate task)
     (map Conversation.id (allConversations (Home.folders s1))).
Proof.
  intros E H.
  apply (f_equal (fun t => (Home.folders (fst (fst t)),
                            Home.convIdToUpdate (snd (fst t))))) in E.
  unfold Home.appendAndFetch in E.
  cbn [fst snd Home.folders Home.setIsLoading Home.setFolders
       Home.convIdToUpdate] in E.
  injection E as E1 E2. rewrite <- E1, <- E2, appendUser_ids. exact H.
Qed.

Lemma createOnFirstSend_target eager now content s convId s' closure :
  Home.createOnFirstSend eager now content s = Some (convId, s', closure) ->
  In convId (map Conversation.id (allConversations (Home.folders s'))).
Proof.
  unfold Home.createOnFirstSend, Home.insertIntoFirstFolder.
  destruct (Home.folders s) as [|first rest] eqn:F; [discriminate|].
  destruct (existsb _ (Folder.conversations first)) eqn:X;
    intros E; injection E as <- <- _;
    cbn [Home.folders Home.setActiveConversationId Home.setFolders];
    rewrite allConversations_cons, map_app; apply in_or_app; left.
  - apply existsb_exists in X. destruct X as (c & Hc & Hid).
    apply eqb_eq in Hid. cbn [Conversation.id] in Hid. rewrite <- Hid.
    now apply in_map.
  - destruct first. now left.
Qed.

Lemma dispatch_target_exists eager now settings content s0 s1 task effects :
  Home.handleSendMessage eager now settings content s0 = Some (s1, task, effects) ->
  validSelection s0 ->
  In (Home.convIdToUpdate task)
     (map Conversation.id (allConversations (Home.folders s1))).
Proof.
  unfold Home.handleSendMessage, validSelection. intros H V.
  assert (Hcreate :
    match Home.createOnFirstSend eager now content s0 with
    | Some (convIdToUpdate, s2, closureFolders) =>
        Some (Home.appendAndFetch now settings content convIdToUpdate s2
                                  closureFolders)
    | None => None
    end = Some (s1, task, effects) ->
    In (Home.convIdToUpdate task)
       (map Conversation.id (allConversations (Home.folders s1)))).
  { destruct (Home.createOnFirstSend eager now content s0)
      as [[[convId s'] closure]|] eqn:C; [|discriminate].
    intros E.
    apply (f_equal (fun o => match o with
                             | Some x => x
                             | None => (s1, task, effects)
                             end)) in E.
    apply (appendAndFetch_target _ _ _ _ _ _ _ _ _ E).
    now apply (createOnFirstSend_target _ _ _ _ _ _ _ C). }
  destruct (Home.activeConversationId s0) as [a|]; [|now apply Hcreate].
  destruct (Js.truthy a); [|now apply Hcreate].
  apply (f_equal (fun o => match o with
                           | Some x => x
                           | None => (s1, task, effects)
                           end)) in H.
  now apply (appendAndFetch_target _ _ _ _ _ _ _ _ _ H).
Qed.

(** C1 (as amended). An invocation of [handleSendMessage] has captured
    the id [convIdToUpdate task] in its first segment; when the selection
    it started from named a conversation of the collection, or none, a
    conversation with that id is there after the first segment. When its
    completion
    arrives, in whatever state the component then is: the selection is not
    read and not written, every folder keeps its place and its fields,
    every conversation with another id is returned as it is, and a
    conversation with the captured id gets the captured messages, the user
    message and the assistant message, with a fresh [updatedAt]. Whenever
    the conversations with the captured id still hold the messages the
    first segment left them with, as they do after pins, tags, moves or a
    change of selection, this is the assistant message appended to their
    messages; in particular when all that happened in between is that the
    user selected some conversation [B]. That much holds when the
    conversation ids are pairwise distinct after the first segment, which
    is the amendment: the merge goes by id and writes the captured
    messages, so that of two conversations with the captured id the second
    is overwritten. The later summary and title merges of the same
    invocation go by the same captured id. *)
Theorem completion_merges_into_the_captured_conversation
    (eager : bool) (now0 : Z) (settings : option Api.AISettings)
    (content : jsstring) (s0 s1 : Home.State) (task : Home.Task)
    (effects : list Home.Effect)
    (Hdispatch : Home.handleSendMessage eager now0 settings content s0
                 = Some (s1, task, effects))
    (Hunique : NoDup (map Conversation.id (allConversations (Home.folders s1)))) :
  (forall s data now1,
     let s' := fst (Home.onChatSettled now1 task (Api.Responded data) s) in
     Home.activeConversationId s' = Home.activeConversationId s
     /\ updatesAt (Home.convIdToUpdate task)
          (fun c => Conversation.mk (Conversation.id c) (Conversation.title c)
                      (Home.capturedMessages task
                         ++ [Home.userMessage task; Home.aiMessageOf now1 data])
                      (Conversation.documentContent c) (Conversation.tags c)
                      (Conversation.isPinned c) (Conversation.createdAt c) now1)
          (Home.folders s) (Home.folders s')
     /\ forall other,
          Home.folders
            (fst (Home.onChatSettled now1 task (Api.Responded data)
                    (Home.setActiveConversationId other s)))
          = Home.folders s')
  /\ (forall s data now1,
        (forall c, In c (allConversations (Home.folders s)) ->
                   Conversation.id c = Home.convIdToUpdate task ->
                   exists c1, In c1 (allConversations (Home.folders s1))
                              /\ Conversation.id c1 = Home.convIdToUpdate task
                              /\ Conversation.messages c = Conversation.messages c1) ->
        updatesAt (Home.convIdToUpdate task)
          (fun c => Conversation.mk (Conversation.id c) (Conversation.title c)
                      (Conversation.messages c ++ [Home.aiMessageOf now1 data])
                      (Conversation.documentContent c) (Conversation.tags c)
                      (Conversation.isPinned c) (Conversation.createdAt c) now1)
          (Home.folders s)
          (Home.folders (fst (Home.onChatSettled now1 task (Api.Responded data) s))))
  /\ (forall B data now1,
        let s2 := Home.handleConversationSelect B s1 in
        let s3 := fst (Home.onChatSettled now1 task (Api.Responded data) s2) in
        Home.activeConversationId s3 = Some B
        /\ updatesAt (Home.convIdToUpdate task)
             (fun c => Conversation.mk (Conversation.id c) (Conversation.title c)
                         (Conversation.messages c ++ [Home.aiMessageOf now1 data])
                         (Conversation.documentContent c) (Conversation.tags c)
                         (Conversation.isPinned c) (Conversation.createdAt c) now1)
             (Home.folders s2) (Home.folders s3))
  /\ (forall s summaryData now2,
        let s' := fst (Home.onSummarySettled now2 task (Api.Responded summaryData) s) in
        Home.activeConversationId s' = Home.activeConversationId s
        /\ updatesAt (Home.convIdToUpdate task)
             (fun c => Conversation.mk (Conversation.id c) (Conversation.title c)
                         (Conversation.messages c)
                         (Api.Summarize.summary summaryData) (Conversation.tags c)
                         (Conversation.isPinned c) (Conversation.createdAt c) now2)
             (Home.folders s) (Home.folders s'))
  /\ (forall s titleResponse,
        let s' := fst (Home.onTitleSettled task (Api.Responded titleResponse) s) in
        Home.activeConversationId s' = Home.activeConversationId s
        /\ (Home.folders s' = Home.folders s
            \/ exists title,
                 updatesAt (Home.convIdToUpdate task)
                   (fun c => Conversation.mk (Conversation.id c) title
                               (Conversation.messages c)
                               (Conversation.documentContent c) (Conversation.tags c)
                               (Conversation.isPinned c) (Conversation.createdAt c)
                               (Conversation.updatedAt c))
                   (Home.folders s) (Home.folders s')))
  /\ (validSelection s0 ->
      exists c, In c (allConversations (Home.folders s1))
                /\ Conversation.id c = Home.convIdToUpdate task
                /\ Conversation.messages c
                   = Home.capturedMessages task ++ [Home.userMessage task]).
Proof.
  assert (Happend : forall s data now1,
    (forall c, In c (allConversations (Home.folders s)) ->
               Conversation.id c = Home.convIdToUpdate task ->
               exists c1, In c1 (allConversations (Home.folders s1))
                          /\ Conversation.id c1 = Home.convIdToUpdate task
                          /\ Conversation.messages c = Conversation.messages c1) ->
    updatesAt (Home.convIdToUpdate task)
      (fun c => Conversation.mk (Conversation.id c) (Conversation.title c)
                  (Conversation.messages c ++ [Home.aiMessageOf now1 data])
                  (Conversation.documentContent c) (Conversation.tags c)
                  (Conversation.isPinned c) (Conversation.createdAt c) now1)
      (Home.folders s)
      (Home.folders (fst (Home.onChatSettled now1 task (Api.Responded data) s)))).
  { intros s data now1 Hsame. cbn [Home.onChatSettled fst].
    cbn [Home.folders Home.setFolders].
    apply mapConversations_updatesAt_in. intros c Hin.
    unfold Home.mergeCompletion.
    destruct (Js.eqb (Conversation.id c) (Home.convIdToUpdate task)) eqn:E;
      [|reflexivity].
    apply eqb_eq in E. cbn [negb].
    destruct (Hsame c Hin E) as (c1 & Hin1 & Hid1 & ->).
    rewrite (sendMessage_leaves_captured_plus_user _ _ _ _ _ _ _ _
               Hdispatch Hunique c1 Hin1 Hid1).
    rewrite <- app_assoc. reflexivity. }
  split; [|split; [exact Happend | split; [|split; [|split]]]].
  - intros s data now1. cbn [Home.onChatSettled fst]. split; [reflexivity|].
    split; [|reflexivity].
    cbn [Home.folders Home.setFolders].
    apply mapConversations_updatesAt. by_cases_on_id.
  - intros B data now1. split; [reflexivity|].
    apply Happend. intros c Hin Hid. exists c. auto.
  - intros s summaryData now2. cbn [Home.onSummarySettled fst].
    split; [reflexivity|].
    cbn [Home.folders Home.setFolders Home.setIsLoading].
    apply mapConversations_updatesAt. by_cases_on_id.
  - intros s titleResponse. cbn [Home.onTitleSettled].
    destruct (Api.Title.ok titleResponse); [|split; [reflexivity | now left]].
    destruct (Api.Title.title titleResponse) as [title|];
      [|split; [reflexivity | now left]].
    destruct (Js.truthy title); [|split; [reflexivity | now left]].
    cbn [fst]. split; [reflexivity|]. right. exists title.
    cbn [Home.folders Home.setFolders].
    apply mapConversations_updatesAt. by_cases_on_id.
  - intros V.
    pose proof (dispatch_target_exists _ _ _ _ _ _ _ _ Hdispatch V) as T.
    apply in_map_iff in T. destruct T as (c & Hid & Hin).
    exists c. split; [assumption|]. split; [assumption|].
    exact (sendMessage_leaves_captured_plus_user _ _ _ _ _ _ _ _
             Hdispatch Hunique c Hin Hid).
Qed.

Lemma completion_race_witness :
  exists s1 task effects,
    Home.handleSendMessage false 10 None (Js.lit "hi") race_s0 = Some (s1, task, effects)
    /\ Home.activeConversationId
         (fst (Home.onChatSettled 20 task (Api.Responded race_reply)
                 (Home.handleConversationSelect (Js.lit "b") s1)))
       = Some (Js.lit "b")
    /\ map (fun c => (Conversation.id c,
                      map Message.content (Conversation.messages c)))
           (allConversations
              (Home.folders
                 (fst (Home.onChatSettled 20 task (Api.Responded race_reply)
                         (Home.handleConversationSelect (Js.lit "b") s1)))))
       = [ (Js.lit "a", [Js.lit "hi"; Js.lit "yo"]); (Js.lit "b", []) ].
Proof.
  eexists _, _, _. split; [reflexivity|]. split; [|reflexivity].
  refine (proj1 (proj1 (proj2 (proj2
            (completion_merges_into_the_captured_conversation
               false 10 None (Js.lit "hi") race_s0 _ _ _ eq_refl _)))
            (Js.lit "b") race_reply 20)).
  repeat constructor; simpl; intuition discriminate.
Defined.

(** C1, the claim as stated fails where two conversations have the
    captured id: the message is sent in the selected ["a"], of which there
    are two, the second holding an earlier message. The completion is not
    appended to the second: its messages are replaced by those captured
    from the first, and the earlier message is lost. *)
Lemma completion_overwrites_a_twin :
  exists s1 task effects,
    Home.handleSendMessage false 10 None (Js.lit "hi") twin_s0
    = Some (s1, task, effects)
    /\ map (fun c => (Conversation.id c,
                      map Message.content (Conversation.messages c)))
           (allConversations (Home.folders s1))
       = [ (Js.lit "a", [Js.lit "hi"]); (Js.lit "a", [Js.lit "old"; Js.lit "hi"]) ]
    /\ map (fun c => (Conversation.id c,
                      map Message.content (Conversation.messages c)))
           (allConversations
              (Home.folders
                 (fst (Home.onChatSettled 20 task (Api.Responded race_reply) s1))))
       = [ (Js.lit "a", [Js.lit "hi"; Js.lit "yo"]);
           (Js.lit "a", [Js.lit "hi"; Js.lit "yo"]) ]
    /\ ~ updatesAt (Js.lit "a")
           (fun c => Conversation.with_updatedAt 20
                       (Conversation.with_messages
                          (Conversation.messages c
                             ++ [Home.aiMessageOf 20 race_reply]) c))
           (Home.folders s1)
           (Home.folders
              (fst (Home.onChatSettled 20 task (Api.Responded race_reply) s1))).
Proof.
  eexists _, _, _. split; [reflexivity|]. split; [reflexivity|].
  split; [reflexivity|].
  intros [_ H]. vm_compute in H.
  inversion H as [|? ? ? ? _ H']. inversion H' as [|? ? ? ? E _].
  discriminate E.
Qed.

(** ** The chat route without an API key *)

Lemma randomIndex_in_range (random : Q) :
  (0 <= random)%Q -> (random < 1)%Q -> (Double.round random == random)%Q ->
  (Api.Chat.randomIndex random < List.length Api.Chat.responses)%nat.
Proof.
  intros H0 H1 D. unfold Api.Chat.randomIndex.
  change (List.length Api.Chat.responses) with 5%nat.
  change (inject_Z (Z.of_nat 5)) with 5%Q.
  pose proof (random_times_five random H0 H1 D). lia.
Qed.

Lemma demo_message (random : Q) (messages : list Api.ChatMessage) :
  (0 <= random)%Q -> (random < 1)%Q -> (Double.round random == random)%Q ->
  let last := Api.Chat.lastUserMessage messages in
  let reply := Api.Chat.getMockResponse random messages in
  if Js.includes last (Js.lit "悩") || Js.includes last (Js.lit "困")
  then reply = Api.Chat.worryReply
  else if Js.includes last (Js.lit "仕事") || Js.includes last (Js.lit "優先")
  then reply = Api.Chat.workReply
  else if Js.includes last (Js.lit "整理") || Js.includes last (Js.lit "まとめ")
  then reply = Api.Chat.organizeReply
  else reply = nth (Api.Chat.randomIndex random) Api.Chat.responses []
       /\ In reply Api.Chat.responses.
Proof.
  intros H0 H1 D last reply. unfold reply, Api.Chat.getMockResponse. fold last.
  destruct (_ || _); [reflexivity|].
  destruct (_ || _); [reflexivity|].
  destruct (_ || _); [reflexivity|].
  split; [reflexivity|]. apply nth_In. now apply randomIndex_in_range.
Qed.

(** C10 (as amended). Without an API key (no settings, or an empty key)
    the chat route calls no vendor and answers with status 200 in demo mode:
    the reply is one of three keyword replies when the last user message
    contains one of their two keywords each (the worry reply first, then
    the work reply, then the tidy-up reply), and otherwise the entry of the
    five fixed replies that the random draw selects: the one at the floor
    of the rounded product of the draw, a double in [0, 1), and five. *)
Theorem demo_mode_reply
    (oracle : Api.Oracle) (random : Q) (req : Api.Chat.Request)
    (Hdemo : Api.noApiKey (Api.Chat.settings req) = true)
    (H0 : (0 <= random)%Q) (H1 : (random < 1)%Q)
    (Hdouble : (Double.round random == random)%Q) :
  let out := Api.Chat.POST oracle random (Api.Parsed req) in
  let reply := Api.Chat.message (fst out) in
  let last := Api.Chat.lastUserMessage (Api.Chat.messages req) in
  snd out = []
  /\ Api.Chat.status (fst out) = 200
  /\ Api.Chat.isDemo (fst out) = true
  /\ Api.Chat.provider (fst out) = Js.lit "demo"
  /\ (if Js.includes last (Js.lit "悩") || Js.includes last (Js.lit "困")
      then reply = Api.Chat.worryReply
      else if Js.includes last (Js.lit "仕事") || Js.includes last (Js.lit "優先")
      then reply = Api.Chat.workReply
      else if Js.includes last (Js.lit "整理") || Js.includes last (Js.lit "まとめ")
      then reply = Api.Chat.organizeReply
      else reply = nth (Api.Chat.randomIndex random) Api.Chat.responses []
           /\ In reply Api.Chat.responses).
Proof.
  intros out reply last.
  assert (E : out = (Api.Chat.mkResponse 200
                       (Api.Chat.getMockResponse random (Api.Chat.messages req))
                       true (Js.lit "demo") None, [])).
  { unfold out, Api.Chat.POST. destruct (Api.Chat.settings req) as [st|] eqn:S;
      [|reflexivity].
    now rewrite Hdemo. }
  unfold reply. rewrite E. cbn [fst snd Api.Chat.message Api.Chat.status
                                Api.Chat.isDemo Api.Chat.provider].
  repeat split. now apply demo_message.
Qed.

Lemma demo_mode_reply_witness :
  let random := Double.round (6 # 10) in
  snd (Api.Chat.POST (fun _ => Api.Threw []) random (Api.Parsed (asks "こんにちは"))) = []
  /\ Api.Chat.message
       (fst (Api.Chat.POST (fun _ => Api.Threw []) random (Api.Parsed (asks "こんにちは"))))
     = nth 3 Api.Chat.responses [].
Proof.
  intros random.
  pose proof (demo_mode_reply (fun _ => Api.Threw []) random (asks "こんにちは")
                eq_refl) as H.
  assert (H0 : (0 <= random)%Q) by (vm_compute; discriminate).
  assert (H1 : (random < 1)%Q) by (vm_compute; reflexivity).
  assert (Hd : (Double.round random == random)%Q) by (vm_compute; reflexivity).
  specialize (H H0 H1 Hd). cbv zeta in H.
  destruct H as (Hcalls & _ & _ & _ & Hreply).
  split; [exact Hcalls|].
  vm_compute. reflexivity.
Defined.

(** C10, the claim as stated fails: there are three keyword replies, not
    two. No choice of two override texts covers the demo replies: the
    messages ["悩み"], ["仕事"] and ["整理"] draw three different texts, none
    of them among the five fixed ones. *)
Lemma demo_mode_has_three_overrides :
  ~ exists o1 o2 : jsstring,
      forall req random,
        Api.noApiKey (Api.Chat.settings req) = true ->
        (0 <= random)%Q -> (random < 1)%Q -> (Double.round random == random)%Q ->
        In (Api.Chat.message
              (fst (Api.Chat.POST (fun _ => Api.Threw []) random (Api.Parsed req))))
           (Api.Chat.responses ++ [o1; o2]).
Proof.
  intros (o1 & o2 & H).
  assert (H0 : (0 <= 0)%Q) by discriminate.
  assert (H1 : (0 < 1)%Q) by reflexivity.
  assert (Hd : (Double.round 0 == 0)%Q) by reflexivity.
  pose proof (H (asks "悩み") 0%Q eq_refl H0 H1 Hd) as Ha.
  pose proof (H (asks "仕事") 0%Q eq_refl H0 H1 Hd) as Hb.
  pose proof (H (asks "整理") 0%Q eq_refl H0 H1 Hd) as Hc.
  clear H.
  apply in_app_or in Ha, Hb, Hc.
  destruct Ha as [Ha|Ha]; [vm_compute in Ha; intuition discriminate|].
  destruct Hb as [Hb|Hb]; [vm_compute in Hb; intuition discriminate|].
  destruct Hc as [Hc|Hc]; [vm_compute in Hc; intuition discriminate|].
  vm_compute in Ha, Hb, Hc.
  destruct Ha as [Ha|[Ha|[]]]; destruct Hb as [Hb|[Hb|[]]];
    destruct Hc as [Hc|[Hc|[]]]; congruence.
Qed.

(** ** Failures of the completion and of the summary *)

(** What the chat route answers when the vendor call throws. *)
Lemma chat_route_on_vendor_error oracle random req st v e :
  Api.Chat.settings req = Some st ->
  Api.noApiKey (Some st) = false ->
  Api.vendorOf (Api.provider st) = Some v ->
  oracle (Api.mkCall v (Api.apiKey st) (Api.model st)
            (Api.truncateTo Api.Chat.MAX_MESSAGES (Api.Chat.messages req)))
  = Api.Threw e ->
  Api.Chat.POST oracle random (Api.Parsed req)
  = (Api.Chat.errorResponse e,
     [Api.mkCall v (Api.apiKey st) (Api.model st)
        (Api.truncateTo Api.Chat.MAX_MESSAGES (Api.Chat.messages req))]).
Proof.
  intros S K V O. unfold Api.Chat.POST. rewrite S, K, V, O. reflexivity.
Qed.

(** C4 (as amended). When the chat request fails in transport ([fetch]
    or the decoding of its body rejects), the handler appends the fixed
    apology as the assistant turn of the captured conversation, touches
    nothing else, logs the failure and starts no summary request. A failure
    of the vendor is another matter: the chat route catches it and answers
    with status 200 and an error text that quotes the vendor's message; the
    handler appends that text as the assistant turn and goes on to request
    the summary. *)
Theorem completion_failure_paths
    (oracle : Api.Oracle) (random : Q) (req : Api.Chat.Request)
    (st : Api.AISettings) (v : Api.Vendor) (e : jsstring)
    (Hsettings : Api.Chat.settings req = Some st)
    (Hkey : Api.noApiKey (Some st) = false)
    (Hvendor : Api.vendorOf (Api.provider st) = Some v)
    (Hthrows : oracle (Api.mkCall v (Api.apiKey st) (Api.model st)
                         (Api.truncateTo Api.Chat.MAX_MESSAGES
                                         (Api.Chat.messages req)))
               = Api.Threw e) :
  (forall now task s,
     let out := Home.onChatSettled now task (Home.fetchChat false oracle random req) s in
     updatesAt (Home.convIdToUpdate task)
       (fun c => Conversation.mk (Conversation.id c) (Conversation.title c)
                   (Conversation.messages c ++ [Home.errorMessageAt now])
                   (Conversation.documentContent c) (Conversation.tags c)
                   (Conversation.isPinned c) (Conversation.createdAt c)
                   (Conversation.updatedAt c))
       (Home.folders s) (Home.folders (fst out))
     /\ Message.content (Home.errorMessageAt now) = Home.apology
     /\ Message.role (Home.errorMessageAt now) = assistant
     /\ snd out = [Home.ConsoleError (Js.lit "Failed to send message:")]
     /\ hasSummarize (snd out) = false
     /\ Home.isLoading (fst out) = false)
  /\ Home.fetchChat true oracle random req
     = Api.Responded (Api.Chat.errorResponse e)
  /\ Api.Chat.status (Api.Chat.errorResponse e) = 200
  /\ (forall now task s,
        let out := Home.onChatSettled now task (Home.fetchChat true oracle random req) s in
        let reply := Home.aiMessageOf now (Api.Chat.errorResponse e) in
        updatesAt (Home.convIdToUpdate task)
          (fun c => Conversation.mk (Conversation.id c) (Conversation.title c)
                      (Home.capturedMessages task ++ [Home.userMessage task; reply])
                      (Conversation.documentContent c) (Conversation.tags c)
                      (Conversation.isPinned c) (Conversation.createdAt c) now)
          (Home.folders s) (Home.folders (fst out))
        /\ Message.content reply
           = Js.lit "⚠️ API エラーが発生しました: " ++ e ++ [Js.LF; Js.LF]
             ++ Js.lit "設定を確認してください。長すぎるメッセージの場合は、内容を短くしてお試しください。"
        /\ hasSummarize (snd out) = true).
Proof.
  assert (F : Home.fetchChat true oracle random req
              = Api.Responded (Api.Chat.errorResponse e)).
  { unfold Home.fetchChat.
    now rewrite (chat_route_on_vendor_error oracle random req st v e). }
  split; [|split; [exact F | split; [reflexivity|]]].
  - intros now task s. cbn [Home.fetchChat Home.onChatSettled fst snd].
    repeat match goal with |- _ /\ _ => split end; try reflexivity.
    cbn [Home.folders Home.setFolders Home.setIsLoading].
    apply mapConversations_updatesAt. by_cases_on_id.
  - intros now task s. rewrite F. cbn [Home.onChatSettled fst snd].
    repeat match goal with |- _ /\ _ => split end; try reflexivity.
    cbn [Home.folders Home.setFolders].
    apply mapConversations_updatesAt. by_cases_on_id.
Qed.

Lemma completion_failure_witness :
  Home.fetchChat true failing 0
    (Api.Chat.mkRequest [Api.mkChatMessage (Js.lit "user") (Js.lit "hi")]
                        (Some openai_settings))
  = Api.Responded (Api.Chat.errorResponse (Js.lit "boom")).
Proof.
  refine (proj1 (proj2
            (completion_failure_paths failing 0
               (Api.Chat.mkRequest [Api.mkChatMessage (Js.lit "user") (Js.lit "hi")]
                                   (Some openai_settings))
               openai_settings Api.OpenAI (Js.lit "boom") _ _ _ _)));
    reflexivity.
Defined.

(** C4, the claim as stated fails for a failure of the vendor. With a key
    configured and a vendor call that throws, the message sent to
    conversation ["a"] is answered by the route's error text, not by the
    apology, and the summary request is issued. *)
Lemma vendor_failure_is_not_answered_by_the_apology :
  exists s1 task body call,
    Home.handleSendMessage false 10 (Some openai_settings) (Js.lit "hi") race_s0
    = Some (s1, task, [Home.FetchChat body])
    /\ snd (Api.Chat.POST failing 0 (Api.Parsed body)) = [call]
    /\ failing call = Api.Threw (Js.lit "boom")
    /\ let out := Home.onChatSettled 20 task (Home.fetchChat true failing 0 body) s1 in
       contentsById (Home.folders (fst out))
       = [ (Js.lit "a",
            [Js.lit "hi"; Api.Chat.message (Api.Chat.errorResponse (Js.lit "boom"))]);
           (Js.lit "b", []) ]
       /\ Api.Chat.message (Api.Chat.errorResponse (Js.lit "boom")) <> Home.apology
       /\ hasSummarize (snd out) = true.
Proof.
  eexists _, _, _, _. split; [reflexivity|].
  split; [reflexivity|]. split; [reflexivity|].
  split; [reflexivity|]. split; [|reflexivity].
  intros H. vm_compute in H. discriminate H.
Qed.

(** ** The summary *)

(** A summary request that fails in transport changes no conversation:
    the handler logs and goes on. *)
Lemma summary_transport_failure_keeps_collection now task oracle body s :
  let out := Home.onSummarySettled now task (Home.fetchSummarize false oracle body) s in
  Home.folders (fst out) = Home.folders s
  /\ In (Home.ConsoleError (Js.lit "Failed to generate summary:")) (snd out).
Proof.
  cbn [Home.fetchSummarize Home.onSummarySettled fst snd].
  split; [reflexivity|]. now left.
Qed.

(** What the summarize route answers when the vendor call throws, and
    what the handler does with it: the route's status is 500, its body
    carries the fallback summary of the empty transcript, and the handler,
    which does not look at the status, writes that text into the
    conversation's document. *)
Lemma summary_vendor_failure_is_merged now task oracle body st v e s :
  Api.Summarize.settings body = Some st ->
  Api.noApiKey (Some st) = false ->
  Api.vendorOf (Api.provider st) = Some v ->
  oracle (Api.mkCall v (Api.apiKey st) (Api.model st)
            (Api.truncateTo Api.Summarize.MAX_MESSAGES (Api.Summarize.messages body)))
  = Api.Threw e ->
  Home.fetchSummarize true oracle body
  = Api.Responded (Api.Summarize.mkResponse 500 Api.Summarize.emptySummary true (Some e))
  /\ updatesAt (Home.convIdToUpdate task)
       (fun c => Conversation.mk (Conversation.id c) (Conversation.title c)
                   (Conversation.messages c) Api.Summarize.emptySummary
                   (Conversation.tags c) (Conversation.isPinned c)
                   (Conversation.createdAt c) now)
       (Home.folders s)
       (Home.folders
          (fst (Home.onSummarySettled now task
                  (Home.fetchSummarize true oracle body) s))).
Proof.
  intros S K V O.
  assert (F : Home.fetchSummarize true oracle body
              = Api.Responded
                  (Api.Summarize.mkResponse 500 Api.Summarize.emptySummary true (Some e))).
  { unfold Home.fetchSummarize, Api.Summarize.POST. rewrite S, K, V, O. reflexivity. }
  split; [exact F|]. rewrite F.
  cbn [Home.onSummarySettled fst Home.folders Home.setFolders Home.setIsLoading
       Api.Summarize.summary].
  apply mapConversations_updatesAt. by_cases_on_id.
Qed.

(** C3. A run in which the summary fails at the vendor: conversation
    ["a"] holds the document ["doc"]; the message is sent with a key
    configured, the chat vendor answers, the summary vendor throws. The
    summarize route reports status 500, and the conversation's document is
    replaced by the text for an empty transcript. *)
Theorem summary_vendor_failure_overwrites_document :
  exists s1 task chatBody s2 summaryBody call,
    Home.handleSendMessage false 10 (Some openai_settings) (Js.lit "hi") race_s0
    = Some (s1, task, [Home.FetchChat chatBody])
    /\ Home.onChatSettled 20 task (Home.fetchChat true answering 0 chatBody) s1
       = (s2, [Home.FetchSummarize summaryBody])
    /\ Api.Summarize.POST failing (Api.Parsed summaryBody)
       = (Api.Summarize.mkResponse 500 Api.Summarize.emptySummary true
                                   (Some (Js.lit "boom")), [call])
    /\ failing call = Api.Threw (Js.lit "boom")
    /\ documentsById (Home.folders s2)
       = [ (Js.lit "a", Js.lit "doc"); (Js.lit "b", Js.lit "doc") ]
    /\ documentsById
         (Home.folders
            (fst (Home.onSummarySettled 30 task
                    (Home.fetchSummarize true failing summaryBody) s2)))
       = [ (Js.lit "a", Api.Summarize.emptySummary); (Js.lit "b", Js.lit "doc") ]
    /\ Api.Summarize.emptySummary <> Js.lit "doc".
Proof.
  eexists _, _, _, _, _, _. split; [reflexivity|].
  split; [reflexivity|]. split; [reflexivity|]. split; [reflexivity|].
  split; [reflexivity|]. split; [reflexivity|].
  intros H. vm_compute in H. discriminate H.
Qed.

(** ** The import: ordering of the nodes *)

Lemma compareFn_le (x y : ImportDialog.Node.t) :
  Qle_bool (ImportDialog.compareFn x y) 0 = true <-> keyLe x y.
Proof.
  rewrite Qle_bool_iff. unfold ImportDialog.compareFn, keyLe.
  rewrite <- (Qplus_le_l _ _ (ImportDialog.sortKey y)).
  setoid_replace (ImportDialog.sortKey x - ImportDialog.sortKey y
                  + ImportDialog.sortKey y)%Q
    with (ImportDialog.sortKey x) by ring.
  setoid_replace (0 + ImportDialog.sortKey y)%Q
    with (ImportDialog.sortKey y) by ring.
  reflexivity.
Qed.

Lemma compareFn_gt (x y : ImportDialog.Node.t) :
  Qle_bool (ImportDialog.compareFn x y) 0 = false ->
  (ImportDialog.sortKey y < ImportDialog.sortKey x)%Q.
Proof.
  intros H. apply Qnot_le_lt. intros L.
  apply compareFn_le in L. congruence.
Qed.

Lemma insertNode_perm x l : Permutation (x :: l) (ImportDialog.insertNode x l).
Proof.
  induction l as [|y l IH]; simpl; [reflexivity|].
  destruct (Qle_bool _ _); [reflexivity|].
  rewrite perm_swap. now constructor.
Qed.

Lemma sortNodes_perm l : Permutation l (ImportDialog.sortNodes l).
Proof.
  induction l as [|x l IH]; simpl; [constructor|].
  rewrite <- insertNode_perm. now constructor.
Qed.

Lemma keyLe_trans a b c : keyLe a b -> keyLe b c -> keyLe a c.
Proof. unfold keyLe. apply Qle_trans. Qed.

Lemma insertNode_sorted x l :
  StronglySorted keyLe l -> StronglySorted keyLe (ImportDialog.insertNode x l).
Proof.
  induction l as [|y l IH]; simpl; intros S.
  - constructor; constructor.
  - inversion S as [|y' l' Sl Fy]; subst.
    destruct (Qle_bool (ImportDialog.compareFn x y) 0) eqn:C.
    + apply compareFn_le in C. constructor; [assumption|].
      constructor; [assumption|].
      eapply Forall_impl; [|exact Fy]. intros z Hz. eapply keyLe_trans; eauto.
    + apply compareFn_gt in C. constructor; [now apply IH|].
      eapply Permutation_Forall; [apply insertNode_perm|].
      constructor; [|assumption]. unfold keyLe. now apply Qlt_le_weak.
Qed.

Lemma sortNodes_sorted l : StronglySorted keyLe (ImportDialog.sortNodes l).
Proof.
  induction l as [|x l IH]; simpl; [constructor|]. now apply insertNode_sorted.
Qed.






(** ** The import: from nodes to messages *)

Lemma visit_emits node messages :
  ImportDialog.hasParts node = true -> namesAuthor node = true ->
  ImportDialog.visit node messages = ImportDialog.Ok (messages ++ emitted node).
Proof.
  unfold ImportDialog.hasParts, namesAuthor, ImportDialog.visit, emitted.
  destruct (ImportDialog.Node.message node) as [| |msg]; try discriminate.
  destruct (ImportDialog.ChatGPTMessage.content msg) as [| |c]; try discriminate.
  destruct (ImportDialog.Content.parts c) as [| |ps]; try discriminate.
  intros _.
  destruct (ImportDialog.ChatGPTMessage.author msg) as [| |a]; try discriminate.
  intros _.
  destruct (ImportDialog.keptRole _) as [role|]; [|now rewrite app_nil_r].
  destruct (Js.truthy _); simpl; [reflexivity | now rewrite app_nil_r].
Qed.

Lemma visit_throws node messages :
  ImportDialog.hasParts node = true -> namesAuthor node = false ->
  ImportDialog.visit node messages = ImportDialog.TypeError.
Proof.
  unfold ImportDialog.hasParts, namesAuthor, ImportDialog.visit.
  destruct (ImportDialog.Node.message node) as [| |msg]; try discriminate.
  intros _.
  destruct (ImportDialog.ChatGPTMessage.author msg) as [| |a];
    try discriminate; reflexivity.
Qed.

Lemma forNodes_emits nodes messages :
  Forall (fun n => ImportDialog.hasParts n = true /\ namesAuthor n = true) nodes ->
  ImportDialog.forNodes nodes messages
  = ImportDialog.Ok (messages ++ flat_map emitted nodes).
Proof.
  intros F. revert messages.
  induction F as [|node nodes [Hp Ha] F IH]; intros messages; simpl.
  - now rewrite app_nil_r.
  - rewrite (visit_emits _ _ Hp Ha), IH, <- app_assoc. reflexivity.
Qed.

Lemma forNodes_throws nodes messages :
  Forall (fun n => ImportDialog.hasParts n = true) nodes ->
  Exists (fun n => namesAuthor n = false) nodes ->
  ImportDialog.forNodes nodes messages = ImportDialog.TypeError.
Proof.
  intros F E. revert messages.
  induction F as [|node nodes Hp F IH]; intros messages.
  - inversion E.
  - simpl. destruct (namesAuthor node) eqn:Ha.
    + rewrite (visit_emits _ _ Hp Ha). apply IH.
      inversion E as [? ? Hbad|? ? Hrest]; subst; [congruence | assumption].
    + now rewrite (visit_throws _ _ Hp Ha).
Qed.


Lemma emitted_length node :
  List.length (emitted node) = if contributes node then 1%nat else 0%nat.
Proof.
  unfold contributes, emitted.
  destruct (ImportDialog.Node.message node) as [| |msg]; try reflexivity.
  destruct (ImportDialog.ChatGPTMessage.author msg) as [| |a]; try reflexivity.
  destruct (ImportDialog.ChatGPTMessage.content msg) as [| |c]; try reflexivity.
  destruct (ImportDialog.keptRole _) as [role|]; try reflexivity.
  destruct (ImportDialog.Content.parts c) as [| |ps]; try reflexivity.
  destruct (Js.truthy _); reflexivity.
Qed.



Lemma convert_emits stamp conv mapping :
  ImportDialog.ChatGPTConversation.mapping conv = ImportDialog.Has mapping ->
  (forall node, In node (map snd mapping) ->
                ImportDialog.hasParts node = true -> namesAuthor node = true) ->
  let messages :=
    flat_map emitted
      (ImportDialog.sortNodes (filter ImportDialog.hasParts (map snd mapping))) in
  ImportDialog.convert stamp conv
  = ImportDialog.Ok
      (if (0 <? List.length messages)%nat
       then Some (conversationOf stamp conv messages)
       else None).
Proof.
  intros Hm Ha messages. unfold ImportDialog.convert. rewrite Hm.
  rewrite forNodes_emits.
  - cbn [app]. fold messages. destruct (0 <? List.length messages)%nat; reflexivity.
  - apply Forall_forall. intros n Hn.
    apply (Permutation_in _ (Permutation_sym (sortNodes_perm _))) in Hn.
    apply filter_In in Hn. destruct Hn as [Hin Hp]. split; auto.
Qed.








(** ** The import: a file with malformed records *)

Lemma convert_throw_any_stamp stamp stamp' conv :
  ImportDialog.convert stamp conv = ImportDialog.TypeError ->
  ImportDialog.convert stamp' conv = ImportDialog.TypeError.
Proof.
  unfold ImportDialog.convert.
  destruct (ImportDialog.ChatGPTConversation.mapping conv); try reflexivity.
  destruct (ImportDialog.forNodes _ _); [|reflexivity].
  destruct (0 <? _)%nat; discriminate.
Qed.

Lemma convert_empty_any_stamp stamp stamp' conv :
  ImportDialog.convert stamp conv = ImportDialog.Ok None ->
  ImportDialog.convert stamp' conv = ImportDialog.Ok None.
Proof.
  unfold ImportDialog.convert.
  destruct (ImportDialog.ChatGPTConversation.mapping conv); try discriminate.
  destruct (ImportDialog.forNodes _ _); [|discriminate].
  destruct (0 <? _)%nat; [discriminate | reflexivity].
Qed.

Lemma convert_classifies stamp conv :
  match ImportDialog.convert stamp conv with
  | ImportDialog.Ok (Some _) => malformed conv = false /\ withoutMessages conv = false
  | ImportDialog.Ok None => malformed conv = false /\ withoutMessages conv = true
  | ImportDialog.TypeError => malformed conv = true /\ withoutMessages conv = false
  end.
Proof.
  unfold malformed, withoutMessages.
  destruct (ImportDialog.convert stamp conv) as [[c|]|] eqn:C.
  - destruct (ImportDialog.convert [] conv) as [[c0|]|] eqn:C0; [now split| |].
    + apply (convert_empty_any_stamp _ stamp) in C0. congruence.
    + apply (convert_throw_any_stamp _ stamp) in C0. congruence.
  - now rewrite (convert_empty_any_stamp _ [] _ C).
  - now rewrite (convert_throw_any_stamp _ [] _ C).
Qed.

Lemma parseLoop_spec stamps k data conversations console :
  ImportDialog.parseLoop stamps k (map ImportDialog.Record data)
                         conversations console
  = ImportDialog.Ok
      (conversations ++ importedFrom stamps k data,
       console ++ map ImportDialog.ChatGPTConversation.id (filter malformed data)).
Proof.
  revert k conversations console.
  induction data as [|conv rest IH]; intros k conversations console.
  - simpl. now rewrite !app_nil_r.
  - cbn [ImportDialog.parseLoop importedFrom filter map].
    pose proof (convert_classifies (stamps k) conv) as H.
    destruct (ImportDialog.convert (stamps k) conv) as [[c|]|];
      destruct H as [-> _]; rewrite IH; cbn [map]; rewrite <- ?app_assoc;
      reflexivity.
Qed.

Lemma import_counts stamps k data :
  List.length data
  = (List.length (importedFrom stamps k data)
     + List.length (filter malformed data)
     + List.length (filter withoutMessages data))%nat.
Proof.
  revert k. induction data as [|conv rest IH]; intros k; [reflexivity|].
  cbn [importedFrom filter List.length].
  pose proof (convert_classifies (stamps k) conv) as H.
  destruct (ImportDialog.convert (stamps k) conv) as [[c|]|];
    destruct H as [-> ->]; cbn [List.length]; rewrite (IH (S k)); lia.
Qed.

Lemma importedFrom_In stamps k data c :
  In c (importedFrom stamps k data)
  <-> exists i conv,
        nth_error data i = Some conv
        /\ ImportDialog.convert (stamps (k + i)%nat) conv = ImportDialog.Ok (Some c).
Proof.
  revert k. induction data as [|conv rest IH]; intros k; simpl.
  - split; [contradiction|]. intros (i & conv & H & _). now destruct i.
  - split.
    + intros H.
      destruct (ImportDialog.convert (stamps k) conv) as [[c0|]|] eqn:C;
        try (apply IH in H; destruct H as (i & conv' & Hn & Hc);
             exists (S i), conv'; split; [exact Hn|];
             now rewrite Nat.add_succ_r).
      destruct H as [->|H].
      * exists 0%nat, conv. split; [reflexivity|]. now rewrite Nat.add_0_r.
      * apply IH in H. destruct H as (i & conv' & Hn & Hc).
        exists (S i), conv'. split; [exact Hn|]. now rewrite Nat.add_succ_r.
    + intros (i & conv' & Hn & Hc). destruct i as [|i].
      * injection Hn as <-. rewrite Nat.add_0_r in Hc. rewrite Hc. now left.
      * rewrite Nat.add_succ_r in Hc.
        assert (In c (importedFrom stamps (S k) rest)) by (apply IH; eauto).
        destruct (ImportDialog.convert (stamps k) conv) as [[c0|]|];
          [now right | assumption | assumption].
Qed.

(** A [null] among the elements ends the loop with the [TypeError] of
    the handler, wherever it stands; and a list without [null] is a list
    of records. *)
Lemma parseLoop_null stamps k elements conversations console :
  In ImportDialog.NullElement elements ->
  ImportDialog.parseLoop stamps k elements conversations console
  = ImportDialog.TypeError.
Proof.
  revert k conversations console.
  induction elements as [|e rest IH]; intros k conversations console H;
    [destruct H|].
  destruct e as [|conv]; [reflexivity|].
  destruct H as [H|H]; [discriminate|].
  cbn [ImportDialog.parseLoop].
  destruct (ImportDialog.convert (stamps k) conv) as [[c|]|]; now apply IH.
Qed.

Lemma elements_cases (elements : list ImportDialog.Element) :
  In ImportDialog.NullElement elements
  \/ exists data, elements = map ImportDialog.Record data.
Proof.
  induction elements as [|e rest [H|[data ->]]].
  - right. now exists [].
  - left. now right.
  - destruct e as [|conv]; [left; now left|].
    right. now exists (conv :: data).
Qed.

Lemma null_element_fails_the_import stamps typeError fileName elements :
  Js.endsWith fileName (Js.lit ".json") = true ->
  In ImportDialog.NullElement elements ->
  ImportDialog.handleFileSelect stamps typeError fileName
    (ImportDialog.IsArray elements)
  = (ImportDialog.mkResult false 0 0 [typeError], None).
Proof.
  intros Hname H. unfold ImportDialog.handleFileSelect. rewrite Hname.
  cbn [negb]. unfold ImportDialog.parseChatGPTExport.
  now rewrite parseLoop_null.
Qed.

(** What makes a record malformed: its [mapping] is absent, or one of
    its nodes has content parts and a message that names no author. *)
Lemma malformed_iff (conv : ImportDialog.ChatGPTConversation.t) :
  malformed conv = true
  <-> match ImportDialog.ChatGPTConversation.mapping conv with
      | ImportDialog.Has mapping =>
          exists node, In node (map snd mapping)
                       /\ ImportDialog.hasParts node = true
                       /\ namesAuthor node = false
      | _ => True
      end.
Proof.
  unfold malformed.
  destruct (ImportDialog.ChatGPTConversation.mapping conv) as [| |mapping] eqn:M.
  - unfold ImportDialog.convert. rewrite M. tauto.
  - unfold ImportDialog.convert. rewrite M. tauto.
  - destruct (forallb namesAuthor (filter ImportDialog.hasParts (map snd mapping)))
      eqn:A.
    + rewrite forallb_forall in A.
      assert (C : exists r, ImportDialog.convert [] conv = ImportDialog.Ok r).
      { eexists. apply (convert_emits [] conv mapping M).
        intros node Hin Hp. apply A. apply filter_In. auto. }
      destruct C as [r ->].
      split; [discriminate|].
      intros (node & Hin & Hp & Ha).
      rewrite A in Ha; [discriminate|]. apply filter_In. auto.
    + assert (E : Exists (fun n => namesAuthor n = false)
                         (filter ImportDialog.hasParts (map snd mapping))).
      { apply Exists_exists.
        destruct (existsb (fun n => negb (namesAuthor n))
                          (filter ImportDialog.hasParts (map snd mapping))) eqn:X.
        - apply existsb_exists in X. destruct X as (n & Hn & Hb).
          exists n. split; [assumption|]. now apply negb_true_iff.
        - exfalso. assert (forallb namesAuthor
                             (filter ImportDialog.hasParts (map snd mapping)) = true).
          { apply forallb_forall. intros n Hn.
            destruct (namesAuthor n) eqn:N; [reflexivity|].
            assert (existsb (fun n => negb (namesAuthor n))
                            (filter ImportDialog.hasParts (map snd mapping)) = true).
            { apply existsb_exists. exists n. split; [assumption|]. now rewrite N. }
            congruence. }
          congruence. }
      split.
      * intros _. apply Exists_exists in E. destruct E as (n & Hn & Ha).
        apply filter_In in Hn. destruct Hn as [Hin Hp]. eauto.
      * intros _. unfold ImportDialog.convert. rewrite M.
        rewrite forNodes_throws; [reflexivity| |].
        -- apply Forall_forall. intros n Hn.
           apply (Permutation_in _ (Permutation_sym (sortNodes_perm _))) in Hn.
           apply filter_In in Hn. tauto.
        -- apply Exists_exists in E. destruct E as (n & Hn & Ha).
           apply Exists_exists. exists n. split; [|assumption].
           now apply (Permutation_in _ (sortNodes_perm _)).
Qed.

(** C5 (as amended). For a file that is an array of records, none of
    its elements being [null]: the conversations handed on are exactly
    those of the records that convert to a conversation, in file order;
    the result is a success whose [errors] list is empty; [imported]
    counts those conversations and [skipped] counts every other record,
    the malformed ones and the ones without any message alike. The
    malformed records leave their trace on the console only, one entry
    each. *)
Theorem import_skips_malformed_records
    (stamps : nat -> jsstring) (typeError fileName : jsstring)
    (data : list ImportDialog.ChatGPTConversation.t)
    (Hname : Js.endsWith fileName (Js.lit ".json") = true) :
  let elements := map ImportDialog.Record data in
  let out := ImportDialog.handleFileSelect stamps typeError fileName
               (ImportDialog.IsArray elements) in
  snd out = Some (importedFrom stamps 0 data)
  /\ (forall c,
        In c (importedFrom stamps 0 data)
        <-> exists i conv,
              nth_error data i = Some conv
              /\ ImportDialog.convert (stamps i) conv = ImportDialog.Ok (Some c))
  /\ ImportDialog.success (fst out) = true
  /\ ImportDialog.errors (fst out) = []
  /\ ImportDialog.imported (fst out)
     = Z.of_nat (List.length (importedFrom stamps 0 data))
  /\ ImportDialog.skipped (fst out)
     = Z.of_nat (List.length (filter malformed data))
       + Z.of_nat (List.length (filter withoutMessages data))
  /\ ImportDialog.parseChatGPTExport stamps elements
     = ImportDialog.Ok
         (importedFrom stamps 0 data,
          map ImportDialog.ChatGPTConversation.id (filter malformed data)).
Proof.
  intros elements out. unfold out, elements, ImportDialog.handleFileSelect.
  rewrite Hname. cbn [negb]. unfold ImportDialog.parseChatGPTExport.
  rewrite parseLoop_spec. cbn [fst snd app ImportDialog.success
    ImportDialog.errors ImportDialog.imported ImportDialog.skipped].
  repeat match goal with |- _ /\ _ => split end; try reflexivity.
  - intros c. apply (importedFrom_In stamps 0 data c).
  - rewrite length_map. rewrite (import_counts stamps 0 data) at 1. lia.
Qed.

Lemma import_skips_witness :
  exists c,
    snd (ImportDialog.handleFileSelect clock_text (Js.lit "TypeError")
           (Js.lit "export.json")
           (ImportDialog.IsArray
              [ImportDialog.Record bad_record; ImportDialog.Record good_record]))
    = Some [c]
    /\ ImportDialog.Conversation.id c = Js.lit "imported-c1".
Proof.
  eexists. split.
  - refine (eq_trans (proj1 (import_skips_malformed_records clock_text
                               (Js.lit "TypeError") (Js.lit "export.json")
                               [bad_record; good_record] _)) _);
      reflexivity.
  - reflexivity.
Defined.

(** C5, the claim as stated fails on its second half: the first record
    has no [mapping] and converting it throws, the second is well-formed;
    the result holds the second record's conversation, and its [errors]
    list is empty, the first record being counted as skipped. *)
Lemma malformed_record_leaves_no_error_entry :
  let out := ImportDialog.handleFileSelect clock_text (Js.lit "TypeError")
               (Js.lit "export.json")
               (ImportDialog.IsArray
                  [ImportDialog.Record bad_record;
                   ImportDialog.Record good_record]) in
  ImportDialog.convert (clock_text 0%nat) bad_record = ImportDialog.TypeError
  /\ (exists c, ImportDialog.convert (clock_text 1%nat) good_record
                = ImportDialog.Ok (Some c)
                /\ snd out = Some [c])
  /\ fst out = ImportDialog.mkResult true 1 1 []
  /\ List.length (ImportDialog.errors (fst out)) <> 1%nat.
Proof.
  split; [reflexivity|]. split; [eexists; split; reflexivity|].
  split; [reflexivity|]. simpl. discriminate.
Qed.

(* ================================================================== *)
(** * Further properties of the store handlers *)
(* ================================================================== *)

Lemma without_flat_map convId (prev : list Folder.t) :
  allConversations
    (map (fun folder =>
            Folder.with_conversations
              (without convId (Folder.conversations folder)) folder) prev)
  = without convId (allConversations prev).
Proof.
  unfold allConversations, without.
  induction prev as [|folder prev IH]; simpl; [reflexivity|].
  now rewrite filter_app, IH.
Qed.

Lemma in_ids_iff convId (l : list Conversation.t) :
  In convId (map Conversation.id l)
  <-> exists c, In c l /\ Conversation.id c = convId.
Proof.
  rewrite in_map_iff. split; intros (c & H1 & H2); exists c; auto.
Qed.

Lemma without_ids convId other (l : list Conversation.t) :
  other <> convId ->
  In other (map Conversation.id l) ->
  In other (map Conversation.id (without convId l)).
Proof.
  intros Hne H. apply in_ids_iff in H. destruct H as (c & Hin & Hid).
  apply in_ids_iff. exists c. split; [|assumption].
  apply filter_In. split; [assumption|].
  apply negb_true_iff, eqb_neq. congruence.
Qed.

(** X1. [handleConversationDelete] removes every conversation with the
    id, in whichever folders they are, and nothing else: folders keep their
    ids, names and order, the other conversations keep their places. The
    selection is cleared exactly when it named the deleted id, so a valid
    selection stays valid; and a collection without the id is returned as
    it is. Folder by folder: each folder is returned with its own
    conversations except those with the id, in their order, and with its
    other fields as they were; the loading flag is not touched. *)
Theorem conversation_delete_removes_everywhere (convId : jsstring) (s : Home.State) :
  let s' := Home.handleConversationDelete convId s in
  allConversations (Home.folders s')
  = without convId (allConversations (Home.folders s))
  /\ map Folder.id (Home.folders s') = map Folder.id (Home.folders s)
  /\ map Folder.name (Home.folders s') = map Folder.name (Home.folders s)
  /\ ~ In convId (map Conversation.id (allConversations (Home.folders s')))
  /\ Home.activeConversationId s'
     = match Home.activeConversationId s with
       | Some a => if Js.eqb convId a then None else Some a
       | None => None
       end
  /\ (validSelection s -> validSelection s')
  /\ (~ In convId (map Conversation.id (allConversations (Home.folders s))) ->
      Home.folders s' = Home.folders s)
  /\ Home.folders s'
     = map (fun folder =>
              Folder.mk (Folder.id folder) (Folder.name folder)
                (filter (fun c => negb (Js.eqb (Conversation.id c) convId))
                        (Folder.conversations folder))
                (Folder.isExpanded folder))
           (Home.folders s)
  /\ Home.isLoading s' = Home.isLoading s.
Proof.
  intros s'.
  assert (F : Home.folders s'
              = map (fun folder =>
                       Folder.with_conversations
                         (without convId (Folder.conversations folder)) folder)
                    (Home.folders s)).
  { unfold s', Home.handleConversationDelete.
    destruct s as [fs [a|] ld]; simpl; [|reflexivity].
    destruct (Js.eqb convId a); reflexivity. }
  assert (A : Home.activeConversationId s'
              = match Home.activeConversationId s with
                | Some a => if Js.eqb convId a then None else Some a
                | None => None
                end).
  { unfold s', Home.handleConversationDelete.
    destruct s as [fs [a|] ld]; simpl; [|reflexivity].
    destruct (Js.eqb convId a); reflexivity. }
  assert (C : allConversations (Home.folders s')
              = without convId (allConversations (Home.folders s)))
    by (rewrite F; apply without_flat_map).
  repeat match goal with |- _ /\ _ => split end.
  - exact C.
  - rewrite F, map_map. reflexivity.
  - rewrite F, map_map. reflexivity.
  - rewrite C. intros H. apply in_ids_iff in H. destruct H as (c & Hin & Hid).
    apply filter_In in Hin. destruct Hin as [_ Hb].
    rewrite Hid, eqb_refl in Hb. discriminate.
  - exact A.
  - unfold validSelection. rewrite A, C.
    destruct (Home.activeConversationId s) as [a|]; [|trivial].
    destruct (Js.eqb convId a) eqn:E; [trivial|].
    apply eqb_neq in E. apply without_ids. congruence.
  - intros Habsent. rewrite F. rewrite <- (map_id (Home.folders s)) at 2.
    apply map_ext_in. intros folder Hf.
    rewrite without_all_other; [apply with_conversations_same|].
    intros c Hc Hid. apply Habsent. apply in_ids_iff. exists c. split; [|assumption].
    unfold allConversations. apply in_flat_map. eauto.
  - rewrite F. apply map_ext. intros folder. now destruct folder.
  - unfold s', Home.handleConversationDelete.
    destruct s as [fs [a|] ld]; simpl; [|reflexivity].
    destruct (Js.eqb convId a); reflexivity.
Qed.





(** ** Moving and importing: what becomes of the conversations *)

Lemma same_id_same_conversation (l : list Conversation.t) a b :
  NoDup (map Conversation.id l) -> In a l -> In b l ->
  Conversation.id a = Conversation.id b -> a = b.
Proof.
  intros Hnd Ha Hb E.
  pose proof (find_by_id_unique l a Hnd Ha) as Fa.
  pose proof (find_by_id_unique l b Hnd Hb) as Fb.
  rewrite E in Fa. congruence.
Qed.

Lemma moveConversation_found convId targetFolderId prev conv :
  lastFound convId prev None = Some conv ->
  Home.moveConversation convId targetFolderId prev
  = map (relocate convId targetFolderId conv) prev.
Proof.
  intros L. unfold Home.moveConversation. rewrite moveRemove_fold, L. simpl.
  rewrite map_map. apply map_ext. intros folder. unfold relocate. simpl.
  destruct (Js.eqb (Folder.id folder) targetFolderId); simpl; [reflexivity|].
  now destruct folder.
Qed.

Lemma moveConversation_as_removal convId targetFolderId prev :
  ~ In targetFolderId (map Folder.id prev) ->
  Home.moveConversation convId targetFolderId prev
  = map (fun folder =>
           Folder.with_conversations
             (without convId (Folder.conversations folder)) folder) prev.
Proof.
  intros Hmissing. unfold Home.moveConversation. rewrite moveRemove_fold. simpl.
  destruct (lastFound convId prev None) as [conv|]; [|reflexivity].
  rewrite map_map. apply map_ext_in. intros folder Hf. simpl.
  destruct (Js.eqb (Folder.id folder) targetFolderId) eqn:E; [|reflexivity].
  apply eqb_eq in E. exfalso. apply Hmissing. rewrite <- E. now apply in_map.
Qed.

Lemma relocated_conversations convId targetFolderId conv prev :
  NoDup (map Folder.id prev) -> In targetFolderId (map Folder.id prev) ->
  Permutation (allConversations (map (relocate convId targetFolderId conv) prev))
              (conv :: without convId (allConversations prev)).
Proof.
  induction prev as [|folder prev IH]; intros Hnd Hin; [contradiction|].
  inversion Hnd as [|i il Hnotin Hnd']; subst.
  cbn [map]. rewrite !allConversations_cons.
  assert (W : without convId (Folder.conversations folder ++ allConversations prev)
              = without convId (Folder.conversations folder)
                ++ without convId (allConversations prev))
    by apply filter_app.
  rewrite W. clear W.
  unfold relocate at 1. cbn [Folder.conversations Folder.with_conversations].
  destruct (Js.eqb (Folder.id folder) targetFolderId) eqn:E.
  - apply eqb_eq in E. cbn [app]. constructor. apply Permutation_app_head.
    assert (R : map (relocate convId targetFolderId conv) prev
                = map (fun f => Folder.with_conversations
                                  (without convId (Folder.conversations f)) f) prev).
    { apply map_ext_in. intros f Hf. unfold relocate.
      destruct (Js.eqb (Folder.id f) targetFolderId) eqn:Ef; [|reflexivity].
      apply eqb_eq in Ef. exfalso. apply Hnotin.
      rewrite E, <- Ef. now apply in_map. }
    rewrite R, without_flat_map. reflexivity.
  - apply eqb_neq in E. cbn [app].
    destruct Hin as [Hin|Hin]; [contradiction|].
    rewrite (IH Hnd' Hin). apply Permutation_sym, Permutation_middle.
Qed.

Lemma taken_out_and_put_back (l : list Conversation.t) c :
  NoDup (map Conversation.id l) -> In c l ->
  Permutation l (c :: without (Conversation.id c) l).
Proof.
  induction l as [|x l IH]; intros Hnd Hin; [contradiction|].
  inversion Hnd as [|i il Hnotin Hnd']; subst.
  destruct Hin as [->|Hin].
  - unfold without. cbn [filter]. rewrite eqb_refl. cbn [negb].
    constructor. fold (without (Conversation.id c) l).
    rewrite without_all_other; [reflexivity|].
    intros y Hy E. apply Hnotin. rewrite <- E. now apply in_map.
  - unfold without. cbn [filter].
    destruct (Js.eqb (Conversation.id x) (Conversation.id c)) eqn:E.
    + apply eqb_eq in E. exfalso. apply Hnotin. rewrite E. now apply in_map.
    + cbn [negb]. fold (without (Conversation.id c) l).
      rewrite perm_swap. constructor. now apply IH.
Qed.

(** X3. Between folders [handleConversationMove] loses and duplicates
    nothing: with pairwise distinct conversation ids and folder ids, and a
    target folder that exists, the conversations after the move are those
    before, rearranged; the folders keep their ids and order. *)
Theorem move_conserves_conversations
    (convId targetFolderId : jsstring) (prev : list Folder.t)
    (Hconvs : NoDup (map Conversation.id (allConversations prev)))
    (Hfolders : NoDup (map Folder.id prev))
    (Htarget : In targetFolderId (map Folder.id prev)) :
  Permutation (allConversations prev)
              (allConversations (Home.moveConversation convId targetFolderId prev))
  /\ map Folder.id (Home.moveConversation convId targetFolderId prev)
     = map Folder.id prev.
Proof.
  destruct (lastFound convId prev None) as [conv|] eqn:L.
  - rewrite (moveConversation_found _ _ _ _ L).
    apply lastFound_origin in L. destruct L as [L|[Hin Hid]]; [discriminate|].
    split.
    + rewrite relocated_conversations by assumption.
      subst convId. now apply taken_out_and_put_back.
    + rewrite map_map. reflexivity.
  - assert (Habsent : forall x, In x (allConversations prev) ->
                                Conversation.id x <> convId).
    { intros x Hx E.
      now apply (lastFound_some convId prev None x Hx E). }
    unfold Home.moveConversation. rewrite moveRemove_fold, L. simpl.
    assert (R : map (fun folder =>
                       Folder.with_conversations
                         (without convId (Folder.conversations folder)) folder) prev
                = prev).
    { rewrite <- (map_id prev) at 2. apply map_ext_in. intros folder Hf.
      rewrite without_all_other; [apply with_conversations_same|].
      intros x Hx. apply Habsent. unfold allConversations.
      apply in_flat_map. eauto. }
    rewrite R. split; reflexivity.
Qed.

Lemma move_conserves_witness :
  let a := sample_conversation (Js.lit "a") false 1 in
  let b := sample_conversation (Js.lit "b") false 2 in
  let prev := [ Folder.mk (Js.lit "f") (Js.lit "F") [a; b] true;
                Folder.mk (Js.lit "g") (Js.lit "G") [] true ] in
  Permutation [a; b]
    (allConversations (Home.moveConversation (Js.lit "a") (Js.lit "g") prev)).
Proof.
  intros a b prev.
  refine (proj1 (move_conserves_conversations (Js.lit "a") (Js.lit "g") prev _ _ _)).
  - repeat constructor; simpl; intuition discriminate.
  - repeat constructor; simpl; intuition discriminate.
  - simpl. right. left. reflexivity.
Defined.

(** X4. A move to a folder id that no folder has deletes the
    conversation: it is taken out of its folder and put nowhere, the rest
    of the collection staying as it is. Folder by folder: each folder is
    returned with its own conversations except those with the id, in
    their order, and with its other fields as they were. *)
Theorem move_to_missing_folder_drops
    (convId targetFolderId : jsstring) (prev : list Folder.t)
    (Hmissing : ~ In targetFolderId (map Folder.id prev)) :
  allConversations (Home.moveConversation convId targetFolderId prev)
  = without convId (allConversations prev)
  /\ ~ In convId
       (map Conversation.id
            (allConversations (Home.moveConversation convId targetFolderId prev)))
  /\ map Folder.id (Home.moveConversation convId targetFolderId prev)
     = map Folder.id prev
  /\ Home.moveConversation convId targetFolderId prev
     = map (fun folder =>
              Folder.mk (Folder.id folder) (Folder.name folder)
                (filter (fun c => negb (Js.eqb (Conversation.id c) convId))
                        (Folder.conversations folder))
                (Folder.isExpanded folder))
           prev.
Proof.
  rewrite (moveConversation_as_removal _ _ _ Hmissing), without_flat_map.
  split; [reflexivity|]. split; [|split].
  - intros H. apply in_ids_iff in H. destruct H as (c & Hin & Hid).
    apply filter_In in Hin. destruct Hin as [_ Hb].
    rewrite Hid, eqb_refl in Hb. discriminate.
  - rewrite map_map. reflexivity.
  - apply map_ext. intros folder. now destruct folder.
Qed.

Lemma move_to_missing_folder_witness :
  let a := sample_conversation (Js.lit "a") false 1 in
  let b := sample_conversation (Js.lit "b") false 2 in
  let prev := [ Folder.mk (Js.lit "f") (Js.lit "F") [a; b] true ] in
  allConversations (Home.moveConversation (Js.lit "a") (Js.lit "nowhere") prev)
  = [b].
Proof.
  intros a b prev.
  refine (eq_trans (proj1 (move_to_missing_folder_drops
                             (Js.lit "a") (Js.lit "nowhere") prev _)) _).
  - simpl. intros [H|[]]. discriminate H.
  - reflexivity.
Defined.

Lemma import_folders conversations targetFolderId s :
  Home.folders (Home.handleImport conversations targetFolderId s)
  = map (fun folder =>
           if Js.eqb (Folder.id folder) targetFolderId
           then Folder.with_conversations
                  (conversations ++ Folder.conversations folder) folder
           else folder) (Home.folders s).
Proof.
  unfold Home.handleImport.
  assert (E : forall l,
             map (fun folder =>
                    if negb (Js.eqb (Folder.id folder) targetFolderId) then folder
                    else Folder.with_conversations
                           (conversations ++ Folder.conversations folder) folder) l
             = map (fun folder =>
                      if Js.eqb (Folder.id folder) targetFolderId
                      then Folder.with_conversations
                             (conversations ++ Folder.conversations folder) folder
                      else folder) l).
  { intros l. apply map_ext. intros folder.
    now destruct (Js.eqb (Folder.id folder) targetFolderId). }
  destruct conversations as [|first rest]; simpl; apply E.
Qed.

Lemma import_selection conversations targetFolderId s :
  Home.activeConversationId (Home.handleImport conversations targetFolderId s)
  = match conversations with
    | first :: _ => Some (Conversation.id first)
    | [] => Home.activeConversationId s
    end.
Proof. unfold Home.handleImport. now destruct conversations. Qed.

Lemma imported_conversations conversations targetFolderId prev :
  NoDup (map Folder.id prev) -> In targetFolderId (map Folder.id prev) ->
  Permutation
    (allConversations
       (map (fun folder =>
               if Js.eqb (Folder.id folder) targetFolderId
               then Folder.with_conversations
                      (conversations ++ Folder.conversations folder) folder
               else folder) prev))
    (conversations ++ allConversations prev).
Proof.
  induction prev as [|folder prev IH]; intros Hnd Hin; [contradiction|].
  inversion Hnd as [|i il Hnotin Hnd']; subst.
  cbn [map]. rewrite !allConversations_cons.
  destruct (Js.eqb (Folder.id folder) targetFolderId) eqn:E.
  - apply eqb_eq in E. cbn [Folder.conversations Folder.with_conversations].
    rewrite <- app_assoc. do 2 apply Permutation_app_head.
    assert (R : map (fun f =>
                       if Js.eqb (Folder.id f) targetFolderId
                       then Folder.with_conversations
                              (conversations ++ Folder.conversations f) f
                       else f) prev = prev).
    { rewrite <- (map_id prev) at 2. apply map_ext_in. intros f Hf.
      destruct (Js.eqb (Folder.id f) targetFolderId) eqn:Ef; [|reflexivity].
      apply eqb_eq in Ef. exfalso. apply Hnotin. rewrite E, <- Ef.
      now apply in_map. }
    rewrite R. reflexivity.
  - apply eqb_neq in E. destruct Hin as [Hin|Hin]; [contradiction|].
    rewrite (IH Hnd' Hin).
    rewrite !app_assoc. apply Permutation_app_tail, Permutation_app_comm.
Qed.

(** X5. [handleImport] into a folder that exists, folder ids being
    pairwise distinct: the collection afterwards holds the imported
    conversations and the former ones, nothing lost; the first imported
    conversation is selected, and that selection is valid. *)
Theorem import_adds_and_selects
    (conversations : list Conversation.t) (targetFolderId : jsstring)
    (s : Home.State)
    (Hfolders : NoDup (map Folder.id (Home.folders s)))
    (Htarget : In targetFolderId (map Folder.id (Home.folders s)))
    (Hvalid : validSelection s) :
  let s' := Home.handleImport conversations targetFolderId s in
  Permutation (allConversations (Home.folders s'))
              (conversations ++ allConversations (Home.folders s))
  /\ map Folder.id (Home.folders s') = map Folder.id (Home.folders s)
  /\ Home.activeConversationId s'
     = match conversations with
       | first :: _ => Some (Conversation.id first)
       | [] => Home.activeConversationId s
       end
  /\ validSelection s'.
Proof.
  intros s'.
  assert (P : Permutation (allConversations (Home.folders s'))
                          (conversations ++ allConversations (Home.folders s))).
  { unfold s'. rewrite import_folders. now apply imported_conversations. }
  split; [exact P|]. split; [|split].
  - unfold s'. rewrite import_folders, map_map. apply map_ext.
    intros folder. now destruct (Js.eqb (Folder.id folder) targetFolderId).
  - apply import_selection.
  - unfold validSelection. unfold s' at 1. rewrite import_selection.
    destruct conversations as [|first rest].
    + unfold validSelection in Hvalid.
      destruct (Home.activeConversationId s) as [a|]; [|exact I].
      apply in_ids_iff in Hvalid. destruct Hvalid as (c & Hc & Hid).
      apply in_ids_iff. exists c. split; [|assumption].
      apply (Permutation_in _ (Permutation_sym P)). exact Hc.
    + apply in_ids_iff. exists first. split; [|reflexivity].
      apply (Permutation_in _ (Permutation_sym P)). now left.
Qed.

Lemma import_adds_witness :
  let a := sample_conversation (Js.lit "a") false 1 in
  let b := sample_conversation (Js.lit "imported-b") false 2 in
  let s := Home.mkState [ Folder.mk (Js.lit "f") (Js.lit "F") [a] true ] None false in
  validSelection (Home.handleImport [b] (Js.lit "f") s)
  /\ Home.activeConversationId (Home.handleImport [b] (Js.lit "f") s)
     = Some (Js.lit "imported-b").
Proof.
  intros a b s.
  destruct (import_adds_and_selects [b] (Js.lit "f") s) as (_ & _ & A & V).
  - repeat constructor; simpl; intuition discriminate.
  - simpl. left. reflexivity.
  - exact I.
  - split; [exact V | exact A].
Defined.



(** ** Pins and tags *)

Ltac same_state s :=
  let fs := fresh "fs" in let act := fresh "act" in let ld := fresh "ld" in
  destruct s as [fs act ld]; unfold Home.setFolders;
  cbn [Home.folders Home.activeConversationId Home.isLoading] in *; f_equal.

Lemma mapConversations_compose f g prev :
  Home.mapConversations f (Home.mapConversations g prev)
  = Home.mapConversations (fun c => f (g c)) prev.
Proof.
  unfold Home.mapConversations. rewrite map_map. apply map_ext.
  intros folder. simpl. now rewrite map_map.
Qed.

Lemma mapConversations_ext_in f g prev :
  (forall c, In c (allConversations prev) -> f c = g c) ->
  Home.mapConversations f prev = Home.mapConversations g prev.
Proof.
  intros H. unfold Home.mapConversations. apply map_ext_in. intros folder Hf.
  f_equal. apply map_ext_in. intros c Hc. apply H.
  unfold allConversations. apply in_flat_map. eauto.
Qed.

Lemma mapConversations_fixed f prev :
  (forall c, In c (allConversations prev) -> f c = c) ->
  Home.mapConversations f prev = prev.
Proof.
  intros H. unfold Home.mapConversations.
  rewrite <- (map_id prev) at 2. apply map_ext_in. intros folder Hf.
  rewrite <- (with_conversations_same folder) at 3. f_equal.
  rewrite <- (map_id (Folder.conversations folder)) at 2.
  apply map_ext_in. intros c Hc. apply H.
  unfold allConversations. apply in_flat_map. eauto.
Qed.

(** X7. Toggling the pin of a conversation twice gives back the state
    as it was, every field of every conversation included. *)
Theorem pin_toggle_twice_restores (convId : jsstring) (s : Home.State) :
  Home.handleTogglePin convId (Home.handleTogglePin convId s) = s.
Proof.
  unfold Home.handleTogglePin. same_state s.
  rewrite mapConversations_compose. apply mapConversations_fixed.
  intros c _. unfold Home.togglePin.
  destruct (Js.eqb (Conversation.id c) convId) eqn:E; [|now rewrite E].
  simpl. rewrite E. destruct c. simpl. now rewrite negb_involutive.
Qed.

Lemma tag_present_iff tagId (tags : list ConversationTag.t) :
  existsb (fun t => Js.eqb (ConversationTag.id t) tagId) tags = true
  <-> In tagId (map ConversationTag.id tags).
Proof.
  rewrite existsb_exists, in_map_iff.
  split; intros (t & H1 & H2); exists t.
  - split; [now apply eqb_eq | assumption].
  - split; [assumption | now apply eqb_eq].
Qed.

Lemma addTag_tags convId tag c :
  Conversation.tags (Home.addTag convId tag c)
  = if Js.eqb (Conversation.id c) convId
       && negb (existsb (fun t => Js.eqb (ConversationTag.id t)
                                         (ConversationTag.id tag))
                        (Conversation.tags c))
    then Conversation.tags c ++ [tag]
    else Conversation.tags c.
Proof.
  unfold Home.addTag. destruct (Js.eqb (Conversation.id c) convId); simpl;
    [|reflexivity].
  now destruct (existsb _ _).
Qed.

Lemma addTag_id convId tag c :
  Conversation.id (Home.addTag convId tag c) = Conversation.id c.
Proof.
  unfold Home.addTag. destruct (negb _); [reflexivity|].
  now destruct (existsb _ _).
Qed.

(** X8. Attaching a tag: afterwards every conversation with the id
    carries the tag's id; attaching the same tag again changes nothing;
    and tag ids that were pairwise distinct within each conversation stay
    so. *)
Theorem attach_tag_once (convId : jsstring) (tag : ConversationTag.t)
    (s : Home.State)
    (Hdistinct : forall c, In c (allConversations (Home.folders s)) ->
                   NoDup (map ConversationTag.id (Conversation.tags c))) :
  let s' := Home.handleAddTag convId tag s in
  Home.handleAddTag convId tag s' = s'
  /\ (forall c', In c' (allConversations (Home.folders s')) ->
        NoDup (map ConversationTag.id (Conversation.tags c'))
        /\ (Conversation.id c' = convId ->
            In (ConversationTag.id tag)
               (map ConversationTag.id (Conversation.tags c')))).
Proof.
  intros s'. split.
  - unfold s', Home.handleAddTag. same_state s.
    rewrite mapConversations_compose. apply mapConversations_ext_in.
    intros c _. unfold Home.addTag at 1. rewrite addTag_id.
    destruct (Js.eqb (Conversation.id c) convId) eqn:E; [|reflexivity].
    cbn [negb]. rewrite addTag_tags, E. cbn [andb].
    destruct (existsb _ (Conversation.tags c)) eqn:X; cbn [negb].
    + now rewrite X.
    + rewrite existsb_app. simpl. rewrite eqb_refl, orb_true_r. reflexivity.
  - intros c' Hc'. unfold s', Home.handleAddTag in Hc'.
    cbn [Home.folders Home.setFolders] in Hc'.
    rewrite allConversations_mapConversations in Hc'.
    apply in_map_iff in Hc'. destruct Hc' as (c & <- & Hc).
    rewrite addTag_id, addTag_tags. specialize (Hdistinct c Hc).
    destruct (Js.eqb (Conversation.id c) convId) eqn:E; cbn [andb].
    + destruct (existsb _ (Conversation.tags c)) eqn:X; cbn [negb].
      * split; [assumption|]. intros _. now apply tag_present_iff.
      * split.
        -- rewrite map_app. simpl. apply NoDup_app_remove_l with (l := []).
           simpl. apply Permutation_NoDup with
             (l := ConversationTag.id tag :: map ConversationTag.id (Conversation.tags c)).
           ++ apply Permutation_cons_append.
           ++ constructor; [|assumption]. intros H.
              apply tag_present_iff in H. congruence.
        -- intros _. rewrite map_app. apply in_or_app. right. now left.
    + split; [assumption|]. intros H. apply eqb_neq in E. contradiction.
Qed.

Lemma attach_tag_witness :
  let tag := ConversationTag.mk (Js.lit "tag-3") (Js.lit "n") (Js.lit "blue") in
  let s := Home.mkState
             [ Folder.mk (Js.lit "f") (Js.lit "F")
                 [sample_conversation (Js.lit "a") false 1] true ] None false in
  Home.handleAddTag (Js.lit "a") tag (Home.handleAddTag (Js.lit "a") tag s)
  = Home.handleAddTag (Js.lit "a") tag s.
Proof.
  intros tag s.
  refine (proj1 (attach_tag_once (Js.lit "a") tag s _)).
  simpl. intros c [<-|[]]. constructor.
Defined.

Lemma removeTag_spec convId tagId c :
  Home.removeTag convId tagId c
  = if Js.eqb (Conversation.id c) convId
    then Conversation.with_tags
           (filter (fun t => negb (Js.eqb (ConversationTag.id t) tagId))
                   (Conversation.tags c)) c
    else c.
Proof. reflexivity. Qed.

Lemma filter_absent_tag tagId (tags : list ConversationTag.t) :
  ~ In tagId (map ConversationTag.id tags) ->
  filter (fun t => negb (Js.eqb (ConversationTag.id t) tagId)) tags = tags.
Proof.
  induction tags as [|t tags IH]; simpl; intros H; [reflexivity|].
  destruct (Js.eqb (ConversationTag.id t) tagId) eqn:E.
  - apply eqb_eq in E. exfalso. apply H. now left.
  - simpl. rewrite IH; [reflexivity|]. intros Hin. apply H. now right.
Qed.

(** X9. Detaching a tag: afterwards no conversation with the id carries
    a tag of that id; a tag id that none of them carries leaves the state
    as it is; and detaching a tag right after attaching it to conversations
    that did not carry its id gives back the state before the attachment. *)
Theorem detach_tag (convId tagId : jsstring) (s : Home.State) :
  let s' := Home.handleRemoveTag convId tagId s in
  (forall c', In c' (allConversations (Home.folders s')) ->
     Conversation.id c' = convId ->
     ~ In tagId (map ConversationTag.id (Conversation.tags c')))
  /\ ((forall c, In c (allConversations (Home.folders s)) ->
         Conversation.id c = convId ->
         ~ In tagId (map ConversationTag.id (Conversation.tags c))) ->
      s' = s)
  /\ (forall tag,
        ConversationTag.id tag = tagId ->
        (forall c, In c (allConversations (Home.folders s)) ->
           Conversation.id c = convId ->
           ~ In tagId (map ConversationTag.id (Conversation.tags c))) ->
        Home.handleRemoveTag convId tagId (Home.handleAddTag convId tag s) = s).
Proof.
  intros s'. split; [|split].
  - intros c' Hc' Hid. unfold s', Home.handleRemoveTag in Hc'.
    cbn [Home.folders Home.setFolders] in Hc'.
    rewrite allConversations_mapConversations in Hc'.
    apply in_map_iff in Hc'. destruct Hc' as (c & <- & Hc).
    rewrite removeTag_spec in *.
    destruct (Js.eqb (Conversation.id c) convId) eqn:E.
    + simpl. intros H. apply in_map_iff in H. destruct H as (t & Ht & Hin).
      apply filter_In in Hin. destruct Hin as [_ Hb].
      rewrite Ht, eqb_refl in Hb. discriminate.
    + apply eqb_neq in E. contradiction.
  - intros Habsent. unfold s', Home.handleRemoveTag. same_state s.
    apply mapConversations_fixed. intros c Hc. rewrite removeTag_spec.
    destruct (Js.eqb (Conversation.id c) convId) eqn:E; [|reflexivity].
    apply eqb_eq in E. rewrite (filter_absent_tag _ _ (Habsent c Hc E)).
    now destruct c.
  - intros tag Htag Habsent. unfold Home.handleRemoveTag, Home.handleAddTag.
    same_state s.
    rewrite mapConversations_compose. apply mapConversations_fixed.
    intros c Hc. rewrite removeTag_spec, addTag_id.
    destruct (Js.eqb (Conversation.id c) convId) eqn:E.
    + pose proof (Habsent c Hc (proj1 (eqb_eq _ _) E)) as Hno.
      assert (X : existsb (fun t => Js.eqb (ConversationTag.id t)
                                           (ConversationTag.id tag))
                          (Conversation.tags c) = false).
      { destruct (existsb _ _) eqn:X; [|reflexivity].
        apply tag_present_iff in X. rewrite Htag in X. contradiction. }
      rewrite addTag_tags, E, X. cbn [andb negb].
      rewrite filter_app. cbn [filter]. rewrite Htag, eqb_refl. cbn [negb].
      rewrite app_nil_r, (filter_absent_tag _ _ Hno).
      unfold Home.addTag. rewrite E. cbn [negb]. rewrite X.
      now destruct c.
    + unfold Home.addTag. rewrite E. reflexivity.
Qed.

(* ================================================================== *)
(** * Properties of the array idioms *)
(* ================================================================== *)

Lemma seen_iff (k : jsstring) (seen : list jsstring) :
  existsb (Js.eqb k) seen = true <-> In k seen.
Proof.
  rewrite existsb_exists. split.
  - intros (x & Hx & E). apply eqb_eq in E. now subst.
  - intros H. exists k. split; [assumption | apply eqb_refl].
Qed.

Section FilterUnseen.
Context {A : Type} (key : A -> jsstring).

Lemma filterUnseen_keys seen l k :
  In k (map key (JsArray.filterUnseen key seen l))
  <-> In k (map key l) /\ ~ In k seen.
Proof.
  revert seen. induction l as [|x r IH]; intros seen; simpl; [tauto|].
  destruct (existsb (Js.eqb (key x)) seen) eqn:S.
  - apply seen_iff in S. rewrite IH. split; [tauto|].
    intros [[<-|H] Hn]; [contradiction | tauto].
  - assert (Hx : ~ In (key x) seen).
    { intros H. apply seen_iff in H. congruence. }
    simpl. rewrite IH. simpl. split.
    + intros [<-|[H Hn]]; [tauto|]. split; [tauto|]. intros Hk. apply Hn. now right.
    + intros [[<-|H] Hn]; [now left|].
      destruct (Js.eqb (key x) k) eqn:E.
      * apply eqb_eq in E. now left.
      * apply eqb_neq in E. right. split; [assumption|].
        intros [Hk|Hk]; [contradiction | contradiction].
Qed.

Lemma filterUnseen_NoDup seen l :
  NoDup (map key (JsArray.filterUnseen key seen l)).
Proof.
  revert seen. induction l as [|x r IH]; intros seen; simpl; [constructor|].
  destruct (existsb (Js.eqb (key x)) seen); [apply IH|].
  simpl. constructor; [|apply IH].
  intros H. apply filterUnseen_keys in H. destruct H as [_ H]. apply H. now left.
Qed.

Lemma filterUnseen_In seen l x :
  In x (JsArray.filterUnseen key seen l) -> In x l.
Proof.
  revert seen. induction l as [|y r IH]; intros seen; simpl; [tauto|].
  destruct (existsb (Js.eqb (key y)) seen).
  - intros H. right. eapply IH; eassumption.
  - intros [->|H]; [now left|]. right. eapply IH; eassumption.
Qed.

Lemma filterUnseen_sorted (R : A -> A -> Prop) seen l :
  StronglySorted R l -> StronglySorted R (JsArray.filterUnseen key seen l).
Proof.
  intros S. revert seen. induction S as [|x r S IH F]; intros seen; simpl;
    [constructor|].
  destruct (existsb (Js.eqb (key x)) seen); [apply IH|].
  constructor; [apply IH|].
  apply Forall_forall. intros y Hy. apply filterUnseen_In in Hy.
  rewrite Forall_forall in F. now apply F.
Qed.

Lemma filterUnseen_distinct seen l :
  NoDup (map key l) -> (forall x, In x l -> ~ In (key x) seen) ->
  JsArray.filterUnseen key seen l = l.
Proof.
  revert seen. induction l as [|x r IH]; intros seen Hnd Hs; [reflexivity|].
  simpl. inversion Hnd as [|k ks Hnotin Hnd']; subst.
  destruct (existsb (Js.eqb (key x)) seen) eqn:S.
  - apply seen_iff in S. exfalso. apply (Hs x); [now left | assumption].
  - f_equal. apply IH; [assumption|].
    intros y Hy [Hk|Hk].
    + apply Hnotin. rewrite Hk. now apply in_map.
    + apply (Hs y); [now right | assumption].
Qed.

(** The filter that keeps an element where [findIndex] of its key gives
    its own index does the same as the filter with a set of keys seen. *)
Lemma findIndexFrom_first (p : A -> bool) i pre x r :
  p x = true ->
  (JsArray.findIndexFrom p i (pre ++ x :: r) =? i + Z.of_nat (List.length pre))
  = negb (existsb p pre).
Proof.
  intros Hx. revert i. induction pre as [|y pre IH]; intros i; simpl.
  - rewrite Hx, Z.add_0_r. apply Z.eqb_refl.
  - destruct (p y); simpl.
    + apply Z.eqb_neq. lia.
    + rewrite <- IH with (i := i + 1). f_equal. lia.
Qed.

Lemma filterFrom_unseen self post pre seen :
  self = pre ++ post ->
  (forall k, existsb (Js.eqb k) seen = existsb (fun y => Js.eqb (key y) k) pre) ->
  JsArray.filterFrom
    (fun x index =>
       JsArray.findIndex (fun t => Js.eqb (key t) (key x)) self =? index)
    (Z.of_nat (List.length pre)) post
  = JsArray.filterUnseen key seen post.
Proof.
  revert pre seen. induction post as [|x r IH]; intros pre seen Hs Hseen;
    [reflexivity|].
  cbn [JsArray.filterFrom JsArray.filterUnseen].
  assert (E : (JsArray.findIndex (fun t => Js.eqb (key t) (key x)) self
               =? Z.of_nat (List.length pre))
              = negb (existsb (Js.eqb (key x)) seen)).
  { rewrite Hs, Hseen. unfold JsArray.findIndex.
    rewrite <- (findIndexFrom_first (fun t => Js.eqb (key t) (key x)) 0 pre x r)
      by apply eqb_refl.
    reflexivity. }
  rewrite E.
  assert (Step : JsArray.filterFrom
            (fun x0 index =>
               JsArray.findIndex (fun t => Js.eqb (key t) (key x0)) self =? index)
            (Z.of_nat (List.length pre) + 1) r
          = JsArray.filterUnseen key
              (if existsb (Js.eqb (key x)) seen then seen else key x :: seen) r).
  { replace (Z.of_nat (List.length pre) + 1)
      with (Z.of_nat (List.length (pre ++ [x])))
      by (rewrite length_app; simpl; lia).
    apply IH.
    - rewrite Hs, <- app_assoc. reflexivity.
    - intros k. rewrite existsb_app. simpl. rewrite orb_false_r.
      destruct (existsb (Js.eqb (key x)) seen) eqn:S.
      + rewrite Hseen.
        destruct (Js.eqb (key x) k) eqn:Ek; [|now rewrite orb_false_r].
        apply eqb_eq in Ek. subst k. rewrite orb_true_r.
        now rewrite <- Hseen.
      + simpl. rewrite Hseen, (eqb_sym k (key x)). apply orb_comm. }
  rewrite Step. now destruct (existsb (Js.eqb (key x)) seen).
Qed.

End FilterUnseen.

Section SortByRank.
Context {A : Type} (compareFn : A -> A -> Z) (rank : A -> Z).
Hypothesis compare_rank :
  forall x y, (compareFn x y <=? 0) = (rank x <=? rank y).

Lemma insertBy_perm x l : Permutation (x :: l) (JsArray.insertBy compareFn x l).
Proof.
  induction l as [|y l IH]; simpl; [reflexivity|].
  destruct (compareFn x y <=? 0); [reflexivity|].
  rewrite perm_swap. now constructor.
Qed.

Lemma sortBy_perm l : Permutation l (JsArray.sort compareFn l).
Proof.
  induction l as [|x l IH]; simpl; [constructor|].
  rewrite <- insertBy_perm. now constructor.
Qed.

Lemma insertBy_sorted x l :
  StronglySorted (fun a b => rank a <= rank b) l ->
  StronglySorted (fun a b => rank a <= rank b) (JsArray.insertBy compareFn x l).
Proof.
  induction l as [|y l IH]; simpl; intros S.
  - constructor; constructor.
  - inversion S as [|y' l' Sl Fy]; subst. rewrite compare_rank.
    destruct (rank x <=? rank y) eqn:C.
    + apply Z.leb_le in C. constructor; [assumption|].
      constructor; [assumption|].
      eapply Forall_impl; [|exact Fy]. simpl. intros z Hz. lia.
    + apply Z.leb_gt in C. constructor; [now apply IH|].
      eapply Permutation_Forall; [apply insertBy_perm|].
      constructor; [lia | assumption].
Qed.

Lemma sortBy_sorted l :
  StronglySorted (fun a b => rank a <= rank b) (JsArray.sort compareFn l).
Proof.
  induction l as [|x l IH]; simpl; [constructor|]. now apply insertBy_sorted.
Qed.

End SortByRank.

Lemma in_firstn {A : Type} n (l : list A) x : In x (firstn n l) -> In x l.
Proof.
  revert n. induction l as [|y r IH]; intros [|n]; simpl; try tauto.
  intros [->|H]; [now left | right; now apply (IH n)].
Qed.

Lemma firstn_sorted {A : Type} (R : A -> A -> Prop) n l :
  StronglySorted R l -> StronglySorted R (firstn n l).
Proof.
  intros S. revert n. induction S as [|x r S IH F]; intros [|n]; simpl;
    try constructor.
  - apply IH.
  - apply Forall_forall. intros y Hy. rewrite Forall_forall in F.
    apply F. now apply (in_firstn n).
Qed.

Lemma firstn_NoDup_keys {A : Type} (key : A -> jsstring) n l :
  NoDup (map key l) -> NoDup (map key (firstn n l)).
Proof.
  revert n. induction l as [|x r IH]; intros [|n] H; simpl; try constructor.
  - inversion H as [|k ks Hnotin Hnd]; subst.
    intros Hin. apply Hnotin. apply in_map_iff in Hin.
    destruct Hin as (y & E & Hy). apply in_map_iff. exists y.
    split; [assumption|]. now apply (in_firstn n).
  - inversion H; subst. now apply IH.
Qed.

Lemma filterUnseen_first {A : Type} (key : A -> jsstring) seen l x :
  In x (JsArray.filterUnseen key seen l) ->
  find (fun u => Js.eqb (key u) (key x)) l = Some x.
Proof.
  revert seen. induction l as [|y r IH]; intros seen; simpl; [tauto|].
  destruct (existsb (Js.eqb (key y)) seen) eqn:S.
  - intros H. pose proof (in_map key _ _ H) as K.
    apply filterUnseen_keys in K. destruct K as [_ K].
    destruct (Js.eqb (key y) (key x)) eqn:E.
    + apply eqb_eq in E. apply seen_iff in S. rewrite E in S. contradiction.
    + eapply IH; eassumption.
  - intros [->|H]; [now rewrite eqb_refl|].
    pose proof (in_map key _ _ H) as K.
    apply filterUnseen_keys in K. destruct K as [_ K].
    destruct (Js.eqb (key y) (key x)) eqn:E.
    + apply eqb_eq in E. exfalso. apply K. now left.
    + eapply IH; eassumption.
Qed.

Lemma filterUnseen_length {A : Type} (key : A -> jsstring) seen l :
  (List.length (JsArray.filterUnseen key seen l) <= List.length l)%nat.
Proof.
  revert seen. induction l as [|y r IH]; intros seen; simpl; [lia|].
  destruct (existsb (Js.eqb (key y)) seen).
  - specialize (IH seen). lia.
  - specialize (IH (key y :: seen)). simpl. lia.
Qed.

Lemma filter_of_map {A B : Type} (f : A -> B) (p : B -> bool) l :
  filter p (map f l) = map f (filter (fun x => p (f x)) l).
Proof.
  induction l as [|x l IH]; simpl; [reflexivity|].
  destruct (p (f x)); simpl; now rewrite IH.
Qed.

(* ================================================================== *)
(** * Further properties of what the page shows *)
(* ================================================================== *)

(** X10. [allTags], the tags the page offers: among the tags of all
    conversations, in their order, it keeps for each tag id the first tag
    that has it. So its ids are pairwise distinct, every id carried by a
    conversation is offered, and nothing else. *)
Theorem all_tags_first_of_each_id (folders : list Folder.t) :
  let tags := flat_map Conversation.tags (allConversations folders) in
  NoDup (map ConversationTag.id (HomeView.allTags folders))
  /\ (forall k, In k (map ConversationTag.id (HomeView.allTags folders))
                <-> In k (map ConversationTag.id tags))
  /\ (forall t, In t (HomeView.allTags folders) ->
        find (fun u => Js.eqb (ConversationTag.id u) (ConversationTag.id t)) tags
        = Some t).
Proof.
  intros tags.
  assert (E : HomeView.allTags folders
              = JsArray.filterUnseen ConversationTag.id [] tags).
  { unfold HomeView.allTags, JsArray.filterIndexed. fold tags.
    apply (filterFrom_unseen ConversationTag.id tags tags [] []);
      [reflexivity | intros k; reflexivity]. }
  rewrite E. split; [apply filterUnseen_NoDup|]. split.
  - intros k. rewrite filterUnseen_keys. simpl. tauto.
  - intros t. apply filterUnseen_first.
Qed.

Lemma insert_by_pin x (P U : list Explorer.Document.t) :
  Forall (fun d => Explorer.pinned d = true) P ->
  Forall (fun d => Explorer.pinned d = false) U ->
  JsArray.insertBy Explorer.pinCompare x (P ++ U)
  = if Explorer.pinned x then x :: P ++ U else P ++ x :: U.
Proof.
  intros HP HU. induction HP as [|y P Hy HP IH]; simpl.
  - destruct HU as [|y U Hy HU]; simpl; [now destruct (Explorer.pinned x)|].
    unfold Explorer.pinCompare. rewrite Hy.
    now destruct (Explorer.pinned x).
  - unfold Explorer.pinCompare at 1. rewrite Hy.
    destruct (Explorer.pinned x) eqn:Px; simpl; [reflexivity|].
    rewrite IH. reflexivity.
Qed.

Lemma sort_by_pin (l : list Explorer.Document.t) :
  JsArray.sort Explorer.pinCompare l
  = filter Explorer.pinned l ++ filter (fun d => negb (Explorer.pinned d)) l.
Proof.
  induction l as [|x l IH]; [reflexivity|].
  change (JsArray.sort Explorer.pinCompare (x :: l))
    with (JsArray.insertBy Explorer.pinCompare x
            (JsArray.sort Explorer.pinCompare l)).
  rewrite IH, insert_by_pin.
  - simpl. now destruct (Explorer.pinned x).
  - apply Forall_forall. intros d Hd. apply filter_In in Hd. tauto.
  - apply Forall_forall. intros d Hd. apply filter_In in Hd.
    destruct Hd as [_ Hd]. now destruct (Explorer.pinned d).
Qed.

(** X11. The explorer's [getSortedDocs]: of the documents it is given
    it keeps the first of each id, and shows the pinned ones of these, in
    their order, followed by the others, in their order. The ids shown are
    pairwise distinct and are exactly the ids given. *)
Theorem sorted_docs_pinned_first (docs : list Explorer.Document.t) :
  let uniqueDocs := JsArray.filterUnseen Explorer.Document.id [] docs in
  Explorer.getSortedDocs docs
  = filter Explorer.pinned uniqueDocs
    ++ filter (fun d => negb (Explorer.pinned d)) uniqueDocs
  /\ NoDup (map Explorer.Document.id (Explorer.getSortedDocs docs))
  /\ (forall k, In k (map Explorer.Document.id (Explorer.getSortedDocs docs))
                <-> In k (map Explorer.Document.id docs)).
Proof.
  intros uniqueDocs.
  assert (P : Permutation uniqueDocs (Explorer.getSortedDocs docs))
    by apply sortBy_perm.
  split; [apply sort_by_pin|]. split.
  - eapply Permutation_NoDup; [apply Permutation_map, P|].
    apply filterUnseen_NoDup.
  - intros k. split.
    + intros H.
      apply (Permutation_in _ (Permutation_sym (Permutation_map _ P))) in H.
      apply filterUnseen_keys in H. tauto.
    + intros H. apply (Permutation_in _ (Permutation_map _ P)).
      apply filterUnseen_keys. simpl. tauto.
Qed.

(** X12. What the explorer lists for the page's folders: in a folder
    whose conversations have pairwise distinct ids, the pinned
    conversations in the folder's order, then the others in the folder's
    order, none dropped. *)
Theorem explorer_lists_pinned_conversations_first (folders : list Folder.t)
    (Hdistinct : forall f, In f folders ->
                   NoDup (map Conversation.id (Folder.conversations f))) :
  map (fun ef => map Explorer.Document.id
                     (Explorer.getSortedDocs (Explorer.Folder.documents ef)))
      (HomeView.explorerFolders folders)
  = map (fun f =>
           map Conversation.id
               (filter Conversation.isPinned (Folder.conversations f)
                ++ filter (fun c => negb (Conversation.isPinned c))
                          (Folder.conversations f)))
        folders.
Proof.
  unfold HomeView.explorerFolders. rewrite map_map.
  apply map_ext_in. intros f Hf. cbn [Explorer.Folder.documents].
  unfold Explorer.getSortedDocs.
  rewrite filterUnseen_distinct.
  - rewrite sort_by_pin, map_app, !filter_of_map, !map_map.
    cbn [Explorer.Document.id]. unfold Explorer.pinned.
    cbn [Explorer.Document.isPinned].
    rewrite (map_app Conversation.id).
    f_equal; f_equal; apply filter_ext; intros c;
      now destruct (Conversation.isPinned c).
  - rewrite map_map. cbn [Explorer.Document.id]. now apply Hdistinct.
  - intros x _ [].
Qed.

Lemma explorer_lists_witness :
  let a := sample_conversation (Js.lit "a") false 1 in
  let b := sample_conversation (Js.lit "b") true 2 in
  let folders := [ Folder.mk (Js.lit "f") (Js.lit "F") [a; b] true ] in
  map (fun ef => map Explorer.Document.id
                     (Explorer.getSortedDocs (Explorer.Folder.documents ef)))
      (HomeView.explorerFolders folders)
  = [[Js.lit "b"; Js.lit "a"]].
Proof.
  intros a b folders.
  refine (eq_trans (explorer_lists_pinned_conversations_first folders _) _).
  - intros f [<-|[]]. simpl.
    constructor; [|constructor; [|constructor]]; simpl.
    + intros [H|[]]. vm_compute in H. discriminate.
    + tauto.
  - reflexivity.
Defined.

(* ================================================================== *)
(** * Properties of the model lists *)
(* ================================================================== *)

Lemma byFamily_rank x y :
  (Models.byFamily x y <=? 0) = (Models.familyIndex x <=? Models.familyIndex y).
Proof.
  unfold Models.byFamily. apply Bool.eq_true_iff_eq.
  rewrite !Z.leb_le. lia.
Qed.

Lemma familyIndex_range m :
  Models.isChatModel (Models.id m) = true -> 0 <= Models.familyIndex m <= 4.
Proof.
  unfold Models.isChatModel, Models.familyIndex, Models.order, JsArray.findIndex.
  cbn [JsArray.findIndexFrom]. intros H.
  destruct (Js.includes (Models.id m) (Js.lit "o3")); [lia|].
  destruct (Js.includes (Models.id m) (Js.lit "o1")); [lia|].
  destruct (Js.includes (Models.id m) (Js.lit "gpt-4o")); [lia|].
  destruct (Js.includes (Models.id m) (Js.lit "gpt-4")); [lia|].
  destruct (Js.includes (Models.id m) (Js.lit "gpt-3.5")); [lia|].
  discriminate.
Qed.

(** X13. The listing of OpenAI models, for any ids the vendor returns
    with an ok status: at most 15 models, with pairwise distinct ids, each
    an id of the vendor's list that names one of the chat families, with
    the display name [formatModelName] gives it, in the order of the
    families o3, o1, gpt-4o, gpt-4, gpt-3.5. When the vendor lists no more
    than 15 chat models, each of them is there. *)
Theorem openai_models_listing (ids : list jsstring) :
  exists ms,
    Models.fetchOpenAIModels (Models.Listed ids) = Some ms
    /\ (List.length ms <= 15)%nat
    /\ NoDup (map Models.id ms)
    /\ StronglySorted
         (fun a b => Models.familyIndex a <= Models.familyIndex b) ms
    /\ (forall m, In m ms ->
          In (Models.id m) ids
          /\ Models.isChatModel (Models.id m) = true
          /\ Models.name m = Models.formatModelName (Models.id m)
          /\ 0 <= Models.familyIndex m <= 4)
    /\ ((List.length (filter Models.isChatModel ids) <= 15)%nat ->
        forall modelId, In modelId ids -> Models.isChatModel modelId = true ->
          In modelId (map Models.id ms)).
Proof.
  set (listed := map (fun modelId =>
                        Models.mkModel modelId (Models.formatModelName modelId))
                     (filter Models.isChatModel ids)).
  set (chatModels := JsArray.sort Models.byFamily listed).
  set (unique := JsArray.filterUnseen Models.id [] chatModels).
  exists (firstn 15 unique).
  assert (P : Permutation listed chatModels) by apply sortBy_perm.
  assert (Hlisted : forall m, In m listed ->
            In (Models.id m) ids
            /\ Models.isChatModel (Models.id m) = true
            /\ Models.name m = Models.formatModelName (Models.id m)).
  { intros m Hm. apply in_map_iff in Hm. destruct Hm as (i & <- & Hi).
    apply filter_In in Hi. simpl. tauto. }
  split; [reflexivity|]. split; [apply firstn_le_length|].
  split; [apply firstn_NoDup_keys, filterUnseen_NoDup|].
  split.
  { apply firstn_sorted, filterUnseen_sorted.
    apply (sortBy_sorted Models.byFamily Models.familyIndex byFamily_rank). }
  split.
  - intros m Hm. apply in_firstn, filterUnseen_In in Hm.
    apply (Permutation_in _ (Permutation_sym P)) in Hm.
    destruct (Hlisted m Hm) as (H1 & H2 & H3).
    repeat split; try assumption; now apply familyIndex_range.
  - intros Hfew modelId Hin Hchat.
    rewrite firstn_all2.
    + unfold unique. apply filterUnseen_keys. split; [|tauto].
      apply (Permutation_in _ (Permutation_map _ P)).
      unfold listed. rewrite map_map. cbn [Models.id]. rewrite map_id.
      apply filter_In. tauto.
    + etransitivity; [apply filterUnseen_length|].
      rewrite <- (Permutation_length P). unfold listed.
      now rewrite length_map.
Qed.

(** X14. Changing the provider: [setProvider] saves as model the id of
    the first model of the list [fetchModels] returns, whatever became of
    the request for the list; and for each provider the routes know, the
    list is not empty. So with a key, the next chat request is passed on to
    that provider's vendor with that first model. *)
Theorem provider_change_selects_first_model
    (provider apiKey : jsstring) (outcome : UseAISettings.ModelsOutcome)
    (v : Api.Vendor) (oracle : Api.Oracle) (random : Q)
    (messages : list Api.ChatMessage)
    (Hkey : Js.truthy apiKey = true)
    (Hknown : Api.vendorOf provider = Some v) :
  let models := fst (UseAISettings.setProvider provider apiKey outcome) in
  let saved := snd (UseAISettings.setProvider provider apiKey outcome) in
  exists first,
    hd_error models = Some first
    /\ models = UseAISettings.fetchModels provider outcome
    /\ saved = Api.mkSettings provider apiKey (Models.id first)
    /\ snd (Api.Chat.POST oracle random
              (Api.Parsed (Api.Chat.mkRequest messages (Some saved))))
       = [Api.mkCall v apiKey (Models.id first)
            (Api.truncateTo Api.Chat.MAX_MESSAGES messages)].
Proof.
  intros models saved.
  assert (N : exists first rest,
            UseAISettings.fetchModels provider outcome = first :: rest).
  { unfold UseAISettings.fetchModels.
    assert (D : exists first rest,
              UseAISettings.DEFAULT_MODELS provider = first :: rest).
    { unfold UseAISettings.DEFAULT_MODELS. unfold Api.vendorOf in Hknown.
      destruct (Js.eqb provider (Js.lit "openai")); [eauto|].
      destruct (Js.eqb provider (Js.lit "anthropic")); [eauto|].
      destruct (Js.eqb provider (Js.lit "gemini")); [eauto|discriminate]. }
    destruct outcome as [| | |[[|m ms]|]]; eauto. }
  destruct N as (first & rest & F).
  assert (S : saved = Api.mkSettings provider apiKey (Models.id first)).
  { unfold saved, UseAISettings.setProvider. rewrite F. cbn [snd].
    now destruct (Models.id first). }
  exists first. split; [|split; [|split]].
  - unfold models, UseAISettings.setProvider. rewrite F. reflexivity.
  - reflexivity.
  - exact S.
  - rewrite S. unfold Api.Chat.POST.
    cbn [Api.Chat.settings Api.Chat.messages Api.noApiKey Api.apiKey
         Api.provider Api.model].
    rewrite Hkey, Hknown. cbn [negb].
    now destruct (oracle _).
Qed.

Lemma provider_change_witness :
  exists first,
    hd_error (fst (UseAISettings.setProvider (Js.lit "gemini") (Js.lit "k")
                     UseAISettings.StatusNotOk)) = Some first
    /\ Models.id first = Js.lit "gemini-2.0-flash".
Proof.
  destruct (provider_change_selects_first_model
              (Js.lit "gemini") (Js.lit "k") UseAISettings.StatusNotOk
              Api.Gemini (fun _ => Api.Returned []) 0 [] eq_refl eq_refl)
    as (first & H1 & H2 & H3 & H4).
  exists first. split; [exact H1|].
  vm_compute in H1. injection H1 as <-. reflexivity.
Defined.

(* ================================================================== *)
(** * Properties of the tag picker and of the chat form *)
(* ================================================================== *)

Lemma trimStart_fixed s : Js.trimStart (Js.trimStart s) = Js.trimStart s.
Proof.
  induction s as [|c s IH]; [reflexivity|]. simpl.
  destruct (Js.isWhiteSpace c) eqn:E; [assumption|]. simpl. now rewrite E.
Qed.

Lemma trimStart_split s : exists ws, s = ws ++ Js.trimStart s.
Proof.
  induction s as [|c s [ws IH]]; [now exists []|]. simpl.
  destruct (Js.isWhiteSpace c).
  - exists (c :: ws). simpl. now rewrite <- IH.
  - now exists [].
Qed.

Lemma trimStart_head s c r :
  Js.trimStart s = c :: r -> Js.isWhiteSpace c = false.
Proof.
  induction s as [|d s IH]; simpl; [discriminate|].
  destruct (Js.isWhiteSpace d) eqn:E; [assumption|].
  intros H. injection H as <- _. exact E.
Qed.

Lemma trimEnd_split t : exists ws, t = Js.trimEnd t ++ ws.
Proof.
  destruct (trimStart_split (rev t)) as [ws H].
  exists (rev ws). unfold Js.trimEnd.
  rewrite <- rev_app_distr, <- H. symmetry. apply rev_involutive.
Qed.

Lemma trimEnd_fixed t : Js.trimEnd (Js.trimEnd t) = Js.trimEnd t.
Proof.
  unfold Js.trimEnd. now rewrite rev_involutive, trimStart_fixed.
Qed.

Lemma trim_trimStart s : Js.trimStart (Js.trim s) = Js.trim s.
Proof.
  unfold Js.trim.
  destruct (Js.trimEnd (Js.trimStart s)) as [|c r] eqn:E; [reflexivity|].
  destruct (trimEnd_split (Js.trimStart s)) as [ws H]. rewrite E in H.
  simpl in H. apply trimStart_head in H. simpl. now rewrite H.
Qed.

Lemma trim_idempotent s : Js.trim (Js.trim s) = Js.trim s.
Proof.
  unfold Js.trim at 1. rewrite trim_trimStart. unfold Js.trim.
  apply trimEnd_fixed.
Qed.

(** X15. The tags the picker offers for a conversation are tags whose
    id the conversation does not carry. Attaching an offered tag puts it
    at the end of the conversation's tags, and from then on the picker no
    longer offers it, nor anything it did not offer before. *)
Theorem picker_offers_attachable_tags
    (conv : Conversation.t) (availableTags : list ConversationTag.t)
    (tag : ConversationTag.t)
    (Hoffered : In tag (TagManager.unassignedTags (Conversation.tags conv)
                                                   availableTags)) :
  let conv' := Home.addTag (Conversation.id conv) tag conv in
  ~ In (ConversationTag.id tag)
       (map ConversationTag.id (Conversation.tags conv))
  /\ Conversation.tags conv' = Conversation.tags conv ++ [tag]
  /\ ~ In tag (TagManager.unassignedTags (Conversation.tags conv') availableTags)
  /\ (forall t, In t (TagManager.unassignedTags (Conversation.tags conv')
                                                 availableTags) ->
        In t (TagManager.unassignedTags (Conversation.tags conv) availableTags)).
Proof.
  intros conv'.
  unfold TagManager.unassignedTags in Hoffered. apply filter_In in Hoffered.
  destruct Hoffered as [Hav Hnot]. apply negb_true_iff in Hnot.
  assert (T : Conversation.tags conv' = Conversation.tags conv ++ [tag]).
  { unfold conv'. rewrite addTag_tags, eqb_refl, Hnot. reflexivity. }
  split; [|split; [exact T|split]].
  - intros H. apply tag_present_iff in H. congruence.
  - rewrite T. unfold TagManager.unassignedTags. intros H.
    apply filter_In in H. destruct H as [_ H].
    rewrite existsb_app in H. simpl in H.
    rewrite eqb_refl, orb_true_r in H. discriminate.
  - intros t. rewrite T. unfold TagManager.unassignedTags.
    rewrite !filter_In, existsb_app, negb_orb, andb_true_iff. tauto.
Qed.

Lemma picker_offers_witness :
  let red := ConversationTag.mk (Js.lit "tag-1") (Js.lit "r") (Js.lit "red") in
  let conv := sample_conversation (Js.lit "a") false 1 in
  Conversation.tags (Home.addTag (Js.lit "a") red conv) = [red].
Proof.
  intros red conv.
  refine (proj1 (proj2 (picker_offers_attachable_tags conv [red] red _))).
  vm_compute. now left.
Defined.

(** X16. [getColorClasses] always finds classes in the palette: those
    of the colour named, or those of blue when the palette has no such
    colour. *)
Theorem color_classes_default_to_blue (colorName : jsstring) :
  exists c,
    TagManager.getColorClasses colorName = Some c
    /\ In c TagManager.TAG_COLORS
    /\ (TagManager.name c = colorName
        \/ (~ In colorName (map TagManager.name TagManager.TAG_COLORS)
            /\ TagManager.name c = Js.lit "blue")).
Proof.
  unfold TagManager.getColorClasses.
  destruct (find _ TagManager.TAG_COLORS) as [c|] eqn:F.
  - apply find_some in F. destruct F as [Hin E]. apply eqb_eq in E.
    exists c. tauto.
  - eexists. split; [reflexivity|]. split; [vm_compute; tauto|].
    right. split; [|reflexivity].
    intros H. apply in_map_iff in H. destruct H as (c & E & Hc).
    apply (find_none _ _ F) in Hc. rewrite E, eqb_refl in Hc. discriminate.
Qed.

(** X17. The chat form sends nothing while a reply is awaited or when
    the input is blank, and then leaves the input as typed. What it sends
    is the input without the white space around it, which is not empty and
    has no white space left to trim; the input field is cleared. *)
Theorem submit_sends_trimmed_text (input : jsstring) (isLoading : bool) :
  match ChatPanel.handleSubmit input isLoading with
  | (Some text, field) =>
      isLoading = false /\ text = Js.trim input /\ text <> []
      /\ Js.trim text = text /\ field = []
  | (None, field) =>
      (isLoading = true \/ Js.trim input = []) /\ field = input
  end.
Proof.
  unfold ChatPanel.handleSubmit.
  destruct (Js.trim input) as [|c r] eqn:T; simpl.
  - split; [now right | reflexivity].
  - destruct isLoading; simpl.
    + split; [now left | reflexivity].
    + repeat split; try discriminate. rewrite <- T. apply trim_idempotent.
Qed.

(* ================================================================== *)
(** * Further properties of sending a message *)
(* ================================================================== *)

Lemma appendUser_other convId um content now c :
  Conversation.id c <> convId ->
  Home.appendUser convId um content now c = c.
Proof.
  intros H. unfold Home.appendUser.
  destruct (Js.eqb (Conversation.id c) convId) eqn:E; [|reflexivity].
  apply eqb_eq in E. contradiction.
Qed.

(** X18. The first message, sent with no conversation selected, into a
    collection that has a folder and no conversation with the new id:
    a conversation is created at the front of the first folder, titled
    from the message, holding exactly that message, and is selected; the
    other conversations are as before. The chat request carries just that
    message, and the task has captured no earlier message, whether or not
    the insertion had been carried out when the closure read the
    collection. *)
Theorem first_send_creates_conversation
    (eager : bool) (now : Z) (settings : option Api.AISettings)
    (content : jsstring) (s : Home.State)
    (first : Folder.t) (rest : list Folder.t)
    (Hnone : match Home.activeConversationId s with
             | Some a => Js.truthy a = false
             | None => True
             end)
    (Hfolders : Home.folders s = first :: rest)
    (Hfresh : ~ In (Home.convId_at now)
                (map Conversation.id (allConversations (Home.folders s)))) :
  let sent := Message.mk (Js.lit "msg-" ++ Js.decimal now) user content now in
  let created :=
    Conversation.mk (Home.convId_at now) (Home.titleFrom content) [sent]
                    [] [] false now now in
  exists s1 task body,
    Home.handleSendMessage eager now settings content s
    = Some (s1, task, [Home.FetchChat body])
    /\ Home.folders s1
       = Folder.with_conversations (created :: Folder.conversations first) first
         :: rest
    /\ Home.activeConversationId s1 = Some (Home.convId_at now)
    /\ Home.isLoading s1 = true
    /\ Api.Chat.messages body = [Api.mkChatMessage (Js.lit "user") content]
    /\ Api.Chat.settings body = settings
    /\ Home.capturedMessages task = []
    /\ Home.convIdToUpdate task = Home.convId_at now.
Proof.
  intros sent created.
  set (newConv := Conversation.mk (Home.convId_at now) (Home.titleFrom content)
                                  [] [] [] false now now).
  assert (Hfirst : forall c, In c (Folder.conversations first) ->
                     Conversation.id c <> Home.convId_at now).
  { intros c Hc E. apply Hfresh. rewrite Hfolders, allConversations_cons.
    rewrite map_app. apply in_or_app. left. rewrite <- E. now apply in_map. }
  assert (C : Home.createOnFirstSend eager now content s
              = Some (Home.convId_at now,
                      Home.setActiveConversationId (Some (Home.convId_at now))
                        (Home.setFolders
                           (Folder.with_conversations
                              (newConv :: Folder.conversations first) first :: rest)
                           s),
                      if eager
                      then Folder.with_conversations
                             (newConv :: Folder.conversations first) first :: rest
                      else Home.folders s)).
  { unfold Home.createOnFirstSend. fold newConv. rewrite Hfolders.
    rewrite (insertIntoFirstFolder_inserts newConv first rest Hfirst).
    reflexivity. }
  assert (D : Home.handleSendMessage eager now settings content s
              = option_map
                  (fun t => Home.appendAndFetch now settings content
                              (fst (fst t)) (snd (fst t)) (snd t))
                  (Home.createOnFirstSend eager now content s)).
  { unfold Home.handleSendMessage.
    destruct (Home.activeConversationId s) as [a|].
    - rewrite Hnone. now destruct (Home.createOnFirstSend _ _ _ _) as [[[? ?] ?]|].
    - now destruct (Home.createOnFirstSend _ _ _ _) as [[[? ?] ?]|]. }
  rewrite D, C. cbn [option_map fst snd]. unfold Home.appendAndFetch.
  fold sent.
  assert (Cap : match find (fun c => Js.eqb (Conversation.id c) (Home.convId_at now))
                      (allConversations
                         (if eager
                          then Folder.with_conversations
                                 (newConv :: Folder.conversations first) first :: rest
                          else Home.folders s)) with
                | Some c => Conversation.messages c
                | None => []
                end = []).
  { destruct eager.
    - rewrite allConversations_cons. destruct first as [fid fname fconvs fexp].
      cbn [Folder.with_conversations Folder.conversations app find newConv
           Conversation.id].
      now rewrite eqb_refl.
    - now rewrite find_by_id_absent. }
  rewrite Cap.
  do 3 eexists. split; [reflexivity|].
  cbn [Home.folders Home.setFolders Home.setIsLoading
       Home.setActiveConversationId Home.activeConversationId Home.isLoading
       Home.capturedMessages Home.convIdToUpdate Api.Chat.messages
       Api.Chat.settings].
  repeat match goal with |- _ /\ _ => split end; try reflexivity.
  unfold Home.mapConversations. cbn [map].
  destruct first as [fid fname fconvs fexp].
  unfold Folder.with_conversations.
  cbn [Folder.id Folder.name Folder.conversations Folder.isExpanded map].
  f_equal.
  - f_equal. f_equal.
    + unfold Home.appendUser, newConv. cbn [Conversation.id].
      rewrite eqb_refl. cbn [negb]. unfold created.
      cbn [Conversation.with_updatedAt Conversation.with_title
           Conversation.with_messages Conversation.title Conversation.messages
           Conversation.id Conversation.documentContent Conversation.tags
           Conversation.isPinned Conversation.createdAt app].
      now destruct (Js.eqb _ _ && _).
    + rewrite <- (map_id fconvs) at 2. apply map_ext_in. intros c Hc.
      apply appendUser_other. apply (Hfirst c Hc).
  - change (Home.mapConversations
              (Home.appendUser (Home.convId_at now) sent content now) rest = rest).
    apply mapConversations_fixed. intros c Hc. apply appendUser_other.
    intros E. apply Hfresh. rewrite Hfolders, allConversations_cons, map_app.
    apply in_or_app. right. rewrite <- E. now apply in_map.
Qed.

Lemma first_send_witness :
  exists s1 task body,
    Home.handleSendMessage false 7 None (Js.lit "hello") Home.initialState
    = Some (s1, task, [Home.FetchChat body])
    /\ Home.activeConversationId s1 = Some (Home.convId_at 7)
    /\ Api.Chat.messages body = [Api.mkChatMessage (Js.lit "user") (Js.lit "hello")].
Proof.
  destruct (first_send_creates_conversation false 7 None (Js.lit "hello")
              Home.initialState
              (Folder.mk (Js.lit "folder-1") (Js.lit "会話") [] true) []
              I eq_refl (fun H : False => H))
    as (s1 & task & body & H1 & _ & H3 & _ & H5 & _).
  exists s1, task, body. repeat split; assumption.
Defined.

(** X19. A message sent in the selected conversation, conversation ids
    being pairwise distinct: the conversation gets the message appended,
    its title replaced only while it is the placeholder, its time of
    update set; every other conversation and the selection stay. The chat
    request carries the conversation's messages as they then are, the new
    one last, with the settings in use. *)
Theorem send_in_selected_conversation
    (eager : bool) (now : Z) (settings : option Api.AISettings)
    (content a : jsstring) (s : Home.State) (conv : Conversation.t)
    (Hselected : Home.activeConversationId s = Some a)
    (Ha : Js.truthy a = true)
    (Hunique : NoDup (map Conversation.id (allConversations (Home.folders s))))
    (Hconv : In conv (allConversations (Home.folders s)))
    (Hid : Conversation.id conv = a) :
  let sent := Message.mk (Js.lit "msg-" ++ Js.decimal now) user content now in
  exists s1 task body,
    Home.handleSendMessage eager now settings content s
    = Some (s1, task, [Home.FetchChat body])
    /\ Api.Chat.messages body
       = map Home.toChatMessage (Conversation.messages conv ++ [sent])
    /\ Api.Chat.settings body = settings
    /\ Home.capturedMessages task = Conversation.messages conv
    /\ Home.userMessage task = sent
    /\ Home.convIdToUpdate task = a
    /\ updatesAt a
         (fun c => Conversation.mk (Conversation.id c)
                     (if Js.eqb (Conversation.title c) Home.placeholderTitle
                         && Js.truthy content
                      then Home.titleFrom content else Conversation.title c)
                     (Conversation.messages c ++ [sent])
                     (Conversation.documentContent c) (Conversation.tags c)
                     (Conversation.isPinned c) (Conversation.createdAt c) now)
         (Home.folders s) (Home.folders s1)
    /\ Home.activeConversationId s1 = Some a
    /\ Home.isLoading s1 = true.
Proof.
  intros sent. unfold Home.handleSendMessage. rewrite Hselected, Ha.
  unfold Home.appendAndFetch. fold sent. subst a.
  rewrite (find_by_id_unique _ conv Hunique Hconv).
  do 3 eexists. split; [reflexivity|].
  cbn [Home.folders Home.setFolders Home.setIsLoading
       Home.activeConversationId Home.isLoading Home.capturedMessages
       Home.convIdToUpdate Home.userMessage Api.Chat.messages
       Api.Chat.settings].
  repeat match goal with |- _ /\ _ => split end; try reflexivity;
    try assumption.
  apply mapConversations_updatesAt. intros c. unfold Home.appendUser.
  destruct (Js.eqb (Conversation.id c) (Conversation.id conv));
    destruct c; reflexivity.
Qed.

Lemma send_in_selected_witness :
  exists s1 task body,
    Home.handleSendMessage true 9 None (Js.lit "again") race_s0
    = Some (s1, task, [Home.FetchChat body])
    /\ Home.convIdToUpdate task = Js.lit "a".
Proof.
  assert (U : NoDup (map Conversation.id (allConversations (Home.folders race_s0)))).
  { simpl. constructor; [|constructor; [|constructor]]; simpl.
    - intros [H|[]]. vm_compute in H. discriminate.
    - tauto. }
  destruct (send_in_selected_conversation true 9 None (Js.lit "again")
              (Js.lit "a") race_s0 (sample_conversation (Js.lit "a") false 1)
              eq_refl eq_refl U (or_introl eq_refl) eq_refl)
    as (s1 & task & body & H1 & _ & _ & _ & _ & H6 & _).
  exists s1, task, body. split; assumption.
Defined.

(* ================================================================== *)
(** * Further properties of the routes *)
(* ================================================================== *)

Lemma truncateTo_spec {A : Type} (max : nat) (messages : list A) :
  List.length (Api.truncateTo max messages) = Nat.min max (List.length messages)
  /\ exists dropped, messages = dropped ++ Api.truncateTo max messages.
Proof.
  unfold Api.truncateTo.
  destruct (max <? List.length messages)%nat eqn:E.
  - apply Nat.ltb_lt in E. split.
    + rewrite length_skipn. lia.
    + exists (firstn (List.length messages - max) messages).
      symmetry. apply firstn_skipn.
  - apply Nat.ltb_ge in E. split; [lia | now exists []].
Qed.

(** X20. The chat route answers every request with status 200, a body
    that does not parse and a failing vendor included. It calls a vendor at
    most once, and only for settings with a key and a provider it knows;
    the call carries that key and model and the last 20 messages of the
    request at most, in order. The answer is marked as no demo exactly when
    the vendor returned, and is then the vendor's text. *)
Theorem chat_route_always_answers_200
    (oracle : Api.Oracle) (random : Q) (body : Api.Body Api.Chat.Request) :
  let out := Api.Chat.POST oracle random body in
  Api.Chat.status (fst out) = 200
  /\ (forall call, In call (snd out) ->
        snd out = [call]
        /\ exists req st dropped,
             body = Api.Parsed req
             /\ Api.Chat.settings req = Some st
             /\ Js.truthy (Api.apiKey st) = true
             /\ Api.vendorOf (Api.provider st) = Some (Api.vendor call)
             /\ Api.call_apiKey call = Api.apiKey st
             /\ Api.call_model call = Api.model st
             /\ Api.Chat.messages req = dropped ++ Api.call_messages call
             /\ List.length (Api.call_messages call)
                = Nat.min 20 (List.length (Api.Chat.messages req)))
  /\ (Api.Chat.isDemo (fst out) = false <->
      exists call, snd out = [call]
                   /\ oracle call = Api.Returned (Api.Chat.message (fst out))).
Proof.
  intros out. unfold out, Api.Chat.POST.
  destruct body as [e|req]; cbn [fst snd].
  { split; [reflexivity|]. split; [intros call []|].
    split; [discriminate | intros (call & H & _); discriminate]. }
  destruct (Api.Chat.settings req) as [st|] eqn:S; cbn [Api.noApiKey].
  2:{ cbn [fst snd]. split; [reflexivity|]. split; [intros call []|].
      split; [discriminate | intros (call & H & _); discriminate]. }
  destruct (Js.truthy (Api.apiKey st)) eqn:K; cbn [negb].
  2:{ cbn [fst snd]. split; [reflexivity|]. split; [intros call []|].
      split; [discriminate | intros (call & H & _); discriminate]. }
  destruct (Api.vendorOf (Api.provider st)) as [v|] eqn:V.
  2:{ cbn [fst snd]. split; [reflexivity|]. split; [intros call []|].
      split; [discriminate | intros (call & H & _); discriminate]. }
  set (call0 := Api.mkCall v (Api.apiKey st) (Api.model st)
                  (Api.truncateTo Api.Chat.MAX_MESSAGES (Api.Chat.messages req))).
  assert (Hcall : forall call, In call [call0] ->
            [call0] = [call]
            /\ exists req0 st0 dropped,
                 @Api.Parsed Api.Chat.Request req = Api.Parsed req0
                 /\ Api.Chat.settings req0 = Some st0
                 /\ Js.truthy (Api.apiKey st0) = true
                 /\ Api.vendorOf (Api.provider st0) = Some (Api.vendor call)
                 /\ Api.call_apiKey call = Api.apiKey st0
                 /\ Api.call_model call = Api.model st0
                 /\ Api.Chat.messages req0 = dropped ++ Api.call_messages call
                 /\ List.length (Api.call_messages call)
                    = Nat.min 20 (List.length (Api.Chat.messages req0))).
  { intros call [<-|[]]. split; [reflexivity|].
    destruct (truncateTo_spec Api.Chat.MAX_MESSAGES (Api.Chat.messages req))
      as [L [dropped D]].
    exists req, st, dropped. cbn [call0 Api.vendor Api.call_apiKey
                                   Api.call_model Api.call_messages].
    repeat match goal with |- _ /\ _ => split end;
      try reflexivity; assumption. }
  destruct (oracle call0) as [text|e] eqn:O; cbn [fst snd].
  - split; [reflexivity|]. split; [exact Hcall|].
    split; [intros _; exists call0; now split | reflexivity].
  - split; [reflexivity|]. split; [exact Hcall|].
    split; [discriminate|].
    intros (call & H & R). injection H as <-. rewrite O in R. discriminate.
Qed.

(** X21. The summarize route answers with status 200 or 500, and 500
    exactly when it reports an error; the summary it then sends is the
    fallback text of an empty transcript, whatever the request held. It
    calls a vendor at most once, with the last 30 messages of the request
    at most, in order. *)
Theorem summarize_route_statuses
    (oracle : Api.Oracle) (body : Api.Body Api.Summarize.Request) :
  let out := Api.Summarize.POST oracle body in
  (Api.Summarize.status (fst out) = 200 /\ Api.Summarize.error (fst out) = None
   \/ Api.Summarize.status (fst out) = 500
      /\ Api.Summarize.error (fst out) <> None
      /\ Api.Summarize.summary (fst out) = Api.Summarize.emptySummary
      /\ Api.Summarize.isDemo (fst out) = true)
  /\ (forall call, In call (snd out) ->
        snd out = [call]
        /\ exists req dropped,
             body = Api.Parsed req
             /\ Api.noApiKey (Api.Summarize.settings req) = false
             /\ Api.Summarize.messages req = dropped ++ Api.call_messages call
             /\ List.length (Api.call_messages call)
                = Nat.min 30 (List.length (Api.Summarize.messages req)))
  /\ (Api.Summarize.isDemo (fst out) = false <->
      exists call, snd out = [call]
                   /\ oracle call = Api.Returned (Api.Summarize.summary (fst out))).
Proof.
  intros out. unfold out, Api.Summarize.POST.
  destruct body as [e|req]; cbn [fst snd].
  { split; [right; repeat split; discriminate|]. split; [intros call []|].
    split; [discriminate | intros (call & H & _); discriminate]. }
  destruct (Api.Summarize.settings req) as [st|] eqn:S; cbn [Api.noApiKey].
  2:{ cbn [fst snd]. split; [left; now split|]. split; [intros call []|].
      split; [discriminate | intros (call & H & _); discriminate]. }
  destruct (Js.truthy (Api.apiKey st)) eqn:K; cbn [negb].
  2:{ cbn [fst snd]. split; [left; now split|]. split; [intros call []|].
      split; [discriminate | intros (call & H & _); discriminate]. }
  destruct (Api.vendorOf (Api.provider st)) as [v|] eqn:V.
  2:{ cbn [fst snd]. split; [right; repeat split; discriminate|].
      split; [intros call []|].
      split; [discriminate | intros (call & H & _); discriminate]. }
  set (call0 := Api.mkCall v (Api.apiKey st) (Api.model st)
                  (Api.truncateTo Api.Summarize.MAX_MESSAGES
                                  (Api.Summarize.messages req))).
  assert (Hcall : forall call, In call [call0] ->
            [call0] = [call]
            /\ exists req0 dropped,
                 @Api.Parsed Api.Summarize.Request req = Api.Parsed req0
                 /\ Api.noApiKey (Api.Summarize.settings req0) = false
                 /\ Api.Summarize.messages req0 = dropped ++ Api.call_messages call
                 /\ List.length (Api.call_messages call)
                    = Nat.min 30 (List.length (Api.Summarize.messages req0))).
  { intros call [<-|[]]. split; [reflexivity|].
    destruct (truncateTo_spec Api.Summarize.MAX_MESSAGES
                              (Api.Summarize.messages req))
      as [L [dropped D]].
    exists req, dropped. cbn [call0 Api.call_messages].
    repeat match goal with |- _ /\ _ => split end;
      try reflexivity; try assumption.
    rewrite S. cbn [Api.noApiKey]. now rewrite K. }
  destruct (oracle call0) as [text|e] eqn:O; cbn [fst snd].
  - split; [left; now split|]. split; [exact Hcall|].
    split; [intros _; exists call0; now split | reflexivity].
  - split; [right; repeat split; discriminate|]. split; [exact Hcall|].
    split; [discriminate|].
    intros (call & H & R). injection H as <-. rewrite O in R. discriminate.
Qed.

Lemma in_trimStart c s : In c (Js.trimStart s) -> In c s.
Proof.
  destruct (trimStart_split s) as [ws H]. intros Hc. rewrite H.
  apply in_or_app. now right.
Qed.

Lemma in_trim c s : In c (Js.trim s) -> In c s.
Proof.
  unfold Js.trim, Js.trimEnd. intros H.
  apply in_rev, in_trimStart in H. apply in_rev in H.
  now apply in_trimStart.
Qed.

Lemma cleanTitle_spec raw :
  (List.length (Api.Title.cleanTitle raw) <= 20)%nat
  /\ forall c, In c (Api.Title.cleanTitle raw) ->
       In c raw /\ Api.Title.stripped c = false.
Proof.
  unfold Api.Title.cleanTitle.
  set (t := Js.trim (filter (fun c => negb (Api.Title.stripped c)) raw)).
  assert (T : forall c, In c t -> In c raw /\ Api.Title.stripped c = false).
  { intros c Hc. apply in_trim, filter_In in Hc. destruct Hc as [H1 H2].
    split; [assumption|]. now apply negb_true_iff. }
  destruct (20 <? List.length t)%nat eqn:E.
  - split; [apply firstn_le_length|]. intros c Hc. apply T.
    now apply (in_firstn 20).
  - apply Nat.ltb_ge in E. split; assumption.
Qed.

Lemma title_route_title oracle body title :
  Api.Title.title (fst (Api.Title.POST oracle (Api.Parsed body))) = Some title ->
  (List.length title <= 20)%nat
  /\ forall c, In c title -> Api.Title.stripped c = false.
Proof.
  unfold Api.Title.POST.
  destruct (negb _); [discriminate|].
  destruct (Api.vendorOf _); [|discriminate].
  destruct (oracle _) as [raw|e]; [|discriminate].
  cbn [fst Api.Title.title]. intros H. injection H as <-.
  split; [apply cleanTitle_spec|]. intros c Hc. now apply (cleanTitle_spec raw).
Qed.

(** X22. The title route: a request without message text, or whose
    body does not parse, is answered 400 without any vendor call; for a
    request with message text an unknown provider gives 500 without any
    call, and a known provider gives one call to its vendor, with the
    request's key, the message as the one user turn and the request's
    model, in whose place the call to OpenAI puts gpt-3.5-turbo when the
    model's name does not contain gpt; a failing vendor gives 500. A title
    is sent exactly with status 200: the vendor's text without quote
    marks, corner brackets and line feeds, trimmed, and with 20 code units
    at most. *)
Theorem title_route_cleans_the_title
    (oracle : Api.Oracle) (body : Api.Body Api.Title.Request) :
  let out := Api.Title.POST oracle body in
  (Api.Title.status (fst out) = 200 \/ Api.Title.status (fst out) = 400
   \/ Api.Title.status (fst out) = 500)
  /\ (Api.Title.status (fst out) = 200 <-> Api.Title.title (fst out) <> None)
  /\ (Api.Title.status (fst out) = 400 <->
      match body with
      | Api.Parsed req => Api.Title.message req = []
      | Api.Unparseable _ => True
      end)
  /\ (Api.Title.status (fst out) = 400 -> snd out = [])
  /\ (forall title, Api.Title.title (fst out) = Some title ->
        (List.length title <= 20)%nat
        /\ (forall c, In c title -> Api.Title.stripped c = false)
        /\ exists call raw,
             snd out = [call] /\ oracle call = Api.Returned raw
             /\ title = Api.Title.cleanTitle raw)
  /\ (Api.Title.status (fst out) = 500 <->
      exists req,
        body = Api.Parsed req /\ Api.Title.message req <> []
        /\ (Api.vendorOf (Api.Title.provider req) = None
            \/ exists call e, snd out = [call] /\ oracle call = Api.Threw e))
  /\ (forall req, body = Api.Parsed req ->
        Api.vendorOf (Api.Title.provider req) = None -> snd out = [])
  /\ (forall call, In call (snd out) ->
        snd out = [call]
        /\ exists req v,
             body = Api.Parsed req /\ Api.Title.message req <> []
             /\ Api.vendorOf (Api.Title.provider req) = Some v
             /\ call = Api.mkCall v (Api.Title.apiKey req)
                         (match v with
                          | Api.OpenAI =>
                              if Js.includes (Api.Title.model req) (Js.lit "gpt")
                              then Api.Title.model req
                              else Js.lit "gpt-3.5-turbo"
                          | _ => Api.Title.model req
                          end)
                         [Api.mkChatMessage (Js.lit "user")
                                            (Api.Title.message req)]).
Proof.
  intros out. unfold out, Api.Title.POST.
  destruct body as [e|req]; cbn [fst snd Api.Title.status Api.Title.title].
  { split; [tauto|]. split; [split; [discriminate | congruence]|].
    split; [tauto|]. split; [reflexivity|]. split; [discriminate|].
    split; [split; [discriminate | intros (r & H & _); discriminate]|].
    split; [reflexivity | intros call []]. }
  destruct (Api.Title.message req) as [|c0 r0] eqn:M; cbn [Js.truthy negb].
  { cbn [fst snd Api.Title.status Api.Title.title].
    split; [tauto|]. split; [split; [discriminate | congruence]|].
    split; [tauto|]. split; [reflexivity|]. split; [discriminate|].
    split; [split; [discriminate|]|].
    - intros (r & H & Hne & _). injection H as <-. congruence.
    - split; [reflexivity | intros call []]. }
  destruct (Api.vendorOf (Api.Title.provider req)) as [v|] eqn:V.
  2:{ cbn [fst snd Api.Title.status Api.Title.title].
      split; [tauto|]. split; [split; [discriminate | congruence]|].
      split; [split; discriminate|]. split; [discriminate|].
      split; [discriminate|].
      split; [split; [intros _|reflexivity]|].
      - exists req. split; [reflexivity|]. split; [now rewrite M|]. now left.
      - split; [reflexivity | intros call []]. }
  set (call0 := Api.mkCall v (Api.Title.apiKey req)
                  (Api.Title.sentModel v (Api.Title.model req))
                  [Api.mkChatMessage (Js.lit "user") (c0 :: r0)]).
  assert (Hcall : forall call, In call [call0] ->
            [call0] = [call]
            /\ exists req0 v0,
                 @Api.Parsed Api.Title.Request req = Api.Parsed req0
                 /\ Api.Title.message req0 <> []
                 /\ Api.vendorOf (Api.Title.provider req0) = Some v0
                 /\ call = Api.mkCall v0 (Api.Title.apiKey req0)
                             (match v0 with
                              | Api.OpenAI =>
                                  if Js.includes (Api.Title.model req0)
                                                 (Js.lit "gpt")
                                  then Api.Title.model req0
                                  else Js.lit "gpt-3.5-turbo"
                              | _ => Api.Title.model req0
                              end)
                             [Api.mkChatMessage (Js.lit "user")
                                                (Api.Title.message req0)]).
  { intros call [<-|[]]. split; [reflexivity|]. exists req, v.
    split; [reflexivity|]. split; [now rewrite M|]. split; [exact V|].
    rewrite M. unfold call0, Api.Title.sentModel. now destruct v. }
  destruct (oracle call0) as [raw|e] eqn:O;
    cbn [fst snd Api.Title.status Api.Title.title].
  - split; [now left|].
    split; [split; [intros _; discriminate | reflexivity]|].
    split; [split; discriminate|]. split; [discriminate|].
    split.
    { intros title H. injection H as <-. split; [apply cleanTitle_spec|].
      split; [intros c Hc; now apply (cleanTitle_spec raw)|]. eauto. }
    split; [split; [discriminate|]|].
    + intros (r & H & _ & [N|(call & e & Hc & Ho)]).
      * injection H as <-. congruence.
      * injection Hc as <-. congruence.
    + split; [|exact Hcall]. intros r H N. injection H as <-. congruence.
  - split; [tauto|]. split; [split; [discriminate | congruence]|].
    split; [split; discriminate|]. split; [discriminate|].
    split; [discriminate|].
    split; [split; [intros _|reflexivity]|].
    + exists req. split; [reflexivity|]. split; [now rewrite M|].
      right. now exists call0, e.
    + split; [|exact Hcall]. intros r H N. injection H as <-. congruence.
Qed.

(** X23. The title the client adopts: whatever becomes of the title
    request, either the collection stays as it is, or the conversations
    with the task's id get as title a text that is not empty, has 20 code
    units at most and holds no quote mark, corner bracket or line feed,
    everything else staying. The selection and the loading flag are not
    touched. *)
Theorem adopted_title_is_clean
    (net : bool) (oracle : Api.Oracle) (body : Api.Title.Request)
    (task : Home.Task) (s : Home.State) :
  let out := Home.onTitleSettled task (Home.fetchTitle net oracle body) s in
  Home.activeConversationId (fst out) = Home.activeConversationId s
  /\ Home.isLoading (fst out) = Home.isLoading s
  /\ (Home.folders (fst out) = Home.folders s
      \/ exists title,
           title <> [] /\ (List.length title <= 20)%nat
           /\ (forall c, In c title -> Api.Title.stripped c = false)
           /\ updatesAt (Home.convIdToUpdate task)
                (fun c => Conversation.with_title title c)
                (Home.folders s) (Home.folders (fst out))).
Proof.
  intros out. unfold out, Home.onTitleSettled, Home.fetchTitle.
  destruct net; [|cbn [fst]; tauto].
  pose proof (title_route_title oracle body) as C.
  destruct (Api.Title.ok _); [|cbn [fst]; tauto].
  destruct (Api.Title.title _) as [title|]; [|cbn [fst]; tauto].
  destruct (Js.truthy title) eqn:T; [|cbn [fst]; tauto].
  cbn [fst Home.setFolders Home.activeConversationId Home.isLoading Home.folders].
  split; [reflexivity|]. split; [reflexivity|]. right.
  exists title. destruct (C title eq_refl) as [L N].
  split; [now destruct title|]. split; [assumption|]. split; [assumption|].
  apply mapConversations_updatesAt. intros c. unfold Home.mergeTitle.
  now destruct (Js.eqb (Conversation.id c) (Home.convIdToUpdate task)).
Qed.

(** X24. Once the summary request has settled the loading flag is
    down, and a title is requested exactly when the task had captured no
    earlier message and settings are present. Whether the settings hold a
    key plays no part in that: with an empty key the chat route answers in
    demo mode without calling a vendor, while the title request is still
    sent, and the title route passes it on to the vendor with the empty
    key (and the settings' model, or gpt-3.5-turbo in its place for OpenAI
    when the model's name does not contain gpt). *)
Theorem title_requested_for_first_message
    (now : Z) (task : Home.Task)
    (result : Api.Fetched Api.Summarize.Response) (s : Home.State) :
  let out := Home.onSummarySettled now task result s in
  Home.isLoading (fst out) = false
  /\ Home.activeConversationId (fst out) = Home.activeConversationId s
  /\ (hasTitleRequest (snd out) = true <->
      Home.capturedMessages task = [] /\ Home.aiSettings task <> None)
  /\ (forall st v oracle random messages,
        Home.aiSettings task = Some st -> Home.capturedMessages task = [] ->
        Api.apiKey st = [] -> Api.vendorOf (Api.provider st) = Some v ->
        Home.sentContent task <> [] ->
        snd (Api.Chat.POST oracle random
               (Api.Parsed (Api.Chat.mkRequest messages (Some st)))) = []
        /\ exists body,
             In (Home.FetchTitle body) (snd out)
             /\ snd (Api.Title.POST oracle (Api.Parsed body))
                = [Api.mkCall v []
                     (match v with
                      | Api.OpenAI =>
                          if Js.includes (Api.model st) (Js.lit "gpt")
                          then Api.model st else Js.lit "gpt-3.5-turbo"
                      | _ => Api.model st
                      end)
                     [Api.mkChatMessage (Js.lit "user") (Home.sentContent task)]]).
Proof.
  intros out. unfold out, Home.onSummarySettled.
  destruct result as [|summaryData];
    cbn [fst snd Home.setIsLoading Home.isLoading Home.activeConversationId
         Home.setFolders Home.folders];
    (split; [reflexivity|]; split; [reflexivity|]; split;
     [ destruct (Home.capturedMessages task) as [|m ms];
       destruct (Home.aiSettings task) as [st|]; cbn; split;
       try discriminate; try (intros [? ?]; congruence);
       try (intros _; split; congruence)
     | intros st v oracle random messages Hst Hcap Hkey Hv Hsent;
       rewrite Hst, Hcap; split;
       [ unfold Api.Chat.POST; cbn [Api.Chat.settings Api.noApiKey];
         rewrite Hkey; reflexivity
       | eexists; split;
         [ apply in_or_app; right; left; reflexivity
         | unfold Api.Title.POST;
           cbn [Api.Title.message Api.Title.provider Api.Title.apiKey
                Api.Title.model];
           rewrite Hv, Hkey;
           destruct (Home.sentContent task) as [|c r]; [congruence|];
           cbn [Js.truthy negb]; unfold Api.Title.sentModel;
           destruct v; now destruct (oracle _) ] ] ]).
Qed.

(* ================================================================== *)
(** * Properties of the settings dialog *)
(* ================================================================== *)

Lemma defaults_for_known_provider provider v :
  Api.vendorOf provider = Some v ->
  exists first rest, UseAISettings.DEFAULT_MODELS provider = first :: rest.
Proof.
  unfold UseAISettings.DEFAULT_MODELS, Api.vendorOf.
  destruct (Js.eqb provider (Js.lit "openai")); [eauto|].
  destruct (Js.eqb provider (Js.lit "anthropic")); [eauto|].
  destruct (Js.eqb provider (Js.lit "gemini")); [eauto|discriminate].
Qed.

Lemma fetchModels_for_known_provider provider v outcome :
  Api.vendorOf provider = Some v ->
  exists first rest, UseAISettings.fetchModels provider outcome = first :: rest.
Proof.
  intros H. destruct (defaults_for_known_provider provider v H) as (d & ds & D).
  unfold UseAISettings.fetchModels.
  destruct outcome as [| | |[[|m ms]|]]; eauto.
Qed.



(** X26. Settings saved with the dialog's save button hold a key that
    is trimmed and not empty, and a model. Nothing is saved for a blank
    key or without a model. With settings so saved the chat route never
    gives its demo reply: it calls the vendor, or reports an error. *)
Theorem saved_settings_leave_demo_mode
    (f : SettingsDialog.Form) (st : Api.AISettings)
    (oracle : Api.Oracle) (random : Q) (messages : list Api.ChatMessage)
    (Hsaved : SettingsDialog.handleSave f = Some st) :
  Api.apiKey st = Js.trim (SettingsDialog.apiKey f)
  /\ Js.trim (Api.apiKey st) = Api.apiKey st
  /\ Api.apiKey st <> []
  /\ Api.model st = SettingsDialog.model f /\ Api.model st <> []
  /\ Api.provider st = SettingsDialog.provider f
  /\ Api.noApiKey (Some st) = false
  /\ let out := Api.Chat.POST oracle random
                  (Api.Parsed (Api.Chat.mkRequest messages (Some st))) in
     Api.Chat.provider (fst out) <> Js.lit "demo"
     /\ (snd out <> [] \/ Api.Chat.error (fst out) <> None).
Proof.
  unfold SettingsDialog.handleSave in Hsaved.
  destruct (Js.truthy (Js.trim (SettingsDialog.apiKey f))) eqn:K;
    [|discriminate].
  destruct (Js.truthy (SettingsDialog.model f)) eqn:M; [|discriminate].
  cbn [andb] in Hsaved. injection Hsaved as <-.
  cbn [Api.apiKey Api.model Api.provider Api.noApiKey]. rewrite K.
  repeat match goal with |- _ /\ _ => split end; try reflexivity.
  - apply trim_idempotent.
  - intros E. rewrite E in K. discriminate.
  - intros E. rewrite E in M. discriminate.
  - unfold Api.Chat.POST.
    cbn [Api.Chat.settings Api.noApiKey Api.apiKey Api.provider]. rewrite K.
    cbn [negb]. unfold Api.vendorOf.
    destruct (Js.eqb (SettingsDialog.provider f) (Js.lit "openai")) eqn:E1.
    { apply eqb_eq in E1. rewrite E1.
      destruct (oracle _); cbn [fst Api.Chat.provider]; discriminate. }
    destruct (Js.eqb (SettingsDialog.provider f) (Js.lit "anthropic")) eqn:E2.
    { apply eqb_eq in E2. rewrite E2.
      destruct (oracle _); cbn [fst Api.Chat.provider]; discriminate. }
    destruct (Js.eqb (SettingsDialog.provider f) (Js.lit "gemini")) eqn:E3.
    { apply eqb_eq in E3. rewrite E3.
      destruct (oracle _); cbn [fst Api.Chat.provider]; discriminate. }
    cbn [fst]. discriminate.
  - unfold Api.Chat.POST.
    cbn [Api.Chat.settings Api.noApiKey Api.apiKey Api.provider]. rewrite K.
    cbn [negb].
    destruct (Api.vendorOf (SettingsDialog.provider f));
      [destruct (oracle _); cbn [snd]; left; discriminate|].
    cbn [fst]. right. discriminate.
Qed.

Lemma saved_settings_witness :
  Api.apiKey (Api.mkSettings (Js.lit "openai") (Js.lit "k") (Js.lit "gpt-4o"))
  = Js.trim (Js.lit " k ").
Proof.
  exact (proj1 (saved_settings_leave_demo_mode
                  (SettingsDialog.mkForm (Js.lit "openai") (Js.lit " k ")
                                         (Js.lit "gpt-4o") [] SettingsDialog.idle)
                  (Api.mkSettings (Js.lit "openai") (Js.lit "k") (Js.lit "gpt-4o"))
                  (fun _ => Api.Returned []) 0 [] eq_refl)).
Defined.

(** X27. The models the client shows, request and route together:
    without connection or without key they are the provider's defaults;
    for Anthropic with a key they are the route's own five models; for
    OpenAI they are the vendor's chat models when there is at least one,
    and the defaults otherwise, as for a key the vendor rejects. For a
    provider the routes know the list is never empty. *)
Theorem models_shown_through_the_route
    (net : bool) (openai : Models.Listing)
    (gemini : option (list Models.ModelInfo)) (provider apiKey : jsstring) :
  let shown :=
    UseAISettings.fetchModels provider
      (ModelsRoute.fetch net openai gemini provider apiKey) in
  (net = false \/ apiKey = [] -> shown = UseAISettings.DEFAULT_MODELS provider)
  /\ (net = true -> apiKey <> [] -> provider = Js.lit "anthropic" ->
      shown = Models.getAnthropicModels)
  /\ (net = true -> apiKey <> [] -> provider = Js.lit "openai" ->
      shown = match Models.fetchOpenAIModels openai with
              | Some (m :: ms) => m :: ms
              | _ => UseAISettings.DEFAULT_MODELS provider
              end)
  /\ (forall v, Api.vendorOf provider = Some v -> shown <> []).
Proof.
  intros shown. split; [|split; [|split]].
  - intros [->| ->]; [reflexivity|]. unfold shown, ModelsRoute.fetch.
    destruct net; reflexivity.
  - intros -> Hkey ->. unfold shown, ModelsRoute.fetch, ModelsRoute.POST.
    cbn [ModelsRoute.apiKey ModelsRoute.provider].
    destruct apiKey; [congruence|]. reflexivity.
  - intros -> Hkey ->. unfold shown, ModelsRoute.fetch, ModelsRoute.POST.
    cbn [ModelsRoute.apiKey ModelsRoute.provider].
    destruct apiKey; [congruence|]. cbn [Js.truthy negb].
    change (Js.eqb (Js.lit "openai") (Js.lit "openai")) with true. cbv iota.
    destruct (Models.fetchOpenAIModels openai) as [[|m ms]|]; reflexivity.
  - intros v Hv.
    destruct (fetchModels_for_known_provider provider v
                (ModelsRoute.fetch net openai gemini provider apiKey) Hv)
      as (first & rest & F).
    unfold shown. rewrite F. discriminate.
Qed.

(* ================================================================== *)
(** * Further properties of the import *)
(* ================================================================== *)

Lemma startsWith_app p s : Js.startsWith (p ++ s) p = true.
Proof.
  induction p as [|b p IH]; [now destruct s|]. simpl.
  now rewrite N.eqb_refl, IH.
Qed.

Lemma visit_keeps (P : ImportDialog.Message.t -> Prop) node messages messages' :
  (forall m, In m (emitted node) -> P m) ->
  ImportDialog.visit node messages = ImportDialog.Ok messages' ->
  Forall P messages -> Forall P messages'.
Proof.
  intros HP H F.
  destruct (ImportDialog.hasParts node) eqn:Hp.
  - destruct (namesAuthor node) eqn:Ha.
    + rewrite (visit_emits node messages Hp Ha) in H. injection H as <-.
      apply Forall_app. split; [assumption|]. now apply Forall_forall.
    + rewrite (visit_throws node messages Hp Ha) in H. discriminate.
  - unfold ImportDialog.visit in H. unfold ImportDialog.hasParts in Hp.
    destruct (ImportDialog.Node.message node) as [| |msg];
      try (injection H as <-; assumption).
    destruct (ImportDialog.ChatGPTMessage.author msg) as [| |a];
      try discriminate.
    destruct (ImportDialog.keptRole _); [|injection H as <-; assumption].
    destruct (ImportDialog.ChatGPTMessage.content msg) as [| |c];
      try discriminate.
    destruct (ImportDialog.Content.parts c) as [| |ps]; try discriminate.
    destruct ps as [|p ps]; [|discriminate].
    cbn in H. injection H as <-. assumption.
Qed.

Lemma forNodes_keeps (P : ImportDialog.Message.t -> Prop) nodes messages messages' :
  (forall node m, In node nodes -> In m (emitted node) -> P m) ->
  ImportDialog.forNodes nodes messages = ImportDialog.Ok messages' ->
  Forall P messages -> Forall P messages'.
Proof.
  revert messages. induction nodes as [|node rest IH]; intros messages HP H F.
  - simpl in H. injection H as <-. assumption.
  - simpl in H.
    destruct (ImportDialog.visit node messages) as [ms|] eqn:V; [|discriminate].
    apply (IH ms); [| assumption |].
    + intros n m Hn. apply HP. now right.
    + apply (visit_keeps P node messages ms); [|assumption|assumption].
      intros m. apply HP. now left.
Qed.

Lemma emitted_content node m :
  In m (emitted node) ->
  ImportDialog.Message.content m <> []
  /\ Js.trim (ImportDialog.Message.content m) = ImportDialog.Message.content m.
Proof.
  unfold emitted.
  destruct (ImportDialog.Node.message node) as [| |msg]; try (intros []).
  destruct (ImportDialog.ChatGPTMessage.author msg) as [| |a]; try (intros []).
  destruct (ImportDialog.ChatGPTMessage.content msg) as [| |c]; try (intros []).
  destruct (ImportDialog.keptRole _) as [role|]; try (intros []).
  destruct (ImportDialog.Content.parts c) as [| |ps]; try (intros []).
  destruct (Js.truthy (Js.trim (Js.join [Js.LF] ps))) eqn:T; [|intros []].
  intros [<-|[]]. cbn [ImportDialog.Message.content]. split.
  - intros E. rewrite E in T. discriminate.
  - apply trim_idempotent.
Qed.

Lemma convert_messages stamp conv c :
  ImportDialog.convert stamp conv = ImportDialog.Ok (Some c) ->
  exists mapping,
    ImportDialog.ChatGPTConversation.mapping conv = ImportDialog.Has mapping
    /\ ImportDialog.forNodes
         (ImportDialog.sortNodes (filter ImportDialog.hasParts (map snd mapping)))
         []
       = ImportDialog.Ok (ImportDialog.Conversation.messages c)
    /\ c = conversationOf stamp conv (ImportDialog.Conversation.messages c)
    /\ ImportDialog.Conversation.messages c <> [].
Proof.
  unfold ImportDialog.convert.
  destruct (ImportDialog.ChatGPTConversation.mapping conv) as [| |mapping];
    try discriminate.
  destruct (ImportDialog.forNodes _ []) as [messages|] eqn:F; [|discriminate].
  destruct (0 <? List.length messages)%nat eqn:L; [|discriminate].
  intros H.
  apply (f_equal (fun r => match r with
                           | ImportDialog.Ok (Some x) => x
                           | _ => c
                           end)) in H.
  cbv beta iota in H. subst c. exists mapping.
  cbn [ImportDialog.Conversation.messages].
  split; [reflexivity|]. split; [exact F|]. split; [reflexivity|].
  intros E. rewrite E in L. discriminate.
Qed.

(** X28. What the import dialog hands over for a file it accepts: the
    file's name ends in .json and its content is an array of records,
    none of them null; the counts of imported and skipped records add up
    to the number of records, and every conversation has an id that starts
    with imported-, a title that is not empty, no tag, no pin and at least
    one message; each message has a text that is not empty and has no white
    space around it. *)
Theorem imported_conversations_are_well_formed
    (stamps : nat -> jsstring) (typeError fileName : jsstring)
    (file : ImportDialog.FileData)
    (conversations : list ImportDialog.Conversation.t)
    (Haccepted : snd (ImportDialog.handleFileSelect stamps typeError fileName file)
                 = Some conversations) :
  let shown := fst (ImportDialog.handleFileSelect stamps typeError fileName file) in
  ImportDialog.success shown = true
  /\ Js.endsWith fileName (Js.lit ".json") = true
  /\ (exists data,
        file = ImportDialog.IsArray (map ImportDialog.Record data)
        /\ ImportDialog.imported shown + ImportDialog.skipped shown
           = Z.of_nat (List.length data)
        /\ 0 <= ImportDialog.skipped shown)
  /\ forall c, In c conversations ->
       Js.startsWith (ImportDialog.Conversation.id c) (Js.lit "imported-") = true
       /\ ImportDialog.Conversation.title c <> []
       /\ ImportDialog.Conversation.tags c = []
       /\ ImportDialog.Conversation.isPinned c = false
       /\ ImportDialog.Conversation.messages c <> []
       /\ forall m, In m (ImportDialog.Conversation.messages c) ->
            ImportDialog.Message.content m <> []
            /\ Js.trim (ImportDialog.Message.content m)
               = ImportDialog.Message.content m.
Proof.
  intros shown. unfold shown. clear shown.
  unfold ImportDialog.handleFileSelect in *.
  destruct (Js.endsWith fileName (Js.lit ".json")) eqn:N; cbn [negb] in *;
    [|discriminate].
  destruct file as [message| |elements]; try discriminate.
  unfold ImportDialog.parseChatGPTExport in *.
  destruct (elements_cases elements) as [Hnull|[data ->]].
  { rewrite (parseLoop_null _ _ _ _ _ Hnull) in Haccepted. discriminate. }
  rewrite parseLoop_spec in *.
  cbn [fst snd app ImportDialog.success ImportDialog.imported
       ImportDialog.skipped] in *.
  injection Haccepted as <-.
  split; [reflexivity|]. split; [reflexivity|]. split.
  { exists data. split; [reflexivity|]. rewrite length_map.
    pose proof (import_counts stamps 0 data). lia. }
  intros c Hc. apply importedFrom_In in Hc.
  destruct Hc as (i & conv & _ & Hconv).
  destruct (convert_messages _ _ _ Hconv) as (mapping & _ & F & C & Hne).
  rewrite C.
  cbn [conversationOf ImportDialog.Conversation.id ImportDialog.Conversation.title
       ImportDialog.Conversation.tags ImportDialog.Conversation.isPinned
       ImportDialog.Conversation.messages].
  split; [apply startsWith_app|]. split.
  { unfold ImportDialog.orElse.
    destruct (ImportDialog.ChatGPTConversation.title conv) as [| |t];
      try discriminate.
    destruct t; [discriminate|]. cbn [Js.truthy]. discriminate. }
  split; [reflexivity|]. split; [reflexivity|]. split; [assumption|].
  apply Forall_forall.
  apply (forNodes_keeps _ _ [] _ (fun node m _ => emitted_content node m) F).
  constructor.
Qed.

Lemma imported_conversations_witness :
  exists c,
    snd (ImportDialog.handleFileSelect clock_text (Js.lit "TypeError")
           (Js.lit "conversations.json")
           (ImportDialog.IsArray
              [ImportDialog.Record bad_record; ImportDialog.Record good_record]))
    = Some [c]
    /\ Js.startsWith (ImportDialog.Conversation.id c) (Js.lit "imported-") = true
    /\ List.length (ImportDialog.Conversation.messages c) = 3%nat
    /\ forall m, In m (ImportDialog.Conversation.messages c) ->
         Js.trim (ImportDialog.Message.content m) = ImportDialog.Message.content m.
Proof.
  destruct (snd (ImportDialog.handleFileSelect clock_text (Js.lit "TypeError")
                   (Js.lit "conversations.json")
                   (ImportDialog.IsArray
                      [ImportDialog.Record bad_record;
                       ImportDialog.Record good_record])))
    as [[|c [|c' rest]]|] eqn:E;
    try (vm_compute in E; discriminate).
  exists c. split; [reflexivity|].
  destruct (imported_conversations_are_well_formed _ _ _ _ _ E)
    as (_ & _ & _ & Hall).
  destruct (Hall c (or_introl eq_refl)) as (H1 & _ & _ & _ & _ & H6).
  split; [exact H1|]. split.
  - vm_compute in E. injection E as <-. reflexivity.
  - intros m Hm. now apply H6.
Defined.

Lemma quot_bounds a d : 0 < d ->
  (0 <= a -> d * (a ÷ d) <= a < d * (a ÷ d) + d)
  /\ (a <= 0 -> d * (a ÷ d) - d < a <= d * (a ÷ d)).
Proof.
  intros Hd. pose proof (Z.quot_rem' a d) as E. split; intros Ha.
  - pose proof (Z.rem_bound_pos a d Ha Hd). lia.
  - pose proof (Z.rem_bound_pos_neg a d Hd Ha). lia.
Qed.

Lemma quot_le_cross n e n' e' :
  0 < e -> 0 < e' -> n * e' <= n' * e -> n ÷ e <= n' ÷ e'.
Proof.
  intros He He' H.
  destruct (quot_bounds n e He) as [P1 P2].
  destruct (quot_bounds n' e' He') as [Q1 Q2].
  set (a := n ÷ e) in *. set (b := n' ÷ e') in *.
  destruct (Z_le_gt_dec a b) as [|G]; [assumption|exfalso].
  assert (G1 : b + 1 <= a) by lia.
  assert (M1 : e' * (b + 1) <= e' * a) by (apply Z.mul_le_mono_nonneg_l; lia).
  destruct (Z_le_gt_dec 0 n) as [Hn|Hn]; destruct (Z_le_gt_dec 0 n') as [Hn'|Hn'].
  - specialize (P1 Hn). specialize (Q1 Hn').
    assert (n' * e < e' * a * e) by nia.
    assert (e * a * e' <= n * e') by nia. lia.
  - assert (n' * e < 0) by nia. assert (0 <= n * e') by nia. lia.
  - assert (Hn0 : n <= 0) by lia. specialize (P2 Hn0). specialize (Q1 Hn').
    assert (a <= 0) by nia. assert (0 <= b) by nia. lia.
  - assert (Hn0 : n <= 0) by lia. assert (Hn0' : n' <= 0) by lia.
    specialize (P2 Hn0). specialize (Q2 Hn0').
    assert (n' * e <= e' * b * e) by nia.
    assert (e' * b * e <= e' * (a - 1) * e) by nia.
    assert (e * (a - 1) * e' < n * e') by nia. lia.
Qed.

(** The time value of a date grows with the number it is built from. *)
Lemma newDate_mono (v v' : Q) t t' :
  (v <= v')%Q ->
  ImportDialog.newDate (Some v) = Some t ->
  ImportDialog.newDate (Some v') = Some t' ->
  t <= t'.
Proof.
  intros H. unfold ImportDialog.newDate.
  destruct (_ && _); [|discriminate].
  destruct (_ && _); [|discriminate].
  intros E E'. injection E as <-. injection E' as <-.
  apply quot_le_cross; [reflexivity | reflexivity | exact H].
Qed.

(** The time of a message is the date of the double product of its
    node's sort key and 1000. *)
Lemma emitted_time node m t :
  In m (emitted node) -> ImportDialog.Message.timestamp m = Some t ->
  exists v,
    (v == Double.round (ImportDialog.sortKey node * Double.round 1000))%Q
    /\ ImportDialog.newDate (Some v) = Some t.
Proof.
  unfold emitted, ImportDialog.sortKey.
  destruct (ImportDialog.Node.message node) as [| |msg]; try (intros []).
  destruct (ImportDialog.ChatGPTMessage.author msg) as [| |a]; try (intros []).
  destruct (ImportDialog.ChatGPTMessage.content msg) as [| |c]; try (intros []).
  destruct (ImportDialog.keptRole _) as [role|]; try (intros []).
  destruct (ImportDialog.Content.parts c) as [| |ps]; try (intros []).
  destruct (Js.truthy (Js.trim (Js.join [Js.LF] ps))); [|intros []].
  intros [<-|[]]. cbn [ImportDialog.Message.timestamp].
  destruct (ImportDialog.ChatGPTMessage.create_time msg) as [| |q];
    cbn [ImportDialog.times1000].
  - discriminate.
  - intros H. exists 0%Q. split; [reflexivity | exact H].
  - intros H. exists (Double.mul q 1000). split; [reflexivity | exact H].
Qed.

Lemma forNodes_ok_emitted nodes messages messages' :
  Forall (fun n => ImportDialog.hasParts n = true) nodes ->
  ImportDialog.forNodes nodes messages = ImportDialog.Ok messages' ->
  messages' = messages ++ flat_map emitted nodes.
Proof.
  intros F. revert messages.
  induction F as [|node rest Hp F IH]; intros messages H; simpl in H.
  - injection H as <-. simpl. now rewrite app_nil_r.
  - destruct (namesAuthor node) eqn:Ha.
    + rewrite (visit_emits node messages Hp Ha) in H.
      rewrite (IH _ H). simpl. now rewrite app_assoc.
    + rewrite (visit_throws node messages Hp Ha) in H. discriminate.
Qed.

Lemma StronglySorted_app {A : Type} (R : A -> A -> Prop) l1 l2 :
  StronglySorted R l1 -> StronglySorted R l2 ->
  (forall x y, In x l1 -> In y l2 -> R x y) ->
  StronglySorted R (l1 ++ l2).
Proof.
  intros S1 S2 H. induction S1 as [|x l1 S1 IH F1]; [assumption|].
  simpl. constructor.
  - apply IH. intros a b Ha. apply H. now right.
  - apply Forall_app. split; [assumption|].
    apply Forall_forall. intros y Hy. apply H; [now left | assumption].
Qed.

Lemma flat_map_sorted {A B : Type} (R : A -> A -> Prop) (S : B -> B -> Prop)
    (f : A -> list B) l :
  StronglySorted R l ->
  (forall a, In a l -> StronglySorted S (f a)) ->
  (forall a b x y, R a b -> In x (f a) -> In y (f b) -> S x y) ->
  StronglySorted S (flat_map f l).
Proof.
  intros HR Hf Hc. induction HR as [|a l HR IH F]; simpl; [constructor|].
  apply StronglySorted_app.
  - apply Hf. now left.
  - apply IH. intros b Hb. apply Hf. now right.
  - intros x y Hx Hy. apply in_flat_map in Hy. destruct Hy as (b & Hb & Hy).
    rewrite Forall_forall in F. apply (Hc a b x y); auto.
Qed.

Lemma validTimes_flat_map nodes :
  validTimes (flat_map emitted nodes)
  = flat_map (fun n => validTimes (emitted n)) nodes.
Proof.
  induction nodes as [|n nodes IH]; [reflexivity|]. simpl.
  unfold validTimes at 1. rewrite flat_map_app. fold (validTimes (emitted n)).
  fold (validTimes (flat_map emitted nodes)). now rewrite IH.
Qed.

Lemma emitted_at_most_one node : (List.length (emitted node) <= 1)%nat.
Proof. rewrite emitted_length. destruct (contributes node); lia. Qed.

(** X29. The messages of an imported conversation are in ascending
    order of time: among the timestamps that are valid dates, each is at
    most the next. The timestamps are those the code computes, the
    numbers of the file read as doubles and multiplied by 1000 as doubles
    are; rounding keeps the order. *)
Theorem imported_messages_ascend
    (stamp : jsstring) (conv : ImportDialog.ChatGPTConversation.t)
    (c : ImportDialog.Conversation.t)
    (Hconverted : ImportDialog.convert stamp conv = ImportDialog.Ok (Some c)) :
  StronglySorted Z.le (validTimes (ImportDialog.Conversation.messages c)).
Proof.
  destruct (convert_messages _ _ _ Hconverted) as (mapping & _ & F & _ & _).
  set (nodes := ImportDialog.sortNodes
                  (filter ImportDialog.hasParts (map snd mapping))) in *.
  assert (Hp : Forall (fun n => ImportDialog.hasParts n = true) nodes).
  { apply Forall_forall. intros n Hn.
    apply (Permutation_in _ (Permutation_sym (sortNodes_perm _))) in Hn.
    apply filter_In in Hn. tauto. }
  rewrite (forNodes_ok_emitted _ _ _ Hp F). cbn [app].
  rewrite validTimes_flat_map.
  apply (flat_map_sorted keyLe).
  - apply sortNodes_sorted.
  - intros n _. pose proof (emitted_at_most_one n) as L.
    destruct (emitted n) as [|m [|m' rest]]; simpl in *; try lia.
    + constructor.
    + destruct (ImportDialog.Message.timestamp m); simpl;
        repeat constructor.
  - intros a b x y Hab Hx Hy.
    apply in_flat_map in Hx. destruct Hx as (m & Hm & Hx).
    apply in_flat_map in Hy. destruct Hy as (m' & Hm' & Hy).
    destruct (ImportDialog.Message.timestamp m) as [t|] eqn:T; [|destruct Hx].
    destruct (ImportDialog.Message.timestamp m') as [t'|] eqn:T'; [|destruct Hy].
    destruct Hx as [<-|[]]. destruct Hy as [<-|[]].
    destruct (emitted_time a m t Hm T) as (v & Ev & Dv).
    destruct (emitted_time b m' t' Hm' T') as (v' & Ev' & Dv').
    apply (newDate_mono v v'); [|assumption|assumption].
    rewrite Ev, Ev'. apply round_mono.
    apply Qmult_le_compat_r; [exact Hab|].
    vm_compute. discriminate.
Qed.

Lemma imported_messages_ascend_witness :
  match ImportDialog.convert (clock_text 0%nat) good_record with
  | ImportDialog.Ok (Some c) =>
      StronglySorted Z.le (validTimes (ImportDialog.Conversation.messages c))
  | _ => False
  end.
Proof.
  destruct (ImportDialog.convert (clock_text 0%nat) good_record)
    as [[c|]|] eqn:E.
  - exact (imported_messages_ascend _ _ _ E).
  - vm_compute in E. discriminate.
  - vm_compute in E. discriminate.
Defined.

(* ================================================================== *)
(** * Properties of the ids of tags *)
(* ================================================================== *)

Lemma uint_digits_inj u u' : Js.uint_digits u = Js.uint_digits u' -> u = u'.
Proof.
  revert u'. induction u; intros [] H; simpl in H; try discriminate;
    try reflexivity; injection H as H; f_equal; auto.
Qed.

Lemma decimal_inj z z' : Js.decimal z = Js.decimal z' -> z = z'.
Proof.
  unfold Js.decimal. intros H.
  rewrite <- (DecimalZ.of_to z), <- (DecimalZ.of_to z').
  destruct (Z.to_int z) as [u|u], (Z.to_int z') as [u'|u'].
  - apply uint_digits_inj in H. now subst.
  - destruct u; simpl in H; discriminate.
  - destruct u'; simpl in H; discriminate.
  - injection H as H. apply uint_digits_inj in H. now subst.
Qed.

(** X30. The id of a new tag is made from the clock alone: two tags
    get the same id exactly when they are created at the same reading of
    the clock, whatever their names and colours. The second of two such
    tags cannot be attached to a conversation that carries the first:
    attaching it changes nothing. *)
Theorem tag_ids_follow_the_clock
    (now now' : Z) (name color name' color' : jsstring) :
  let first := Home.handleCreateTag now name color in
  let second := Home.handleCreateTag now' name' color' in
  (ConversationTag.id first = ConversationTag.id second <-> now = now')
  /\ (now = now' ->
      forall convId conv,
        Home.addTag convId second (Home.addTag convId first conv)
        = Home.addTag convId first conv)
  /\ (now <> now' ->
      forall conv,
        Conversation.tags conv = [] ->
        Conversation.tags
          (Home.addTag (Conversation.id conv) second
             (Home.addTag (Conversation.id conv) first conv))
        = [first; second]).
Proof.
  intros first second.
  assert (I : ConversationTag.id first = ConversationTag.id second <-> now = now').
  { unfold first, second, Home.handleCreateTag. cbn [ConversationTag.id]. split.
    - intros H. apply app_inv_head in H. now apply decimal_inj.
    - now intros ->. }
  split; [exact I|]. split.
  - intros E convId conv. clear I. subst now'.
    unfold Home.addTag at 1. rewrite addTag_id.
    destruct (Js.eqb (Conversation.id conv) convId) eqn:C; [|reflexivity].
    cbn [negb]. rewrite addTag_tags, C. cbn [andb].
    change (ConversationTag.id second) with (ConversationTag.id first).
    destruct (existsb _ (Conversation.tags conv)) eqn:X; cbn [negb].
    + now rewrite X.
    + rewrite existsb_app. simpl. rewrite eqb_refl, orb_true_r.
      reflexivity.
  - intros N conv Hnone.
    rewrite addTag_tags, addTag_id, eqb_refl, addTag_tags, eqb_refl, Hnone.
    cbn [existsb negb andb app orb].
    destruct (Js.eqb (ConversationTag.id first) (ConversationTag.id second)) eqn:E.
    + apply eqb_eq, I in E. contradiction.
    + reflexivity.
Qed.
